(** * LuxPower RS-485 Modbus scripts: a shallow embedding and its properties

    The development follows the four Python scripts of the repository
    ([dump_ongoing.py], [modbus_dump_holding.py], [modbus_dump_input.py],
    [modbus_read_one.py]).  Python integers are [Z], a [bytes] object is a
    [list byte], the dictionary built by [read_registers] is a [gmap Z Z],
    and a Python exception is the [Raise] constructor of [pyresult]. *)

From Stdlib Require Import ZArith List Lia Bool.
From Stdlib Require Import Strings.Byte.
From stdpp Require Import base list gmap.

Open Scope Z_scope.

(** ** Python values *)

Inductive exn : Type :=
| ValueError
| IndexError
| TypeError.

Inductive pyresult (A : Type) : Type :=
| Ret (a : A)
| Raise (e : exn).

Arguments Ret {A} a.
Arguments Raise {A} e.

Definition bind {A B : Type} (m : pyresult A) (k : A -> pyresult B) : pyresult B :=
  match m with
  | Ret a => k a
  | Raise e => Raise e
  end.

Notation "'let*' x ':=' m 'in' k" := (bind m (fun x => k))
  (at level 10, x pattern, m at level 100, k at level 200).

(** The integer value of a byte, as Python sees an element of [bytes]. *)
Definition byte_val (b : byte) : Z := Z.of_N (Byte.to_N b).

(** One element of [bytes([...])]: an integer outside 0..255 raises
    [ValueError]. *)
Definition byte_of_int (z : Z) : pyresult byte :=
  if (z <? 0) || (255 <? z) then Raise ValueError
  else match Byte.of_N (Z.to_N z) with
       | Some b => Ret b
       | None => Raise ValueError
       end.

Fixpoint bytes_of_ints (l : list Z) : pyresult (list byte) :=
  match l with
  | [] => Ret []
  | z :: l' =>
      let* b := byte_of_int z in
      let* bs := bytes_of_ints l' in
      Ret (b :: bs)
  end.

(** ** Checksum: [crc16_modbus] (identical in the four scripts) *)

(** One pass of the inner loop:
    [crc = (crc >> 1) ^ 0xA001 if (crc & 1) else (crc >> 1)]. *)
Definition crc_shift (crc : Z) : Z :=
  if Z.land crc 1 =? 0 then Z.shiftr crc 1
  else Z.lxor (Z.shiftr crc 1) 0xA001.

(** The body of [for b in data]: [crc ^= b], then eight shifts. *)
Definition crc_byte (crc : Z) (b : byte) : Z :=
  Nat.iter 8 crc_shift (Z.lxor crc (byte_val b)).

Definition crc16_modbus (data : list byte) : Z :=
  Z.land (fold_left crc_byte data 0xFFFF) 0xFFFF.

(** The CRC-16/MODBUS register algorithm as the specification words it: a
    16-bit accumulator, the byte exclusive-ored into its low byte, and eight
    steps that shift right and apply the generator 0xA001 exactly when the
    bit shifted out is 1. *)
Module Standard.

Definition xor_low_byte (acc : Z) (b : Z) : Z :=
  256 * (acc / 256) + Z.lxor (acc mod 256) b.

Definition step (acc : Z) : Z :=
  let shifted_out := Z.testbit acc 0 in
  let acc' := acc / 2 in
  if shifted_out then Z.lxor acc' 0xA001 else acc'.

Definition update (acc : Z) (b : byte) : Z :=
  step (step (step (step (step (step (step (step
    (xor_low_byte acc (byte_val b))))))))).

Definition crc16 (data : list byte) : Z :=
  fold_left update data 0xFFFF.

End Standard.

(** ** Python sequences *)

Definition len {A : Type} (l : list A) : Z := Z.of_nat (length l).

(** [l[i]] with Python's negative indices; out of range raises
    [IndexError]. *)
Definition py_index {A : Type} (l : list A) (i : Z) : pyresult A :=
  let j := if i <? 0 then i + len l else i in
  if (j <? 0) || (len l <=? j) then Raise IndexError
  else match l !! Z.to_nat j with
       | Some x => Ret x
       | None => Raise IndexError
       end.

(** A slice bound clamped the way Python clamps it. *)
Definition py_bound (n i : Z) : Z :=
  if i <? 0 then Z.max 0 (n + i) else Z.min i n.

(** [l[lo:hi]]. *)
Definition py_slice {A : Type} (l : list A) (lo hi : Z) : list A :=
  drop (Z.to_nat (py_bound (len l) lo)) (take (Z.to_nat (py_bound (len l) hi)) l).

(** [range(0, n, 2)]. *)
Definition range2 (n : Z) : list Z :=
  map (fun k => 2 * Z.of_nat k) (seq 0 (Z.to_nat ((n + 1) / 2))).

Fixpoint mapM {A B : Type} (f : A -> pyresult B) (l : list A) : pyresult (list B) :=
  match l with
  | [] => Ret []
  | x :: l' =>
      let* y := f x in
      let* ys := mapM f l' in
      Ret (y :: ys)
  end.

Fixpoint foldM {A B : Type} (f : B -> A -> pyresult B) (acc : B) (l : list A)
  : pyresult B :=
  match l with
  | [] => Ret acc
  | x :: l' =>
      let* acc' := f acc x in
      foldM f acc' l'
  end.

(** [(data[i] << 8) | data[i + 1]]. *)
Definition be16_at (data : list byte) (i : Z) : pyresult Z :=
  let* hi := py_index data i in
  let* lo := py_index data (i + 1) in
  Ret (Z.lor (Z.shiftl (byte_val hi) 8) (byte_val lo)).

(** [[(data[i] << 8) | data[i+1] for i in range(0, len(data), 2)]]. *)
Definition decode_regs (data : list byte) : pyresult (list Z) :=
  mapM (be16_at data) (range2 (len data)).

(** [frame[-2] | (frame[-1] << 8)]. *)
Definition trailing_crc (frame : list byte) : pyresult Z :=
  let* lo := py_index frame (-2) in
  let* hi := py_index frame (-1) in
  Ret (Z.lor (byte_val lo) (Z.shiftl (byte_val hi) 8)).

(** [enumerate(regs)] turned into (address, value) pairs from [addr]. *)
Definition enumerate_from (addr : Z) (regs : list Z) : list (Z * Z) :=
  imap (fun i v => (addr + Z.of_nat i, v)) regs.

(** ** The serial port

    The inbound line is a list of events: [Some b] is a byte that arrives,
    [None] is one read timeout elapsing with nothing on the line; after the
    end of the list the line stays silent.  [respond] is the responder on
    the bus: it sees each written frame and produces the events that
    follow.  [sent] records the frames written so far.

    Time is counted in milliseconds.  The only thing that takes time on
    this line is a read that waits: a [ser.read(k)] that comes back with
    fewer than [k] bytes has waited for the whole timeout of the port
    ([ser.timeout]), and bytes that are there are returned at once.  This
    is what [time.time() - t0] measures in the [read_exact] of
    [dump_ongoing.py] and [modbus_dump_input.py]. *)

Record serial (D : Type) : Type := mkSerial {
  inbuf : list (option byte);
  sent : list (list byte);
  dev : D;
  respond : D -> list byte -> list (option byte) * D
}.

Arguments mkSerial {D} _ _ _ _.
Arguments inbuf {D} _.
Arguments sent {D} _.
Arguments dev {D} _.
Arguments respond {D} _ _ _.

Section Port.
Context {D : Type}.

Definition reset_input_buffer (ser : serial D) : serial D :=
  mkSerial [] (sent ser) (dev ser) (respond ser).

Definition ser_write (ser : serial D) (req : list byte) : serial D :=
  let '(events, d') := respond ser (dev ser) req in
  mkSerial (inbuf ser ++ events) (sent ser ++ [req]) d' (respond ser).

(** Bytes taken from the line by one [ser.read(k)]: up to [k] bytes, cut
    short by a timeout. *)
Fixpoint take_bytes (k : nat) (line : list (option byte))
  : list byte * list (option byte) :=
  match k with
  | O => ([], line)
  | S k' =>
      match line with
      | [] => ([], [])
      | None :: line' => ([], line')
      | Some b :: line' =>
          let '(bs, rest) := take_bytes k' line' in (b :: bs, rest)
      end
  end.

Definition ser_read (ser : serial D) (k : Z) : list byte * serial D :=
  let '(bs, rest) := take_bytes (Z.to_nat k) (inbuf ser) in
  (bs, mkSerial rest (sent ser) (dev ser) (respond ser)).

(** [read_exact] of [modbus_dump_holding.py] and [modbus_read_one.py]:
    [while len(buf) < n: chunk = ser.read(n - len(buf));
    if not chunk: break; buf += chunk].  Every pass that does not leave
    the loop adds a byte, so [n] passes are enough. *)
Fixpoint read_exact_loop (fuel : nat) (n : Z) (buf : list byte) (ser : serial D)
  : list byte * serial D :=
  match fuel with
  | O => (buf, ser)
  | S fuel' =>
      if len buf <? n then
        let '(chunk, ser') := ser_read ser (n - len buf) in
        match chunk with
        | [] => (buf, ser')
        | _ :: _ => read_exact_loop fuel' n (buf ++ chunk) ser'
        end
      else (buf, ser)
  end.

Definition read_exact (ser : serial D) (n : Z) : list byte * serial D :=
  read_exact_loop (Z.to_nat n) n [] ser.

(** How long the [ser.read(k)] that returned [chunk] has waited. *)
Definition read_wait (ser_timeout k : Z) (chunk : list byte) : Z :=
  if len chunk <? k then ser_timeout else 0.

(** The loop of [read_exact] in [dump_ongoing.py] and
    [modbus_dump_input.py], which has a second test:
    [t0 = time.time()]
    [while len(buf) < n and (time.time() - t0) < limit:
    chunk = ser.read(n - len(buf)); if not chunk: break; buf += chunk].
    [elapsed] is [time.time() - t0] when the test is made. *)
Fixpoint read_exact_guarded_loop (fuel : nat) (ser_timeout limit n elapsed : Z)
  (buf : list byte) (ser : serial D) : list byte * serial D :=
  match fuel with
  | O => (buf, ser)
  | S fuel' =>
      if (len buf <? n) && (elapsed <? limit) then
        let '(chunk, ser') := ser_read ser (n - len buf) in
        match chunk with
        | [] => (buf, ser')
        | _ :: _ =>
            read_exact_guarded_loop fuel' ser_timeout limit n
              (elapsed + read_wait ser_timeout (n - len buf) chunk)
              (buf ++ chunk) ser'
        end
      else (buf, ser)
  end.

Definition read_exact_guarded (ser_timeout limit : Z) (ser : serial D) (n : Z)
  : list byte * serial D :=
  read_exact_guarded_loop (Z.to_nat n) ser_timeout limit n 0 [] ser.

End Port.

(** ** dump_ongoing.py *)

Module DumpOngoing.

(** Function 0x04 = Read Input Registers. *)
Definition build_req (slave start qty : Z) : pyresult (list byte) :=
  let* p := bytes_of_ints
              [slave; 0x04;
               Z.land (Z.shiftr start 8) 0xFF; Z.land start 0xFF;
               Z.land (Z.shiftr qty 8) 0xFF; Z.land qty 0xFF] in
  let c := crc16_modbus p in
  let* t := bytes_of_ints [Z.land c 0xFF; Z.land (Z.shiftr c 8) 0xFF] in
  Ret (p ++ t).

(** The loop that fills [result]. *)
Definition decode_dict (start : Z) (data : list byte) : pyresult (gmap Z Z) :=
  foldM (fun (result : gmap Z Z) i =>
           let reg_addr := start + i / 2 in
           let* value := be16_at data i in
           Ret (<[reg_addr := value]> result))
        ∅ (range2 (len data)).

Section WithPort.
Context {D : Type}.

(** The timeout the port was opened with ([ser.timeout]), in
    milliseconds. *)
Variable ser_timeout : Z.

(** [read_exact(ser, n, timeout)]: the loop runs while
    [(time.time() - t0) < timeout + 0.2]. *)
Definition read_exact (ser : serial D) (n timeout : Z) : list byte * serial D :=
  read_exact_guarded ser_timeout (timeout + 200) ser n.

(** Returns the dictionary, or [None] on error.  [timeout] is the
    function's own argument, [1.0] by default. *)
Definition read_registers (ser : serial D) (slave start qty timeout : Z)
  : pyresult (option (gmap Z Z) * serial D) :=
  let* req := build_req slave start qty in
  let ser := reset_input_buffer ser in
  let ser := ser_write ser req in
  let '(head, ser) := read_exact ser 3 timeout in
  if len head <? 3 then Ret (None, ser)
  else
    match head with
    | [addr; func; bc] =>
        if negb (Z.land (byte_val func) 0x80 =? 0) then
          let '(_, ser) := read_exact ser 2 timeout in
          Ret (None, ser)
        else
          let '(rest, ser) := read_exact ser (byte_val bc + 2) timeout in
          if negb (len rest =? byte_val bc + 2) then Ret (None, ser)
          else
            let frame := head ++ rest in
            let* crc_rx := trailing_crc frame in
            if negb (crc16_modbus (py_slice frame 0 (-2)) =? crc_rx)
            then Ret (None, ser)
            else
              let data := py_slice frame 3 (-2) in
              let* result := decode_dict start data in
              Ret (Some result, ser)
    | _ => Raise ValueError
    end.

End WithPort.

End DumpOngoing.

(** What a loop body hands back to its loop: go round again, or leave
    ([return] in [dump_range], [break] in [main]). *)
Inductive ctl (S : Type) : Type :=
| Continue (s : S)
| Leave (s : S).

Arguments Continue {S} s.
Arguments Leave {S} s.

(** ** modbus_dump_holding.py *)

Module DumpHolding.

(** Modbus RTU:
    [slave][func=0x03][start hi][start lo][qty hi][qty lo][crc lo][crc hi]. *)
Definition build_read_holding_req (slave start qty : Z) : pyresult (list byte) :=
  let* pdu := bytes_of_ints
                [Z.land slave 0xFF; 0x03;
                 Z.land (Z.shiftr start 8) 0xFF; Z.land start 0xFF;
                 Z.land (Z.shiftr qty 8) 0xFF; Z.land qty 0xFF] in
  let crc := crc16_modbus pdu in
  let* t := bytes_of_ints [Z.land crc 0xFF; Z.land (Z.shiftr crc 8) 0xFF] in
  Ret (pdu ++ t).

(** The tag [err[0]] of an error tuple. *)
Inductive etype : Type :=
| TIMEOUT_OR_SHORT
| DESYNC
| EXC_SHORT
| EXC_BADCRC
| EXCEPTION
| SHORT
| BADCRC
| BADCNT.

(** An error tuple: its tag, the numbers formatted into its message and
    the bytes of its hex dump. *)
Record error : Type := mkError {
  etag : etype;
  nums : list Z;
  dump : list byte
}.

(** Lines written by [dump_range]: register lines go to stdout, the rest
    to stderr. *)
Inductive event : Type :=
| RegLine (r v : Z)
| ErrRetry (addr qty : Z) (err : error) (new_qty : Z)
| ErrOne (addr : Z) (err : error)
| Stopping (addr : Z).

Definition reg_lines (addr : Z) (regs : list Z) : list event :=
  map (fun rv => RegLine (fst rv) (snd rv)) (enumerate_from addr regs).

(** The register lines of an output, as (address, value) pairs. *)
Fixpoint printed (out : list event) : list (Z * Z) :=
  match out with
  | [] => []
  | RegLine r v :: out' => (r, v) :: printed out'
  | _ :: out' => printed out'
  end.

Section WithPort.
Context {D : Type}.

Definition fail (ser : serial D) (t : etype) (ns : list Z) (bs : list byte)
  : pyresult ((option (list Z) * option error) * serial D) :=
  Ret ((None, Some (mkError t ns bs)), ser).

(** Returns [(regs, err)]: [regs] a list if OK, [err] [None] if OK. *)
Definition read_holding_chunk (ser : serial D) (slave start qty : Z)
  : pyresult ((option (list Z) * option error) * serial D) :=
  let ser := reset_input_buffer ser in
  let* req := build_read_holding_req slave start qty in
  let ser := ser_write ser req in
  let '(head, ser) := read_exact ser 2 in
  if len head <? 2 then fail ser TIMEOUT_OR_SHORT [2; len head] head
  else
    let* r_slave := py_index head 0 in
    let* r_func := py_index head 1 in
    if negb (byte_val r_slave =? Z.land slave 0xFF) then
      let '(more, ser) := ser_read ser 64 in
      fail ser DESYNC [byte_val r_slave; byte_val r_func] (head ++ more)
    else if negb (Z.land (byte_val r_func) 0x80 =? 0) then
      let '(rest, ser) := read_exact ser 3 in
      if len rest <? 3 then fail ser EXC_SHORT [] (head ++ rest)
      else
        let* code := py_index rest 0 in
        let frame := head ++ rest in
        let* lo := py_index rest 1 in
        let* hi := py_index rest 2 in
        let crc_rx := Z.lor (byte_val lo) (Z.shiftl (byte_val hi) 8) in
        let crc_calc := crc16_modbus (py_slice frame 0 (-2)) in
        if negb (crc_rx =? crc_calc)
        then fail ser EXC_BADCRC [byte_val code] frame
        else fail ser EXCEPTION [byte_val r_func; byte_val code] []
    else
      let '(bcnt_b, ser) := read_exact ser 1 in
      if len bcnt_b <? 1 then fail ser SHORT [] head
      else
        let* bcnt0 := py_index bcnt_b 0 in
        let bcnt := byte_val bcnt0 in
        let '(rest, ser) := read_exact ser (bcnt + 2) in
        let frame := head ++ bcnt_b ++ rest in
        if len rest <? bcnt + 2 then fail ser SHORT [] frame
        else
          let* crc_rx := trailing_crc rest in
          let crc_calc := crc16_modbus (py_slice frame 0 (-2)) in
          if negb (crc_rx =? crc_calc)
          then fail ser BADCRC [crc_rx; crc_calc] frame
          else if negb (bcnt =? qty * 2)
          then fail ser BADCNT [bcnt; qty * 2] frame
          else
            let data := py_slice rest 0 (-2) in
            let* regs := decode_regs data in
            Ret ((Some regs, None), ser).

(** The variables of [dump_range] that change in its loop, with the
    port and the lines written. *)
Record state : Type := mkState {
  st_ser : serial D;
  st_addr : Z;
  st_chunk : Z;
  st_out : list event
}.

Definition note (quiet_errors : bool) (out : list event) (e : event)
  : list event :=
  if quiet_errors then out else out ++ [e].

(** One pass of [while addr < end]. *)
Definition dump_range_body (slave end_ : Z) (stop_on_illegal quiet_errors : bool)
  (st : state) : pyresult (ctl state) :=
  let addr := st_addr st in
  let chunk := st_chunk st in
  let out := st_out st in
  let qty := Z.min chunk (end_ - addr) in
  let* (res, ser) := read_holding_chunk (st_ser st) slave addr qty in
  match res with
  | (regs, None) =>
      match regs with
      | Some regs =>
          Ret (Continue (mkState ser (addr + qty) chunk
                           (out ++ reg_lines addr regs)))
      | None => Raise TypeError
      end
  | (_, Some err) =>
      if 1 <? qty then
        let new_qty := Z.max 1 (qty / 2) in
        let out := note quiet_errors out (ErrRetry addr qty err new_qty) in
        let chunk := Z.max 1 (Z.min chunk qty) in
        let* (res2, ser) := read_holding_chunk ser slave addr new_qty in
        match res2 with
        | (regs2, None) =>
            match regs2 with
            | Some regs2 =>
                Ret (Continue (mkState ser (addr + new_qty) chunk
                                 (out ++ reg_lines addr regs2)))
            | None => Raise TypeError
            end
        | (_, Some _) =>
            Ret (Continue (mkState ser addr (Z.max 1 new_qty) out))
        end
      else
        let out := note quiet_errors out (ErrOne addr err) in
        if stop_on_illegal
        then Ret (Leave (mkState ser addr chunk (out ++ [Stopping addr])))
        else Ret (Continue (mkState ser (addr + 1) chunk out))
  end.

(** [while addr < end]; [None] when [fuel] passes were not enough. *)
Fixpoint dump_range_loop (fuel : nat) (slave end_ : Z)
  (stop_on_illegal quiet_errors : bool) (st : state)
  : pyresult (option state) :=
  if st_addr st <? end_ then
    match fuel with
    | O => Ret None
    | S fuel' =>
        let* c := dump_range_body slave end_ stop_on_illegal quiet_errors st in
        match c with
        | Continue st' =>
            dump_range_loop fuel' slave end_ stop_on_illegal quiet_errors st'
        | Leave st' => Ret (Some st')
        end
    end
  else Ret (Some st).

Definition dump_range (fuel : nat) (ser : serial D)
  (slave start count chunk : Z) (stop_on_illegal quiet_errors : bool)
  : pyresult (option state) :=
  let end_ := start + count in
  dump_range_loop fuel slave end_ stop_on_illegal quiet_errors
    (mkState ser start chunk []).

End WithPort.

Arguments state D : clear implicits.

End DumpHolding.

(** ** modbus_dump_input.py *)

Module DumpInput.

(** Function 0x04 = Read Input Registers. *)
Definition build_req (slave start qty : Z) : pyresult (list byte) :=
  let* p := bytes_of_ints
              [slave; 0x04;
               Z.land (Z.shiftr start 8) 0xFF; Z.land start 0xFF;
               Z.land (Z.shiftr qty 8) 0xFF; Z.land qty 0xFF] in
  let c := crc16_modbus p in
  let* t := bytes_of_ints [Z.land c 0xFF; Z.land (Z.shiftr c 8) 0xFF] in
  Ret (p ++ t).

(** The first component of the tuple [read_block] returns. *)
Inductive status : Type :=
| TIMEOUT_OR_SHORT
| EXCEPTION
| CRC
| OK.

(** Its second component, with the numbers formatted into the text. *)
Inductive msg : Type :=
| NeedGot (need got : Z)
| ShortExceptionFrame
| ExcInfo (func code : Z) (crc_ok : bool)
| CrcMismatch.

(** Lines written by [main], all to stdout. *)
Inductive event : Type :=
| RegLine (r v : Z)
| ErrLine (addr qty : Z) (st : status) (m : option msg)
| RetryLine (new_qty : Z)
| Stopping (addr : Z).

Definition reg_lines (addr : Z) (regs : list Z) : list event :=
  map (fun rv => RegLine (fst rv) (snd rv)) (enumerate_from addr regs).

Fixpoint printed (out : list event) : list (Z * Z) :=
  match out with
  | [] => []
  | RegLine r v :: out' => (r, v) :: printed out'
  | _ :: out' => printed out'
  end.

Definition is_OK (s : status) : bool :=
  match s with
  | OK => true
  | _ => false
  end.

Section WithPort.
Context {D : Type}.

(** The timeout the port was opened with ([ser.timeout]), in
    milliseconds. *)
Variable ser_timeout : Z.

(** [read_exact(ser, n)]: the loop runs while
    [(time.time() - t0) < (ser.timeout or 1.0) + 0.2]. *)
Definition read_exact (ser : serial D) (n : Z) : list byte * serial D :=
  read_exact_guarded ser_timeout
    ((if ser_timeout =? 0 then 1000 else ser_timeout) + 200) ser n.

Definition read_block (ser : serial D) (slave start qty : Z)
  : pyresult ((status * option msg * option (list Z)) * serial D) :=
  let* req := build_req slave start qty in
  let ser := reset_input_buffer ser in
  let ser := ser_write ser req in
  let '(head, ser) := read_exact ser 3 in
  if len head <? 3
  then Ret ((TIMEOUT_OR_SHORT, Some (NeedGot 3 (len head)), None), ser)
  else
    match head with
    | [addr; func; bc] =>
        if negb (Z.land (byte_val func) 0x80 =? 0) then
          let '(rest, ser) := read_exact ser 2 in
          if negb (len rest =? 2)
          then Ret ((EXCEPTION, Some ShortExceptionFrame, None), ser)
          else
            let* lo := py_index rest 0 in
            let* hi := py_index rest 1 in
            let crc_rx := Z.lor (byte_val lo) (Z.shiftl (byte_val hi) 8) in
            let ok := crc16_modbus head =? crc_rx in
            Ret ((EXCEPTION,
                  Some (ExcInfo (byte_val func) (byte_val bc) ok), None), ser)
        else
          let '(rest, ser) := read_exact ser (byte_val bc + 2) in
          if negb (len rest =? byte_val bc + 2)
          then Ret ((TIMEOUT_OR_SHORT,
                     Some (NeedGot (byte_val bc + 2) (len rest)), None), ser)
          else
            let frame := head ++ rest in
            let* crc_rx := trailing_crc frame in
            let crc_ok := crc16_modbus (py_slice frame 0 (-2)) =? crc_rx in
            if negb crc_ok then Ret ((CRC, Some CrcMismatch, None), ser)
            else
              let data := py_slice frame 3 (-2) in
              let* regs := decode_regs data in
              Ret ((OK, None, Some regs), ser)
    | _ => Raise ValueError
    end.

(** The variables of the loop of [main]: [addr], [remaining] and
    [args.chunk], with the port and the lines written. *)
Record state : Type := mkState {
  st_ser : serial D;
  st_addr : Z;
  st_remaining : Z;
  st_chunk : Z;
  st_out : list event
}.

(** One pass of [while remaining > 0]. *)
Definition main_body (slave : Z) (stop_on_illegal : bool) (st : state)
  : pyresult (ctl state) :=
  let addr := st_addr st in
  let remaining := st_remaining st in
  let chunk := st_chunk st in
  let out := st_out st in
  let qty := Z.min chunk remaining in
  let* (res, ser) := read_block (st_ser st) slave addr qty in
  let '(status, m, regs) := res in
  if is_OK status then
    match regs with
    | Some regs =>
        Ret (Continue (mkState ser (addr + qty) (remaining - qty) chunk
                         (out ++ reg_lines addr regs)))
    | None => Raise TypeError
    end
  else
    let out := out ++ [ErrLine addr qty status m] in
    if 1 <? qty then
      let new_qty := Z.max 1 (qty / 2) in
      Ret (Continue (mkState ser addr remaining new_qty
                       (out ++ [RetryLine new_qty])))
    else if stop_on_illegal
    then Ret (Leave (mkState ser addr remaining chunk (out ++ [Stopping addr])))
    else Ret (Continue (mkState ser (addr + 1) (remaining - 1) chunk out)).

(** [while remaining > 0]; [None] when [fuel] passes were not enough. *)
Fixpoint main_loop (fuel : nat) (slave : Z) (stop_on_illegal : bool)
  (st : state) : pyresult (option state) :=
  if 0 <? st_remaining st then
    match fuel with
    | O => Ret None
    | S fuel' =>
        let* c := main_body slave stop_on_illegal st in
        match c with
        | Continue st' => main_loop fuel' slave stop_on_illegal st'
        | Leave st' => Ret (Some st')
        end
    end
  else Ret (Some st).

(** The loop of [main] from its initial values. *)
Definition main (fuel : nat) (ser : serial D) (slave start count chunk : Z)
  (stop_on_illegal : bool) : pyresult (option state) :=
  main_loop fuel slave stop_on_illegal (mkState ser start count chunk []).

End WithPort.

Arguments state D : clear implicits.

End DumpInput.

(** ** modbus_read_one.py *)

Module ReadOne.

Definition build_req (slave func start qty : Z) : pyresult (list byte) :=
  let* p := bytes_of_ints
              [Z.land slave 0xFF; Z.land func 0xFF;
               Z.land (Z.shiftr start 8) 0xFF; Z.land start 0xFF;
               Z.land (Z.shiftr qty 8) 0xFF; Z.land qty 0xFF] in
  let c := crc16_modbus p in
  let* t := bytes_of_ints [Z.land c 0xFF; Z.land (Z.shiftr c 8) 0xFF] in
  Ret (p ++ t).

(** What [main] prints before it returns. *)
Inductive report : Type :=
| NO_RESPONSE_header
| SHORT_EXCEPTION (frame : list byte)
| EXCEPTION_line (slave func code : Z) (crc_ok : bool)
| SHORT_RESPONSE (frame : list byte)
| OK_line (crc_ok : bool) (slave func start count : Z) (regs : list (Z * Z))
| NO_RESPONSE_after_retries.

Section WithPort.
Context {D : Type}.

(** [for attempt in range(args.retries + 1)], from the pass that has
    [left] passes after it ([attempt < args.retries] is [left > 0]). *)
Fixpoint attempts (left : nat) (req : list byte) (start count : Z)
  (ser : serial D) : pyresult (report * serial D) :=
  let ser := reset_input_buffer ser in
  let ser := ser_write ser req in
  let '(head, ser) := read_exact ser 3 in
  if len head <? 3 then
    match left with
    | S left' => attempts left' req start count ser
    | O => Ret (NO_RESPONSE_header, ser)
    end
  else
    let* slave := py_index head 0 in
    let* func := py_index head 1 in
    let* b2 := py_index head 2 in
    if negb (Z.land (byte_val func) 0x80 =? 0) then
      let '(tail, ser) := read_exact ser 2 in
      if len tail <? 2 then Ret (SHORT_EXCEPTION (head ++ tail), ser)
      else
        let resp := head ++ tail in
        let body := py_slice resp 0 (-2) in
        let* crc_rx := trailing_crc resp in
        let crc_ok := crc16_modbus body =? crc_rx in
        Ret (EXCEPTION_line (byte_val slave) (byte_val func) (byte_val b2)
               crc_ok, ser)
    else
      let bytecount := byte_val b2 in
      let '(tail, ser) := read_exact ser (bytecount + 2) in
      if len tail <? bytecount + 2 then
        match left with
        | S left' => attempts left' req start count ser
        | O => Ret (SHORT_RESPONSE (head ++ tail), ser)
        end
      else
        let resp := head ++ tail in
        let body := py_slice resp 0 (-2) in
        let* crc_rx := trailing_crc resp in
        let crc_ok := crc16_modbus body =? crc_rx in
        let data := py_slice resp 3 (3 + bytecount) in
        let* regs := decode_regs data in
        Ret (OK_line crc_ok (byte_val slave) (byte_val func) start count
               (enumerate_from start regs), ser).

(** [main] once the port is open. *)
Definition main (ser : serial D) (slave func start count retries : Z)
  : pyresult (report * serial D) :=
  let* req := build_req slave func start count in
  if retries + 1 <=? 0 then Ret (NO_RESPONSE_after_retries, ser)
  else attempts (Z.to_nat retries) req start count ser.

End WithPort.

End ReadOne.

(** ** The two read operations *)

Inductive operation : Type :=
| Holding
| Input.

Definition function_code (op : operation) : Z :=
  match op with
  | Holding => 0x03
  | Input => 0x04
  end.

(** The scripts have one request builder per register space;
    [build_request] is the builder the operation selects. *)
Definition build_request (address : Z) (op : operation) (start count : Z)
  : pyresult (list byte) :=
  match op with
  | Holding => DumpHolding.build_read_holding_req address start count
  | Input => DumpOngoing.build_req address start count
  end.

(** ** Responders used in the examples *)

Definition to_byte (z : Z) : byte :=
  match Byte.of_N (Z.to_N (z mod 256)) with
  | Some b => b
  | None => x00
  end.

(** A frame body followed by its checksum, low byte first. *)
Definition with_crc (body : list byte) : list byte :=
  let c := crc16_modbus body in
  body ++ [to_byte (Z.land c 0xFF); to_byte (Z.shiftr c 8)].

(** A line on which nothing ever answers. *)
Definition silent : unit -> list byte -> list (option byte) * unit :=
  fun _ _ => ([], tt).

(** A responder that answers every request with the same bytes. *)
Definition canned (frame : list byte) : unit -> list byte -> list (option byte) *
    unit :=
  fun _ _ => (map Some frame, tt).

(** A responder that serves register [r] with value [value r] and rejects
    with exception code 2 every read that touches an [illegal] address. *)
Definition inverter (illegal : Z -> bool) (value : Z -> Z)
  : unit -> list byte -> list (option byte) * unit :=
  fun _ req =>
    match req with
    | [a; f; sh; sl; qh; ql; _; _] =>
        let start := 256 * byte_val sh + byte_val sl in
        let qty := 256 * byte_val qh + byte_val ql in
        let addrs := map (fun k => start + Z.of_nat k) (seq 0 (Z.to_nat qty)) in
        if existsb illegal addrs
        then (map Some (with_crc [a; to_byte (byte_val f + 128); x02]), tt)
        else (map Some
                (with_crc ([a; f; to_byte (2 * qty)]
                             ++ flat_map (fun r => [to_byte (value r / 256);
                                                    to_byte (value r)]) addrs)), tt)
    | _ => ([], tt)
    end.

(** A freshly opened port on responder [r]. *)
Definition open_port {D : Type} (d : D)
  (r : D -> list byte -> list (option byte) * D) : serial D :=
  mkSerial [] [] d r.

(** The (start, quantity) fields of a request frame. *)
Definition request_fields (req : list byte) : Z * Z :=
  match req with
  | _ :: _ :: sh :: sl :: qh :: ql :: _ =>
      (256 * byte_val sh + byte_val sl, 256 * byte_val qh + byte_val ql)
  | _ => (0, 0)
  end.

(** ** Vocabulary of the statements *)

(** The value a transaction returns, without the port. *)
Definition outcome {A D : Type} (r : pyresult (A * serial D)) : pyresult A :=
  let* (a, _) := r in Ret a.

(** The trailing two bytes of [frame], low byte first, are the checksum of
    the bytes before them. *)
Definition checksum_ok (frame : list byte) : Prop :=
  trailing_crc frame = Ret (crc16_modbus (py_slice frame 0 (-2))).

(** The big-endian 16-bit integer formed from bytes [2k] and [2k+1] of
    [data]. *)
Definition be16 (data : list byte) (k : nat) : Z :=
  256 * byte_val (nth (2 * k) data x00) + byte_val (nth (2 * k + 1) data x00).

(** Some address of the read [a .. a + q - 1] is in [bad]. *)
Definition covers (bad : Z -> bool) (a q : Z) : bool := existsb bad (seqZ a q).

(** The (address, value) pairs of the addresses from [lo] up to [hi]
    (excluded) that are not in [bad], in ascending order. *)
Definition served (bad : Z -> bool) (value : Z -> Z) (lo hi : Z) : list (Z * Z) :=
  map (fun a => (a, value a))
    (List.filter (fun a => negb (bad a)) (seqZ lo (hi - lo))).


(** What a run of the loop of [modbus_dump_input.py] leaves to be seen:
    the (start, quantity) fields of the requests sent, in order, the final
    chunk size and the (register, value) pairs printed. *)
Definition input_trace {D : Type} (r : pyresult (option (DumpInput.state D)))
  : option (list (Z * Z) * Z * list (Z * Z)) :=
  match r with
  | Ret (Some st) =>
      Some (map request_fields (sent (DumpInput.st_ser st)),
            DumpInput.st_chunk st,
            DumpInput.printed (DumpInput.st_out st))
  | _ => None
  end.

(** The same of a run of [dump_range]. *)
Definition holding_trace {D : Type} (r : pyresult (option (DumpHolding.state D)))
  : option (list (Z * Z) * Z * list (Z * Z)) :=
  match r with
  | Ret (Some st) =>
      Some (map request_fields (sent (DumpHolding.st_ser st)),
            DumpHolding.st_chunk st,
            DumpHolding.printed (DumpHolding.st_out st))
  | _ => None
  end.

(** ** Properties of the checksum *)

Lemma byte_val_range (b : byte) : 0 <= byte_val b < 256.
Proof.
  unfold byte_val. pose proof (Byte.to_N_bounded b). lia.
Qed.

Lemma lxor_below_pow2 (n a b : Z) :
  0 < n -> 0 <= a < 2 ^ n -> 0 <= b < 2 ^ n -> 0 <= Z.lxor a b < 2 ^ n.
Proof.
  intros Hn Ha Hb. split.
  - apply Z.lxor_nonneg. lia.
  - destruct (Z.eq_dec (Z.lxor a b) 0) as [-> | Hnz].
    + lia.
    + assert (0 < Z.lxor a b) by (pose proof (proj2 (Z.lxor_nonneg a b)); lia).
      apply Z.log2_lt_pow2; [lia |].
      pose proof (Z.log2_lxor a b ltac:(lia) ltac:(lia)) as Hl.
      assert (Z.log2 a < n).
      { destruct (Z.eq_dec a 0) as [-> | ?]; [simpl; lia |].
        apply Z.log2_lt_pow2; lia. }
      assert (Z.log2 b < n).
      { destruct (Z.eq_dec b 0) as [-> | ?]; [simpl; lia |].
        apply Z.log2_lt_pow2; lia. }
      lia.
Qed.

Lemma crc_shift_range (crc : Z) :
  0 <= crc < 65536 -> 0 <= crc_shift crc < 65536.
Proof.
  intros H. unfold crc_shift.
  assert (Hs : 0 <= Z.shiftr crc 1 < 32768).
  { rewrite Z.shiftr_div_pow2 by lia. change (2 ^ 1) with 2.
    split; [apply Z.div_pos; lia | apply Z.div_lt_upper_bound; lia]. }
  destruct (Z.land crc 1 =? 0); [lia |].
  apply (lxor_below_pow2 16); lia.
Qed.

Lemma crc_shift_standard (crc : Z) : crc_shift crc = Standard.step crc.
Proof.
  unfold crc_shift, Standard.step.
  rewrite Z.shiftr_div_pow2 by lia. change (2 ^ 1) with 2.
  change 1 with (Z.ones 1) at 1. rewrite Z.land_ones by lia.
  change (2 ^ 1) with 2. rewrite Z.bit0_odd, Zmod_odd.
  destruct (Z.odd crc); reflexivity.
Qed.

Lemma bits_above_byte (b n : Z) :
  0 <= b < 256 -> 8 <= n -> Z.testbit b n = false.
Proof.
  intros Hb Hn.
  destruct (Z.eq_dec b 0) as [-> | Hnz]; [apply Z.bits_0 |].
  apply Z.bits_above_log2; [lia |].
  assert (Z.log2 b < 8) by (apply Z.log2_lt_pow2; lia). lia.
Qed.

Lemma lxor_byte_high (crc b : Z) :
  0 <= b < 256 -> Z.lxor crc b / 256 = crc / 256.
Proof.
  intros Hb. change 256 with (2 ^ 8).
  rewrite <- !Z.shiftr_div_pow2 by lia.
  rewrite Z.shiftr_lxor.
  rewrite (Z.shiftr_div_pow2 b) by lia.
  rewrite (Z.div_small b) by (change (2 ^ 8) with 256; lia).
  apply Z.lxor_0_r.
Qed.

Lemma lxor_byte_low (crc b : Z) :
  0 <= b < 256 -> Z.lxor crc b mod 256 = Z.lxor (crc mod 256) b.
Proof.
  intros Hb. change 256 with (2 ^ 8).
  apply Z.bits_inj'. intros n Hn.
  destruct (Z_lt_le_dec n 8) as [Hlt | Hge].
  - rewrite Z.mod_pow2_bits_low by lia.
    rewrite !Z.lxor_spec.
    rewrite Z.mod_pow2_bits_low by lia. reflexivity.
  - rewrite Z.mod_pow2_bits_high by lia.
    rewrite Z.lxor_spec.
    rewrite Z.mod_pow2_bits_high by lia.
    rewrite bits_above_byte by lia. reflexivity.
Qed.

Lemma xor_low_byte_standard (crc b : Z) :
  0 <= b < 256 -> Z.lxor crc b = Standard.xor_low_byte crc b.
Proof.
  intros Hb. unfold Standard.xor_low_byte.
  rewrite (Z.div_mod (Z.lxor crc b) 256) at 1 by lia.
  rewrite lxor_byte_high, lxor_byte_low by exact Hb.
  reflexivity.
Qed.

Lemma crc_byte_range (crc : Z) (b : byte) :
  0 <= crc < 65536 -> 0 <= crc_byte crc b < 65536.
Proof.
  intros H. unfold crc_byte.
  assert (Hx : 0 <= Z.lxor crc (byte_val b) < 65536).
  { pose proof (byte_val_range b).
    apply (lxor_below_pow2 16); lia. }
  simpl. do 8 (apply crc_shift_range). exact Hx.
Qed.

Lemma crc_byte_standard (crc : Z) (b : byte) :
  crc_byte crc b = Standard.update crc b.
Proof.
  unfold crc_byte, Standard.update. simpl.
  rewrite !crc_shift_standard.
  rewrite (xor_low_byte_standard crc (byte_val b)) by apply byte_val_range.
  reflexivity.
Qed.

Lemma crc_fold_range (data : list byte) (crc : Z) :
  0 <= crc < 65536 -> 0 <= fold_left crc_byte data crc < 65536.
Proof.
  revert crc. induction data as [| b data IH]; intros crc H; simpl.
  - exact H.
  - apply IH. apply crc_byte_range. exact H.
Qed.

Lemma crc_fold_standard (data : list byte) (crc : Z) :
  fold_left crc_byte data crc = fold_left Standard.update data crc.
Proof.
  revert crc. induction data as [| b data IH]; intros crc; simpl.
  - reflexivity.
  - rewrite crc_byte_standard. apply IH.
Qed.

Lemma crc16_modbus_unmasked (data : list byte) :
  crc16_modbus data = fold_left crc_byte data 0xFFFF.
Proof.
  unfold crc16_modbus.
  pose proof (crc_fold_range data 0xFFFF ltac:(lia)) as H.
  change 0xFFFF with (Z.ones 16) at 2.
  rewrite Z.land_ones by lia.
  apply Z.mod_small. change (2 ^ 16) with 65536. lia.
Qed.

Lemma crc16_modbus_range (data : list byte) : 0 <= crc16_modbus data <= 0xFFFF.
Proof.
  rewrite crc16_modbus_unmasked.
  pose proof (crc_fold_range data 0xFFFF ltac:(lia)). lia.
Qed.

(** C1. [crc16_modbus] is the standard CRC-16/MODBUS register algorithm
    (accumulator initialised to 0xFFFF, each byte exclusive-ored into the
    low byte, then eight shift steps that apply 0xA001 exactly when the bit
    shifted out is 1), and its result always lies in 0..0xFFFF.  Being a
    function of its argument only, it is deterministic and keeps no state. *)
Theorem crc16_modbus_is_standard (data : list byte) :
  crc16_modbus data = Standard.crc16 data /\
  0 <= crc16_modbus data <= 0xFFFF.
Proof.
  split.
  - rewrite crc16_modbus_unmasked. apply crc_fold_standard.
  - apply crc16_modbus_range.
Qed.

(** ** Request frames *)

Lemma byte_of_int_to_byte (z : Z) :
  0 <= z <= 255 -> byte_of_int z = Ret (to_byte z) /\ byte_val (to_byte z) = z.
Proof.
  intros Hz. unfold byte_of_int, to_byte, byte_val.
  destruct (Z.ltb_spec z 0) as [? | _]; [lia |].
  destruct (Z.ltb_spec 255 z) as [? | _]; [lia |]. simpl.
  rewrite (Z.mod_small z 256) by lia.
  pose proof (Byte.to_of_N_option_map (Z.to_N z)) as Hopt.
  destruct (N.leb_spec (Z.to_N z) 255) as [_ | Hgt]; [| lia].
  destruct (Byte.of_N (Z.to_N z)) as [b |] eqn:Hb; [| discriminate].
  simpl in Hopt. injection Hopt as Hopt. rewrite Hopt. split; [reflexivity | lia].
Qed.

Lemma low_byte_mask (x : Z) : Z.land x 0xFF = x mod 256.
Proof. change 0xFF with (Z.ones 8). rewrite Z.land_ones by lia. reflexivity. Qed.

Lemma shiftr8_div (x : Z) : Z.shiftr x 8 = x / 256.
Proof. rewrite Z.shiftr_div_pow2 by lia. reflexivity. Qed.

Lemma high_byte_mask (x : Z) :
  0 <= x < 65536 -> Z.land (Z.shiftr x 8) 0xFF = x / 256.
Proof.
  intros Hx. rewrite low_byte_mask, shiftr8_div.
  apply Z.mod_small. split; [apply Z.div_pos; lia |].
  apply Z.div_lt_upper_bound; lia.
Qed.

Lemma byte_mod_range (x : Z) : 0 <= x mod 256 <= 255.
Proof. pose proof (Z.mod_pos_bound x 256 ltac:(lia)). lia. Qed.

Lemma word_high_range (x : Z) : 0 <= x < 65536 -> 0 <= x / 256 <= 255.
Proof.
  intros Hx. split; [apply Z.div_pos; lia |].
  assert (x / 256 < 256) by (apply Z.div_lt_upper_bound; lia). lia.
Qed.

(** The six header bytes and the trailer every builder emits, once the
    first two integers are known to be bytes. *)
Lemma request_bytes (a f start qty : Z) :
  0 <= a <= 255 -> 0 <= f <= 255 ->
  let p := [to_byte a; to_byte f;
            to_byte (Z.land (Z.shiftr start 8) 0xFF); to_byte (Z.land start 0xFF);
            to_byte (Z.land (Z.shiftr qty 8) 0xFF); to_byte (Z.land qty 0xFF)] in
  bytes_of_ints [a; f; Z.land (Z.shiftr start 8) 0xFF; Z.land start 0xFF;
                 Z.land (Z.shiftr qty 8) 0xFF; Z.land qty 0xFF] = Ret p /\
  bytes_of_ints [Z.land (crc16_modbus p) 0xFF;
                 Z.land (Z.shiftr (crc16_modbus p) 8) 0xFF]
  = Ret [to_byte (Z.land (crc16_modbus p) 0xFF);
         to_byte (Z.land (Z.shiftr (crc16_modbus p) 8) 0xFF)].
Proof.
  intros Ha Hf p. subst p.
  assert (Hm : forall x, byte_of_int (Z.land x 0xFF) = Ret (to_byte (Z.land x 0xFF))).
  { intros x. apply byte_of_int_to_byte. rewrite low_byte_mask. apply byte_mod_range. }
  split; cbn [bytes_of_ints bind].
  - rewrite (proj1 (byte_of_int_to_byte a Ha)), (proj1 (byte_of_int_to_byte f Hf)).
    cbn [bind]. rewrite !Hm. reflexivity.
  - rewrite !Hm. reflexivity.
Qed.

Lemma build_req_bytes (slave start qty : Z) :
  0 <= slave <= 255 ->
  let p := [to_byte slave; to_byte 4;
            to_byte (Z.land (Z.shiftr start 8) 0xFF); to_byte (Z.land start 0xFF);
            to_byte (Z.land (Z.shiftr qty 8) 0xFF); to_byte (Z.land qty 0xFF)] in
  DumpOngoing.build_req slave start qty
  = Ret (p ++ [to_byte (Z.land (crc16_modbus p) 0xFF);
               to_byte (Z.land (Z.shiftr (crc16_modbus p) 8) 0xFF)]).
Proof.
  intros Hs p. unfold DumpOngoing.build_req.
  destruct (request_bytes slave 4 start qty Hs ltac:(lia)) as [Hp Ht].
  rewrite Hp. cbn [bind]. rewrite Ht. reflexivity.
Qed.

Lemma build_read_holding_req_bytes (slave start qty : Z) :
  let p := [to_byte (Z.land slave 0xFF); to_byte 3;
            to_byte (Z.land (Z.shiftr start 8) 0xFF); to_byte (Z.land start 0xFF);
            to_byte (Z.land (Z.shiftr qty 8) 0xFF); to_byte (Z.land qty 0xFF)] in
  DumpHolding.build_read_holding_req slave start qty
  = Ret (p ++ [to_byte (Z.land (crc16_modbus p) 0xFF);
               to_byte (Z.land (Z.shiftr (crc16_modbus p) 8) 0xFF)]).
Proof.
  intros p. unfold DumpHolding.build_read_holding_req.
  assert (Hs : 0 <= Z.land slave 0xFF <= 255)
    by (rewrite low_byte_mask; apply byte_mod_range).
  destruct (request_bytes (Z.land slave 0xFF) 3 start qty Hs ltac:(lia)) as [Hp Ht].
  rewrite Hp. cbn [bind]. rewrite Ht. reflexivity.
Qed.

Lemma to_byte_val (z : Z) : 0 <= z <= 255 -> byte_val (to_byte z) = z.
Proof. intros Hz. apply byte_of_int_to_byte. exact Hz. Qed.

(** C2. For an address in 0..255, either operation and 16-bit start and
    count, the request is exactly eight bytes: address, function code,
    start high and low, count high and low, then the checksum of those six
    bytes, low byte first. *)
Theorem build_request_frame (address : Z) (op : operation) (start count : Z) :
  0 <= address <= 255 -> 0 <= start < 65536 -> 0 <= count < 65536 ->
  exists a f sh sl ch cl k_lo k_hi,
    build_request address op start count = Ret [a; f; sh; sl; ch; cl; k_lo; k_hi] /\
    byte_val a = address /\
    byte_val f = function_code op /\
    byte_val sh = start / 256 /\ byte_val sl = start mod 256 /\
    byte_val ch = count / 256 /\ byte_val cl = count mod 256 /\
    byte_val k_lo = crc16_modbus [a; f; sh; sl; ch; cl] mod 256 /\
    byte_val k_hi = crc16_modbus [a; f; sh; sl; ch; cl] / 256.
Proof.
  intros Ha Hs Hc.
  set (a := to_byte address).
  set (f := to_byte (function_code op)).
  set (sh := to_byte (Z.land (Z.shiftr start 8) 0xFF)).
  set (sl := to_byte (Z.land start 0xFF)).
  set (ch := to_byte (Z.land (Z.shiftr count 8) 0xFF)).
  set (cl := to_byte (Z.land count 0xFF)).
  set (c := crc16_modbus [a; f; sh; sl; ch; cl]).
  exists a, f, sh, sl, ch, cl,
    (to_byte (Z.land c 0xFF)), (to_byte (Z.land (Z.shiftr c 8) 0xFF)).
  pose proof (crc16_modbus_range [a; f; sh; sl; ch; cl]) as Hcrc. fold c in Hcrc.
  split.
  - destruct op; unfold build_request.
    + rewrite build_read_holding_req_bytes.
      rewrite (low_byte_mask address), (Z.mod_small address 256) by lia.
      reflexivity.
    + rewrite build_req_bytes by exact Ha. reflexivity.
  - fold c. repeat apply conj.
    + apply to_byte_val. exact Ha.
    + apply to_byte_val. destruct op; simpl; lia.
    + unfold sh. rewrite (high_byte_mask start Hs).
      apply to_byte_val, word_high_range. exact Hs.
    + unfold sl. rewrite low_byte_mask. apply to_byte_val, byte_mod_range.
    + unfold ch. rewrite (high_byte_mask count Hc).
      apply to_byte_val, word_high_range. exact Hc.
    + unfold cl. rewrite low_byte_mask. apply to_byte_val, byte_mod_range.
    + rewrite low_byte_mask. apply to_byte_val, byte_mod_range.
    + assert (Hc16 : 0 <= c < 65536) by lia.
      rewrite (high_byte_mask c Hc16).
      apply to_byte_val, word_high_range. exact Hc16.
Qed.

Lemma build_request_frame_witness :
  exists a f sh sl ch cl k_lo k_hi,
    build_request 1 Input 101 8 = Ret [a; f; sh; sl; ch; cl; k_lo; k_hi] /\
    byte_val a = 1 /\
    byte_val f = function_code Input /\
    byte_val sh = 101 / 256 /\ byte_val sl = 101 mod 256 /\
    byte_val ch = 8 / 256 /\ byte_val cl = 8 mod 256 /\
    byte_val k_lo = crc16_modbus [a; f; sh; sl; ch; cl] mod 256 /\
    byte_val k_hi = crc16_modbus [a; f; sh; sl; ch; cl] / 256.
Proof.
  apply (build_request_frame 1 Input 101 8); lia.
Defined.

(** ** Bytes, words and Python sequences *)

Lemma lor_low_high (lo hi : Z) :
  0 <= lo < 256 -> Z.lor lo (Z.shiftl hi 8) = lo + 256 * hi.
Proof.
  intros Hlo.
  assert (Hdisj : Z.land lo (Z.shiftl hi 8) = 0).
  { apply Z.bits_inj'. intros n Hn. rewrite Z.land_spec, Z.bits_0.
    destruct (Z_lt_le_dec n 8) as [Hlt | Hge].
    - rewrite Z.shiftl_spec_low by lia. apply andb_false_r.
    - rewrite bits_above_byte by lia. reflexivity. }
  rewrite <- Z.lxor_lor, <- Z.add_nocarry_lxor by exact Hdisj.
  rewrite Z.shiftl_mul_pow2 by lia. change (2 ^ 8) with 256. lia.
Qed.

Lemma lor_high_low (hi lo : Z) :
  0 <= lo < 256 -> Z.lor (Z.shiftl hi 8) lo = 256 * hi + lo.
Proof.
  intros Hlo. rewrite Z.lor_comm, lor_low_high by exact Hlo. lia.
Qed.

Lemma len_nonneg {A : Type} (l : list A) : 0 <= len l.
Proof. unfold len. lia. Qed.

Lemma len_app {A : Type} (l1 l2 : list A) : len (l1 ++ l2) = len l1 + len l2.
Proof. unfold len. rewrite length_app. lia. Qed.

Lemma len_cons {A : Type} (x : A) (l : list A) : len (x :: l) = 1 + len l.
Proof. unfold len. simpl length. lia. Qed.

Lemma len_nil {A : Type} : len (@nil A) = 0.
Proof. reflexivity. Qed.

Lemma py_index_nonneg {A : Type} (l : list A) (i : Z) :
  0 <= i < len l ->
  exists x, l !! Z.to_nat i = Some x /\ py_index l i = Ret x.
Proof.
  intros Hi. unfold py_index.
  destruct (Z.ltb_spec i 0) as [? | _]; [lia |].
  destruct (Z.ltb_spec i 0) as [? | _]; [lia |].
  destruct (Z.leb_spec (len l) i) as [? | _]; [lia |]. simpl.
  destruct (l !! Z.to_nat i) as [x |] eqn:Hx.
  - exists x. split; reflexivity.
  - apply lookup_ge_None in Hx. unfold len in Hi. lia.
Qed.

Lemma py_index_out_of_range {A : Type} (l : list A) (i : Z) :
  len l <= i -> py_index l i = Raise IndexError.
Proof.
  intros Hi. unfold py_index. pose proof (len_nonneg l).
  destruct (Z.ltb_spec i 0) as [? | _]; [lia |].
  destruct (Z.ltb_spec i 0) as [? | _]; [lia |].
  destruct (Z.leb_spec (len l) i) as [_ | ?]; [reflexivity | lia].
Qed.

Lemma py_index_last2 {A : Type} (body : list A) (x y : A) :
  py_index (body ++ [x; y]) (-2) = Ret x /\
  py_index (body ++ [x; y]) (-1) = Ret y.
Proof.
  unfold py_index. rewrite len_app. pose proof (len_nonneg body) as Hb.
  change (len [x; y]) with 2.
  split.
  - change (-2 <? 0) with true. cbv iota.
    destruct (Z.ltb_spec (-2 + (len body + 2)) 0) as [? | _]; [lia |].
    destruct (Z.leb_spec (len body + 2) (-2 + (len body + 2))) as [? | _]; [lia |].
    simpl orb. cbv iota.
    replace (Z.to_nat (-2 + (len body + 2))) with (length body + 0)%nat
      by (unfold len; lia).
    rewrite lookup_app_r by lia.
    replace (length body + 0 - length body)%nat with 0%nat by lia. reflexivity.
  - change (-1 <? 0) with true. cbv iota.
    destruct (Z.ltb_spec (-1 + (len body + 2)) 0) as [? | _]; [lia |].
    destruct (Z.leb_spec (len body + 2) (-1 + (len body + 2))) as [? | _]; [lia |].
    simpl orb. cbv iota.
    replace (Z.to_nat (-1 + (len body + 2))) with (length body + 1)%nat
      by (unfold len; lia).
    rewrite lookup_app_r by lia.
    replace (length body + 1 - length body)%nat with 1%nat by lia. reflexivity.
Qed.

Lemma py_slice_drop_last2 {A : Type} (body : list A) (x y : A) :
  py_slice (body ++ [x; y]) 0 (-2) = body.
Proof.
  unfold py_slice, py_bound. rewrite len_app. pose proof (len_nonneg body).
  change (len [x; y]) with 2.
  change (0 <? 0) with false. change (-2 <? 0) with true. cbv iota.
  rewrite Z.min_l by lia. change (Z.to_nat 0) with 0%nat. rewrite drop_0.
  rewrite Z.max_r by lia.
  replace (Z.to_nat (len body + 2 + -2)) with (length body) by (unfold len; lia).
  apply take_app_length.
Qed.

Lemma py_slice_payload {A : Type} (a f bc : A) (data : list A) (x y : A) :
  py_slice ([a; f; bc] ++ data ++ [x; y]) 3 (-2) = data.
Proof.
  unfold py_slice, py_bound. rewrite !len_app. pose proof (len_nonneg data).
  change (len [a; f; bc]) with 3. change (len [x; y]) with 2.
  change (3 <? 0) with false. change (-2 <? 0) with true. cbv iota.
  rewrite Z.min_l by lia. rewrite Z.max_r by lia.
  replace (Z.to_nat (3 + (len data + 2) + -2)) with (3 + length data)%nat
    by (unfold len; lia).
  change (Z.to_nat 3) with 3%nat.
  change ([a; f; bc] ++ data ++ [x; y]) with (a :: f :: bc :: (data ++ [x; y])).
  simpl take. simpl drop. apply take_app_length.
Qed.

(** The trailer of [with_crc] reads back as the checksum. *)
Lemma trailing_crc_with_crc (body : list byte) :
  trailing_crc (with_crc body) = Ret (crc16_modbus body) /\
  py_slice (with_crc body) 0 (-2) = body.
Proof.
  unfold with_crc, trailing_crc.
  pose proof (crc16_modbus_range body) as Hc.
  set (c := crc16_modbus body) in *.
  destruct (py_index_last2 body (to_byte (Z.land c 255)) (to_byte (Z.shiftr c 8)))
    as [H2 H1].
  split; [| apply py_slice_drop_last2].
  rewrite H2. cbn [bind]. rewrite H1. cbn [bind].
  rewrite low_byte_mask, shiftr8_div.
  rewrite !to_byte_val by (try apply byte_mod_range; apply word_high_range; lia).
  rewrite lor_low_high by (apply Z.mod_pos_bound; lia).
  f_equal. pose proof (Z.div_mod c 256 ltac:(lia)). lia.
Qed.

(** ** Reading from the line *)

Lemma take_bytes_available (bs : list byte) (tail : list (option byte)) :
  take_bytes (length bs) (map Some bs ++ tail) = (bs, tail).
Proof.
  induction bs as [| b bs IH]; simpl.
  - reflexivity.
  - rewrite IH. reflexivity.
Qed.

Lemma take_bytes_length (k : nat) (line : list (option byte)) :
  (length (fst (take_bytes k line)) <= k)%nat.
Proof.
  revert line. induction k as [| k IH]; intros line; simpl.
  - lia.
  - destruct line as [| [b |] line]; simpl; try lia.
    specialize (IH line). destruct (take_bytes k line) as [bs rest]. simpl in *. lia.
Qed.

(** When the [n] bytes [bs] are on the line, [read_exact] returns them and
    leaves what follows. *)
Lemma read_exact_available {D : Type} (ser : serial D) (n : Z)
  (bs : list byte) (tail : list (option byte)) :
  inbuf ser = map Some bs ++ tail -> len bs = n ->
  read_exact ser n = (bs, mkSerial tail (sent ser) (dev ser) (respond ser)).
Proof.
  intros Hin Hn. unfold read_exact.
  destruct bs as [| b bs].
  - rewrite len_nil in Hn. subst n. simpl.
    destruct ser as [i s d r]. simpl in *. subst i. reflexivity.
  - assert (Hfuel : Z.to_nat n = S (length bs))
      by (rewrite len_cons in Hn; unfold len in Hn; lia).
    rewrite Hfuel. cbn [read_exact_loop].
    rewrite len_nil.
    destruct (Z.ltb_spec 0 n) as [_ | ?]; [| rewrite len_cons in Hn; unfold len in
        Hn; lia].
    unfold ser_read. rewrite Hin.
    replace (Z.to_nat (n - 0)) with (length (b :: bs)) by (simpl length; lia).
    rewrite take_bytes_available. rewrite app_nil_l.
    destruct (length bs) as [| k]; cbn [read_exact_loop].
    + reflexivity.
    + destruct (Z.ltb_spec (len (b :: bs)) n) as [? | _]; [lia | reflexivity].
Qed.

(** [read_exact] never returns more than it was asked for. *)
Lemma read_exact_loop_length {D : Type} (fuel : nat) (n : Z) (buf : list byte)
  (ser : serial D) :
  len buf <= Z.max 0 n -> len (fst (read_exact_loop fuel n buf ser)) <= Z.max 0 n.
Proof.
  revert buf ser. induction fuel as [| fuel IH]; intros buf ser Hb; simpl.
  - exact Hb.
  - destruct (Z.ltb_spec (len buf) n) as [Hlt | Hge]; [| exact Hb].
    unfold ser_read.
    pose proof (take_bytes_length (Z.to_nat (n - len buf)) (inbuf ser)) as Hk.
    destruct (take_bytes (Z.to_nat (n - len buf)) (inbuf ser)) as [chunk rest].
    simpl in Hk.
    destruct chunk as [| c chunk]; [exact Hb |].
    apply IH. rewrite len_app. unfold len in *. lia.
Qed.

Lemma read_exact_length {D : Type} (ser : serial D) (n : Z) :
  len (fst (read_exact ser n)) <= Z.max 0 n.
Proof.
  unfold read_exact. apply read_exact_loop_length. rewrite len_nil. lia.
Qed.

(** ** The three transaction functions on a complete frame *)

Lemma len3_inv {A : Type} (l : list A) :
  len l = 3 -> exists a b c, l = [a; b; c].
Proof.
  unfold len. intros H.
  destruct l as [| a [| b [| c [| d l]]]]; simpl in H; try lia.
  exists a, b, c. reflexivity.
Qed.

Lemma len2_inv {A : Type} (l : list A) :
  len l = 2 -> exists a b, l = [a; b].
Proof.
  unfold len. intros H.
  destruct l as [| a [| b [| c l]]]; simpl in H; try lia.
  exists a, b. reflexivity.
Qed.

Lemma len1_inv {A : Type} (l : list A) :
  len l = 1 -> exists a, l = [a].
Proof.
  unfold len. intros H.
  destruct l as [| a [| b l]]; simpl in H; try lia.
  exists a. reflexivity.
Qed.

(** What [read_exact] returned, as a list of exactly the length asked for
    or a shorter one. *)
Lemma read_exact_full_or_short {D : Type} (ser : serial D) (n : Z)
  (bs : list byte) (ser' : serial D) :
  0 <= n -> read_exact ser n = (bs, ser') -> len bs <= n.
Proof.
  intros Hn H. pose proof (read_exact_length ser n) as Hle.
  rewrite H in Hle. simpl in Hle. lia.
Qed.

(** *** The guarded loop of [dump_ongoing.py] and [modbus_dump_input.py] *)

(** When the [n] bytes [bs] are on the line and the limit leaves room for
    a first pass, the guarded loop returns them and leaves what follows. *)
Lemma read_exact_guarded_available {D : Type} (ser_timeout limit : Z)
  (ser : serial D) (n : Z) (bs : list byte) (tail : list (option byte)) :
  0 < limit -> inbuf ser = map Some bs ++ tail -> len bs = n ->
  read_exact_guarded ser_timeout limit ser n
  = (bs, mkSerial tail (sent ser) (dev ser) (respond ser)).
Proof.
  intros Hlim Hin Hn. unfold read_exact_guarded.
  destruct bs as [| b bs].
  - rewrite len_nil in Hn. subst n. simpl.
    destruct ser as [i s d r]. simpl in *. subst i. reflexivity.
  - assert (Hfuel : Z.to_nat n = S (length bs))
      by (rewrite len_cons in Hn; unfold len in Hn; lia).
    rewrite Hfuel. cbn [read_exact_guarded_loop].
    rewrite len_nil.
    destruct (Z.ltb_spec 0 n) as [_ | ?]; [| rewrite len_cons in Hn; unfold len in
        Hn; lia].
    destruct (Z.ltb_spec 0 limit) as [_ | ?]; [| lia].
    cbn [andb].
    unfold ser_read. rewrite Hin.
    replace (Z.to_nat (n - 0)) with (length (b :: bs)) by (simpl length; lia).
    rewrite take_bytes_available. rewrite app_nil_l.
    destruct (length bs) as [| k]; cbn [read_exact_guarded_loop].
    + reflexivity.
    + destruct (Z.ltb_spec (len (b :: bs)) n) as [? | _]; [lia | reflexivity].
Qed.

Lemma read_exact_guarded_loop_length {D : Type} (fuel : nat)
  (ser_timeout limit n elapsed : Z) (buf : list byte) (ser : serial D) :
  len buf <= Z.max 0 n ->
  len (fst (read_exact_guarded_loop fuel ser_timeout limit n elapsed buf ser))
  <= Z.max 0 n.
Proof.
  revert elapsed buf ser. induction fuel as [| fuel IH]; intros elapsed buf ser Hb;
    simpl.
  - exact Hb.
  - destruct (Z.ltb_spec (len buf) n) as [Hlt | Hge]; [| exact Hb].
    destruct (elapsed <? limit); [| exact Hb]. cbn [andb].
    unfold ser_read.
    pose proof (take_bytes_length (Z.to_nat (n - len buf)) (inbuf ser)) as Hk.
    destruct (take_bytes (Z.to_nat (n - len buf)) (inbuf ser)) as [chunk rest].
    simpl in Hk.
    destruct chunk as [| c chunk]; [exact Hb |].
    apply IH. rewrite len_app. unfold len in *. lia.
Qed.

Lemma read_exact_guarded_full_or_short {D : Type} (ser_timeout limit : Z)
  (ser : serial D) (n : Z) (bs : list byte) (ser' : serial D) :
  0 <= n -> read_exact_guarded ser_timeout limit ser n = (bs, ser') -> len bs <= n.
Proof.
  intros Hn H.
  pose proof (read_exact_guarded_loop_length (Z.to_nat n) ser_timeout limit n 0 []
                ser ltac:(rewrite len_nil; lia)) as Hle.
  unfold read_exact_guarded in H. rewrite H in Hle. simpl in Hle. lia.
Qed.

(** The two instances of the guarded loop. *)
Lemma ongoing_read_exact_available {D : Type} (ser_timeout : Z) (ser : serial D)
  (n timeout : Z) (bs : list byte) (tail : list (option byte)) :
  0 <= timeout -> inbuf ser = map Some bs ++ tail -> len bs = n ->
  DumpOngoing.read_exact ser_timeout ser n timeout
  = (bs, mkSerial tail (sent ser) (dev ser) (respond ser)).
Proof.
  intros Ht. apply read_exact_guarded_available. lia.
Qed.

Lemma ongoing_read_exact_full_or_short {D : Type} (ser_timeout : Z)
  (ser : serial D) (n timeout : Z) (bs : list byte) (ser' : serial D) :
  0 <= n -> DumpOngoing.read_exact ser_timeout ser n timeout = (bs, ser') ->
  len bs <= n.
Proof. apply read_exact_guarded_full_or_short. Qed.

Lemma input_read_exact_available {D : Type} (ser_timeout : Z) (ser : serial D)
  (n : Z) (bs : list byte) (tail : list (option byte)) :
  0 <= ser_timeout -> inbuf ser = map Some bs ++ tail -> len bs = n ->
  DumpInput.read_exact ser_timeout ser n
  = (bs, mkSerial tail (sent ser) (dev ser) (respond ser)).
Proof.
  intros Ht. apply read_exact_guarded_available.
  destruct (ser_timeout =? 0); lia.
Qed.

Lemma input_read_exact_full_or_short {D : Type} (ser_timeout : Z)
  (ser : serial D) (n : Z) (bs : list byte) (ser' : serial D) :
  0 <= n -> DumpInput.read_exact ser_timeout ser n = (bs, ser') -> len bs <= n.
Proof. apply read_exact_guarded_full_or_short. Qed.

(** [read_registers] once a whole normal frame has been collected. *)
Lemma read_registers_normal {D : Type} (ser_timeout : Z) (ser : serial D) (slave
    start qty timeout : Z)
  (req : list byte) (a f bc : byte) (rest : list byte) (s1 s2 : serial D) :
  DumpOngoing.build_req slave start qty = Ret req ->
  DumpOngoing.read_exact ser_timeout (ser_write (reset_input_buffer ser) req) 3
      timeout = ([a; f; bc], s1) ->
  Z.land (byte_val f) 0x80 = 0 ->
  DumpOngoing.read_exact ser_timeout s1 (byte_val bc + 2) timeout = (rest, s2) ->
  len rest = byte_val bc + 2 ->
  DumpOngoing.read_registers ser_timeout ser slave start qty timeout
  = let frame := [a; f; bc] ++ rest in
    let* crc_rx := trailing_crc frame in
    if negb (crc16_modbus (py_slice frame 0 (-2)) =? crc_rx) then Ret (None, s2)
    else
      let* result := DumpOngoing.decode_dict start (py_slice frame 3 (-2)) in
      Ret (Some result, s2).
Proof.
  intros Hreq Hhead Hf Hrest Hlen. unfold DumpOngoing.read_registers,
      DumpOngoing.read_exact in *.
  rewrite Hreq. cbn [bind]. rewrite Hhead.
  change (len [a; f; bc] <? 3) with false. cbv iota.
  rewrite Hf. change (negb (0 =? 0)) with false. cbv iota.
  rewrite Hrest, Hlen, Z.eqb_refl. reflexivity.
Qed.

Lemma read_block_normal {D : Type} (ser_timeout : Z) (ser : serial D) (slave start
    qty : Z)
  (req : list byte) (a f bc : byte) (rest : list byte) (s1 s2 : serial D) :
  DumpInput.build_req slave start qty = Ret req ->
  DumpInput.read_exact ser_timeout (ser_write (reset_input_buffer ser) req) 3 = ([a;
      f; bc], s1) ->
  Z.land (byte_val f) 0x80 = 0 ->
  DumpInput.read_exact ser_timeout s1 (byte_val bc + 2) = (rest, s2) ->
  len rest = byte_val bc + 2 ->
  DumpInput.read_block ser_timeout ser slave start qty
  = let frame := [a; f; bc] ++ rest in
    let* crc_rx := trailing_crc frame in
    if negb (crc16_modbus (py_slice frame 0 (-2)) =? crc_rx)
    then Ret ((DumpInput.CRC, Some DumpInput.CrcMismatch, None), s2)
    else
      let* regs := decode_regs (py_slice frame 3 (-2)) in
      Ret ((DumpInput.OK, None, Some regs), s2).
Proof.
  intros Hreq Hhead Hf Hrest Hlen. unfold DumpInput.read_block.
  rewrite Hreq. cbn [bind]. rewrite Hhead.
  change (len [a; f; bc] <? 3) with false. cbv iota.
  rewrite Hf. change (negb (0 =? 0)) with false. cbv iota.
  rewrite Hrest, Hlen, Z.eqb_refl. reflexivity.
Qed.

Lemma read_holding_chunk_normal {D : Type} (ser : serial D) (slave start qty : Z)
  (req : list byte) (a f bc : byte) (rest : list byte) (s1 s2 s3 : serial D) :
  DumpHolding.build_read_holding_req slave start qty = Ret req ->
  read_exact (ser_write (reset_input_buffer ser) req) 2 = ([a; f], s1) ->
  byte_val a = Z.land slave 0xFF ->
  Z.land (byte_val f) 0x80 = 0 ->
  read_exact s1 1 = ([bc], s2) ->
  read_exact s2 (byte_val bc + 2) = (rest, s3) ->
  byte_val bc + 2 <= len rest ->
  DumpHolding.read_holding_chunk ser slave start qty
  = let frame := [a; f] ++ [bc] ++ rest in
    let* crc_rx := trailing_crc rest in
    let crc_calc := crc16_modbus (py_slice frame 0 (-2)) in
    if negb (crc_rx =? crc_calc)
    then DumpHolding.fail s3 DumpHolding.BADCRC [crc_rx; crc_calc] frame
    else if negb (byte_val bc =? qty * 2)
    then DumpHolding.fail s3 DumpHolding.BADCNT [byte_val bc; qty * 2] frame
    else
      let* regs := decode_regs (py_slice rest 0 (-2)) in
      Ret ((Some regs, None), s3).
Proof.
  intros Hreq Hhead Ha Hf Hbc Hrest Hlen. unfold DumpHolding.read_holding_chunk.
  rewrite Hreq. cbn [bind]. rewrite Hhead.
  change (len [a; f] <? 2) with false. cbv iota.
  change (py_index [a; f] 0) with (Ret a). change (py_index [a; f] 1) with (Ret f).
  cbn [bind]. rewrite Ha, Z.eqb_refl. cbn [negb]. cbv iota.
  rewrite Hf. change (negb (0 =? 0)) with false. cbv iota.
  rewrite Hbc. change (len [bc] <? 1) with false. cbv iota.
  change (py_index [bc] 0) with (Ret bc). cbn [bind]. rewrite Hrest.
  destruct (Z.ltb_spec (len rest) (byte_val bc + 2)) as [? | _]; [lia |].
  reflexivity.
Qed.

(** ** Values come back only from a frame whose checksum matched *)

Lemma read_registers_Some_inv {D : Type} (ser_timeout : Z) (ser : serial D) (slave
    start qty timeout : Z)
  (m : gmap Z Z) (ser' : serial D) :
  DumpOngoing.read_registers ser_timeout ser slave start qty timeout = Ret (Some m,
      ser') ->
  exists req a f bc rest s1,
    DumpOngoing.build_req slave start qty = Ret req /\
    DumpOngoing.read_exact ser_timeout (ser_write (reset_input_buffer ser) req) 3
        timeout = ([a; f; bc], s1) /\
    Z.land (byte_val f) 0x80 = 0 /\
    DumpOngoing.read_exact ser_timeout s1 (byte_val bc + 2) timeout = (rest, ser') /\
    len rest = byte_val bc + 2 /\
    trailing_crc ([a; f; bc] ++ rest)
    = Ret (crc16_modbus (py_slice ([a; f; bc] ++ rest) 0 (-2))) /\
    DumpOngoing.decode_dict start (py_slice ([a; f; bc] ++ rest) 3 (-2)) = Ret m.
Proof.
  unfold DumpOngoing.read_registers. intros H.
  destruct (DumpOngoing.build_req slave start qty) as [req | e] eqn:Hreq;
    cbn [bind] in H; [| discriminate].
  destruct (DumpOngoing.read_exact ser_timeout (ser_write (reset_input_buffer ser)
      req) 3 timeout)
    as [head s1] eqn:Hhead.
  destruct (Z.ltb_spec (len head) 3) as [Hlt | Hge]; [discriminate |].
  pose proof (ongoing_read_exact_full_or_short _ _ 3 _ _ _ ltac:(lia) Hhead) as Hle.
  destruct (len3_inv head ltac:(lia)) as (a & f & bc & ->).
  destruct (Z.eqb_spec (Z.land (byte_val f) 128) 0) as [Hf | Hf]; cbn [negb] in H.
  2:{ destruct (DumpOngoing.read_exact ser_timeout s1 2 timeout). discriminate. }
  destruct (DumpOngoing.read_exact ser_timeout s1 (byte_val bc + 2) timeout) as [rest
      s2] eqn:Hrest.
  destruct (Z.eqb_spec (len rest) (byte_val bc + 2)) as [Hlen | Hlen];
    cbn [negb] in H; [| discriminate].
  destruct (trailing_crc ([a; f; bc] ++ rest)) as [crc_rx | e] eqn:Hcrc;
    cbn [bind] in H; [| discriminate].
  destruct (Z.eqb_spec (crc16_modbus (py_slice ([a; f; bc] ++ rest) 0 (-2))) crc_rx)
    as [Heq | Hne]; cbn [negb] in H; [| discriminate].
  destruct (DumpOngoing.decode_dict start (py_slice ([a; f; bc] ++ rest) 3 (-2)))
    as [result | e] eqn:Hdec; cbn [bind] in H; [| discriminate].
  injection H as <- <-.
  exists req, a, f, bc, rest, s1. subst crc_rx.
  repeat apply conj; try reflexivity; assumption.
Qed.

Lemma read_block_regs_inv {D : Type} (ser_timeout : Z) (ser : serial D) (slave start
    qty : Z)
  (st : DumpInput.status) (m : option DumpInput.msg) (regs : list Z)
  (ser' : serial D) :
  DumpInput.read_block ser_timeout ser slave start qty = Ret ((st, m, Some regs),
      ser') ->
  exists req a f bc rest s1,
    st = DumpInput.OK /\
    DumpInput.build_req slave start qty = Ret req /\
    DumpInput.read_exact ser_timeout (ser_write (reset_input_buffer ser) req) 3 =
        ([a; f; bc], s1) /\
    Z.land (byte_val f) 0x80 = 0 /\
    DumpInput.read_exact ser_timeout s1 (byte_val bc + 2) = (rest, ser') /\
    len rest = byte_val bc + 2 /\
    trailing_crc ([a; f; bc] ++ rest)
    = Ret (crc16_modbus (py_slice ([a; f; bc] ++ rest) 0 (-2))) /\
    decode_regs (py_slice ([a; f; bc] ++ rest) 3 (-2)) = Ret regs.
Proof.
  unfold DumpInput.read_block. intros H.
  destruct (DumpInput.build_req slave start qty) as [req | e] eqn:Hreq;
    cbn [bind] in H; [| discriminate].
  destruct (DumpInput.read_exact ser_timeout (ser_write (reset_input_buffer ser) req) 3)
    as [head s1] eqn:Hhead.
  destruct (Z.ltb_spec (len head) 3) as [Hlt | Hge]; [discriminate |].
  pose proof (input_read_exact_full_or_short _ _ 3 _ _ ltac:(lia) Hhead) as Hle.
  destruct (len3_inv head ltac:(lia)) as (a & f & bc & ->).
  destruct (Z.eqb_spec (Z.land (byte_val f) 128) 0) as [Hf | Hf]; cbn [negb] in H.
  2:{ destruct (DumpInput.read_exact ser_timeout s1 2) as [rest2 s2].
      destruct (negb (len rest2 =? 2)); [discriminate |].
      destruct (py_index rest2 0); cbn [bind] in H; [| discriminate].
      destruct (py_index rest2 1); cbn [bind] in H; discriminate. }
  destruct (DumpInput.read_exact ser_timeout s1 (byte_val bc + 2)) as [rest s2]
      eqn:Hrest.
  destruct (Z.eqb_spec (len rest) (byte_val bc + 2)) as [Hlen | Hlen];
    cbn [negb] in H; [| discriminate].
  destruct (trailing_crc ([a; f; bc] ++ rest)) as [crc_rx | e] eqn:Hcrc;
    cbn [bind] in H; [| discriminate].
  destruct (Z.eqb_spec (crc16_modbus (py_slice ([a; f; bc] ++ rest) 0 (-2))) crc_rx)
    as [Heq | Hne]; cbn [negb] in H; [| discriminate].
  destruct (decode_regs (py_slice ([a; f; bc] ++ rest) 3 (-2)))
    as [result | e] eqn:Hdec; cbn [bind] in H; [| discriminate].
  injection H as <- <- <- <-.
  exists req, a, f, bc, rest, s1. subst crc_rx.
  repeat apply conj; try reflexivity; assumption.
Qed.

Lemma read_holding_chunk_regs_inv {D : Type} (ser : serial D) (slave start qty : Z)
  (regs : list Z) (err : option DumpHolding.error) (ser' : serial D) :
  DumpHolding.read_holding_chunk ser slave start qty = Ret ((Some regs, err), ser') ->
  exists req a f bc rest s1 s2,
    err = None /\
    DumpHolding.build_read_holding_req slave start qty = Ret req /\
    read_exact (ser_write (reset_input_buffer ser) req) 2 = ([a; f], s1) /\
    byte_val a = Z.land slave 0xFF /\
    Z.land (byte_val f) 0x80 = 0 /\
    read_exact s1 1 = ([bc], s2) /\
    read_exact s2 (byte_val bc + 2) = (rest, ser') /\
    len rest = byte_val bc + 2 /\
    trailing_crc rest
    = Ret (crc16_modbus (py_slice ([a; f] ++ [bc] ++ rest) 0 (-2))) /\
    byte_val bc = qty * 2 /\
    decode_regs (py_slice rest 0 (-2)) = Ret regs.
Proof.
  unfold DumpHolding.read_holding_chunk, DumpHolding.fail. intros H.
  destruct (DumpHolding.build_read_holding_req slave start qty) as [req | e] eqn:Hreq;
    cbn [bind] in H; [| discriminate].
  destruct (read_exact (ser_write (reset_input_buffer ser) req) 2)
    as [head s1] eqn:Hhead.
  destruct (Z.ltb_spec (len head) 2) as [Hlt | Hge]; [discriminate |].
  pose proof (read_exact_full_or_short _ 2 _ _ ltac:(lia) Hhead) as Hle.
  destruct (len2_inv head ltac:(lia)) as (a & f & ->).
  change (py_index [a; f] 0) with (Ret a) in H.
  change (py_index [a; f] 1) with (Ret f) in H. cbn [bind] in H.
  destruct (Z.eqb_spec (byte_val a) (Z.land slave 255)) as [Ha | Ha]; cbn [negb] in H.
  2:{ destruct (ser_read s1 64). discriminate. }
  destruct (Z.eqb_spec (Z.land (byte_val f) 128) 0) as [Hf | Hf]; cbn [negb] in H.
  2:{ destruct (read_exact s1 3) as [rest3 s2].
      destruct (len rest3 <? 3); [discriminate |].
      destruct (py_index rest3 0); cbn [bind] in H; [| discriminate].
      destruct (py_index rest3 1); cbn [bind] in H; [| discriminate].
      destruct (py_index rest3 2); cbn [bind] in H; [| discriminate].
      match type of H with (if ?c then _ else _) = _ => destruct c end; discriminate. }
  destruct (read_exact s1 1) as [bcnt_b s2] eqn:Hbc.
  destruct (Z.ltb_spec (len bcnt_b) 1) as [Hlt1 | Hge1]; [discriminate |].
  pose proof (read_exact_full_or_short _ 1 _ _ ltac:(lia) Hbc) as Hle1.
  destruct (len1_inv bcnt_b ltac:(lia)) as (bc & ->).
  change (py_index [bc] 0) with (Ret bc) in H. cbn [bind] in H.
  destruct (read_exact s2 (byte_val bc + 2)) as [rest s3] eqn:Hrest.
  destruct (Z.ltb_spec (len rest) (byte_val bc + 2)) as [Hlt2 | Hge2]; [discriminate |].
  pose proof (byte_val_range bc) as Hbcr.
  pose proof (read_exact_full_or_short s2 (byte_val bc + 2) rest s3 ltac:(lia) Hrest)
    as Hle2.
  destruct (trailing_crc rest) as [crc_rx | e] eqn:Hcrc;
    cbn [bind] in H; [| discriminate].
  destruct (Z.eqb_spec crc_rx
              (crc16_modbus (py_slice ([a; f] ++ [bc] ++ rest) 0 (-2))))
    as [Heq | Hne]; cbn [negb] in H; [| discriminate].
  destruct (Z.eqb_spec (byte_val bc) (qty * 2)) as [Hcnt | Hcnt];
    cbn [negb] in H; [| discriminate].
  destruct (decode_regs (py_slice rest 0 (-2))) as [result | e] eqn:Hdec;
    cbn [bind] in H; [| discriminate].
  injection H as <- <- <-.
  exists req, a, f, bc, rest, s1, s2. subst crc_rx.
  repeat apply conj; try reflexivity; try assumption. lia.
Qed.

Lemma last2_inv {A : Type} (l : list A) :
  2 <= len l -> exists body x y, l = body ++ [x; y].
Proof.
  intros H. unfold len in H.
  rewrite <- (take_drop (length l - 2) l).
  assert (Hd : len (drop (length l - 2) l) = 2)
    by (unfold len; rewrite length_drop; lia).
  destruct (len2_inv _ Hd) as (x & y & ->).
  exists (take (length l - 2) l), x, y. reflexivity.
Qed.

Lemma trailing_crc_app (pre rest : list byte) :
  2 <= len rest -> trailing_crc (pre ++ rest) = trailing_crc rest.
Proof.
  intros H. destruct (last2_inv rest H) as (body & x & y & ->).
  unfold trailing_crc.
  destruct (py_index_last2 body x y) as [-> ->].
  rewrite app_assoc.
  destruct (py_index_last2 (pre ++ body) x y) as [-> ->]. reflexivity.
Qed.

Lemma trailing_crc_defined (l : list byte) :
  2 <= len l -> exists v, trailing_crc l = Ret v.
Proof.
  intros H. destruct (last2_inv l H) as (body & x & y & ->).
  unfold trailing_crc. destruct (py_index_last2 body x y) as [-> ->].
  cbn [bind]. eexists. reflexivity.
Qed.

(** ** Responses the readers of input registers accept or choke on *)

(** C4, the code at a failing input.  A two-register read is answered with a
    well-formed frame that carries one register (byte count 2).
    [read_registers] and [read_block] return that single value as a
    success, and the loop of [main] then moves on by two addresses, so
    register 1 is passed over without a word; [read_holding_chunk] rejects
    the same answer with [BADCNT]. *)
Theorem short_answer_taken_as_success :
  outcome (DumpOngoing.read_registers 1000 (open_port tt (canned (with_crc [x01; x04;
      x02; x00; x07]))) 1 0 2 1000)
  = Ret (Some {[0 := 7]}) /\
  outcome (DumpInput.read_block 1000
             (open_port tt (canned (with_crc [x01; x04; x02; x00; x07]))) 1 0 2)
  = Ret (DumpInput.OK, None, Some [7]) /\
  (let* st := DumpInput.main 1000 4
                (open_port tt (canned (with_crc [x01; x04; x02; x00; x07])))
                1 0 2 2 false in
   Ret (option_map (fun st => (DumpInput.st_out st, DumpInput.st_remaining st)) st))
  = Ret (Some ([DumpInput.RegLine 0 7], 0)) /\
  (let* r := outcome (DumpHolding.read_holding_chunk
                        (open_port tt (canned (with_crc [x01; x03; x02; x00; x07])))
                        1 0 2) in
   Ret (fst r, option_map DumpHolding.etag (snd r)))
  = Ret (None, Some DumpHolding.BADCNT).
Proof.
  repeat apply conj; vm_compute; reflexivity.
Qed.

(** C9, the code at a failing input.  Responder 1 is asked, and the frame
    that arrives carries address 2.  [read_registers] and [read_block]
    never look at the address byte and return the value as a success;
    [read_holding_chunk] reports [DESYNC]. *)
Theorem foreign_address_taken_as_success :
  outcome (DumpOngoing.read_registers 1000 (open_port tt (canned (with_crc [x02; x04;
      x02; x00; x07]))) 1 0 1 1000)
  = Ret (Some {[0 := 7]}) /\
  outcome (DumpInput.read_block 1000
             (open_port tt (canned (with_crc [x02; x04; x02; x00; x07]))) 1 0 1)
  = Ret (DumpInput.OK, None, Some [7]) /\
  (let* r := outcome (DumpHolding.read_holding_chunk
                        (open_port tt (canned (with_crc [x02; x03; x02; x00; x07])))
                        1 0 1) in
   Ret (fst r, option_map DumpHolding.etag (snd r)))
  = Ret (None, Some DumpHolding.DESYNC).
Proof.
  repeat apply conj; vm_compute; reflexivity.
Qed.

(** C10, the code at a failing input.  A frame with byte count 1 and a
    valid checksum reaches the decoding loop, which reads [data[1]] of a
    one-byte [data]: [read_registers], [read_block], the loop of
    [modbus_dump_input.py] and [modbus_read_one.py] end in [IndexError].
    [read_holding_chunk] is kept from it by its byte-count test. *)
Theorem odd_byte_count_raises :
  checksum_ok (with_crc [x01; x04; x01; xaa]) /\
  outcome (DumpOngoing.read_registers 1000 (open_port tt (canned (with_crc [x01; x04;
      x01; xaa]))) 1 0 1 1000)
  = Raise IndexError /\
  outcome (DumpInput.read_block 1000
             (open_port tt (canned (with_crc [x01; x04; x01; xaa]))) 1 0 1)
  = Raise IndexError /\
  DumpInput.main 1000 4 (open_port tt (canned (with_crc [x01; x04; x01; xaa]))) 1 0 1
      1 false
  = Raise IndexError /\
  outcome (ReadOne.main
             (open_port tt (canned (with_crc [x01; x04; x01; xaa]))) 1 4 0 1 1)
  = Raise IndexError /\
  (let* r := outcome (DumpHolding.read_holding_chunk
                        (open_port tt (canned (with_crc [x01; x03; x01; xaa])))
                        1 0 1) in
   Ret (fst r, option_map DumpHolding.etag (snd r)))
  = Ret (None, Some DumpHolding.BADCNT).
Proof.
  repeat apply conj; vm_compute; reflexivity.
Qed.

(** ** Decoding the data region *)

Lemma py_index_nth (data : list byte) (i : nat) :
  (i < length data)%nat -> py_index data (Z.of_nat i) = Ret (nth i data x00).
Proof.
  intros Hi.
  destruct (py_index_nonneg data (Z.of_nat i)) as (x & Hx & ->).
  { unfold len. lia. }
  rewrite Nat2Z.id in Hx. f_equal. symmetry.
  apply nth_lookup_Some with (d := x00) in Hx. exact Hx.
Qed.

Lemma be16_at_even (data : list byte) (k : nat) :
  (2 * k + 1 < length data)%nat ->
  be16_at data (2 * Z.of_nat k) = Ret (be16 data k).
Proof.
  intros Hk. unfold be16_at, be16.
  replace (2 * Z.of_nat k) with (Z.of_nat (2 * k)) by lia.
  rewrite py_index_nth by lia. cbn [bind].
  replace (Z.of_nat (2 * k) + 1) with (Z.of_nat (2 * k + 1)) by lia.
  rewrite py_index_nth by lia. cbn [bind].
  rewrite lor_high_low by apply byte_val_range. reflexivity.
Qed.

Lemma range2_even (data : list byte) (count : Z) :
  len data = 2 * count ->
  range2 (len data) = map (fun k => 2 * Z.of_nat k) (seq 0 (Z.to_nat count)).
Proof.
  intros H. unfold range2. rewrite H.
  replace ((2 * count + 1) / 2) with count; [reflexivity |].
  apply Z.div_unique with (r := 1); lia.
Qed.

Lemma mapM_map_ret {A B C : Type} (f : B -> pyresult C) (g : A -> B) (h : A -> C)
  (l : list A) :
  (forall x, In x l -> f (g x) = Ret (h x)) ->
  mapM f (map g l) = Ret (map h l).
Proof.
  induction l as [| x l IH]; intros H; simpl.
  - reflexivity.
  - rewrite (H x) by (left; reflexivity). cbn [bind].
    rewrite IH by (intros y Hy; apply H; right; exact Hy). reflexivity.
Qed.

Lemma foldM_map_ret {A B C : Type} (f : C -> B -> pyresult C) (g : A -> B)
  (h : C -> A -> C) (l : list A) (acc : C) :
  (forall c x, In x l -> f c (g x) = Ret (h c x)) ->
  foldM f acc (map g l) = Ret (fold_left h l acc).
Proof.
  revert acc. induction l as [| x l IH]; intros acc H; simpl.
  - reflexivity.
  - rewrite (H acc x) by (left; reflexivity). cbn [bind].
    apply IH. intros c y Hy. apply H. right. exact Hy.
Qed.

(** For data of even length the list comprehension yields one big-endian
    value per pair of bytes. *)
Lemma decode_regs_even (data : list byte) (count : Z) :
  len data = 2 * count ->
  decode_regs data = Ret (map (be16 data) (seq 0 (Z.to_nat count))).
Proof.
  intros H. unfold decode_regs. rewrite (range2_even data count H).
  apply mapM_map_ret. intros k Hk. apply in_seq in Hk.
  apply be16_at_even. unfold len in H. lia.
Qed.

Lemma decode_dict_even (start : Z) (data : list byte) (count : Z) :
  len data = 2 * count ->
  DumpOngoing.decode_dict start data
  = Ret (fold_left (fun (m : gmap Z Z) k => <[start + Z.of_nat k := be16 data k]> m)
           (seq 0 (Z.to_nat count)) ∅).
Proof.
  intros H. unfold DumpOngoing.decode_dict. rewrite (range2_even data count H).
  apply (foldM_map_ret
           (fun (result : gmap Z Z) i =>
              let* value := be16_at data i in
              Ret (<[start + i / 2 := value]> result))
           (fun k => 2 * Z.of_nat k)
           (fun (m : gmap Z Z) k => <[start + Z.of_nat k := be16 data k]> m)).
  intros c k Hk. apply in_seq in Hk.
  rewrite be16_at_even by (unfold len in H; lia). cbn [bind].
  replace (2 * Z.of_nat k / 2) with (Z.of_nat k); [reflexivity |].
  rewrite Z.mul_comm, Z.div_mul by lia. reflexivity.
Qed.

Lemma lookup_fold_insert (start : Z) (v : nat -> Z) (n a : nat) (acc : gmap Z Z)
  (r : Z) :
  fold_left (fun (m : gmap Z Z) k => <[start + Z.of_nat k := v k]> m) (seq a n) acc !! r
  = if decide (start + Z.of_nat a <= r < start + Z.of_nat a + Z.of_nat n)
    then Some (v (Z.to_nat (r - start)))
    else acc !! r.
Proof.
  revert a acc. induction n as [| n IH]; intros a acc; simpl.
  - destruct (decide _) as [H | H]; [lia | reflexivity].
  - rewrite IH.
    destruct (decide (start + Z.of_nat (S a) <= r < start + Z.of_nat (S a) + Z.of_nat
        n))
      as [H1 | H1];
      destruct (decide (start + Z.of_nat a <= r < start + Z.of_nat a + Z.of_nat (S n)))
      as [H2 | H2]; try lia; try reflexivity.
    + assert (r = start + Z.of_nat a) as -> by lia.
      rewrite lookup_insert_eq. f_equal. f_equal. lia.
    + rewrite lookup_insert_ne by lia. reflexivity.
Qed.

(** ** A whole frame on the line *)

Lemma ser_write_fresh {D : Type} (ser : serial D) (req : list byte)
  (events : list (option byte)) (d' : D) :
  respond ser (dev ser) req = (events, d') ->
  ser_write (reset_input_buffer ser) req
  = mkSerial events (sent ser ++ [req]) d' (respond ser).
Proof.
  intros H. unfold ser_write, reset_input_buffer. cbn [respond dev inbuf sent].
  rewrite H. reflexivity.
Qed.

(** The two reads of [modbus_read_one.py] when the responder sends header
    and payload without a pause, and the same for [read_registers] and
    [read_block]. *)
Lemma collect_header_payload {D : Type} (ser : serial D) (req : list byte)
  (a f bc : byte) (payload : list byte) (tail : list (option byte)) (d' : D) (n : Z) :
  respond ser (dev ser) req = (map Some ([a; f; bc] ++ payload) ++ tail, d') ->
  len payload = n ->
  exists s1,
    read_exact (ser_write (reset_input_buffer ser) req) 3 = ([a; f; bc], s1) /\
    read_exact s1 n = (payload, mkSerial tail (sent ser ++ [req]) d' (respond ser)).
Proof.
  intros Hresp Hn.
  rewrite (ser_write_fresh ser req _ d' Hresp).
  exists (mkSerial (map Some payload ++ tail) (sent ser ++ [req]) d' (respond ser)).
  split.
  - rewrite (read_exact_available _ 3 [a; f; bc] (map Some payload ++ tail)).
    + reflexivity.
    + cbn [inbuf]. rewrite map_app, <- app_assoc. reflexivity.
    + reflexivity.
  - rewrite (read_exact_available _ n payload tail).
    + reflexivity.
    + reflexivity.
    + exact Hn.
Qed.

Lemma ongoing_collect_header_payload {D : Type} (ser_timeout : Z) (ser : serial D)
  (timeout : Z) (req : list byte) (a f bc : byte) (payload : list byte)
  (tail : list (option byte)) (d' : D) (n : Z) :
  0 <= timeout ->
  respond ser (dev ser) req = (map Some ([a; f; bc] ++ payload) ++ tail, d') ->
  len payload = n ->
  exists s1,
    DumpOngoing.read_exact ser_timeout (ser_write (reset_input_buffer ser) req) 3
      timeout = ([a; f; bc], s1) /\
    DumpOngoing.read_exact ser_timeout s1 n timeout
    = (payload, mkSerial tail (sent ser ++ [req]) d' (respond ser)).
Proof.
  intros Ht Hresp Hn.
  rewrite (ser_write_fresh ser req _ d' Hresp).
  exists (mkSerial (map Some payload ++ tail) (sent ser ++ [req]) d' (respond ser)).
  split.
  - rewrite (ongoing_read_exact_available _ _ 3 _ [a; f; bc]
               (map Some payload ++ tail) Ht).
    + reflexivity.
    + cbn [inbuf]. rewrite map_app, <- app_assoc. reflexivity.
    + reflexivity.
  - rewrite (ongoing_read_exact_available _ _ n _ payload tail Ht).
    + reflexivity.
    + reflexivity.
    + exact Hn.
Qed.

Lemma input_collect_header_payload {D : Type} (ser_timeout : Z) (ser : serial D)
  (req : list byte) (a f bc : byte) (payload : list byte)
  (tail : list (option byte)) (d' : D) (n : Z) :
  0 <= ser_timeout ->
  respond ser (dev ser) req = (map Some ([a; f; bc] ++ payload) ++ tail, d') ->
  len payload = n ->
  exists s1,
    DumpInput.read_exact ser_timeout (ser_write (reset_input_buffer ser) req) 3
    = ([a; f; bc], s1) /\
    DumpInput.read_exact ser_timeout s1 n
    = (payload, mkSerial tail (sent ser ++ [req]) d' (respond ser)).
Proof.
  intros Ht Hresp Hn.
  rewrite (ser_write_fresh ser req _ d' Hresp).
  exists (mkSerial (map Some payload ++ tail) (sent ser ++ [req]) d' (respond ser)).
  split.
  - rewrite (input_read_exact_available _ _ 3 [a; f; bc]
               (map Some payload ++ tail) Ht).
    + reflexivity.
    + cbn [inbuf]. rewrite map_app, <- app_assoc. reflexivity.
    + reflexivity.
  - rewrite (input_read_exact_available _ _ n payload tail Ht).
    + reflexivity.
    + reflexivity.
    + exact Hn.
Qed.

(** The three reads of [read_holding_chunk] in the same situation. *)
Lemma collect_holding {D : Type} (ser : serial D) (req : list byte)
  (a f bc : byte) (payload : list byte) (tail : list (option byte)) (d' : D) (n : Z) :
  respond ser (dev ser) req = (map Some ([a; f; bc] ++ payload) ++ tail, d') ->
  len payload = n ->
  exists s1 s2,
    read_exact (ser_write (reset_input_buffer ser) req) 2 = ([a; f], s1) /\
    read_exact s1 1 = ([bc], s2) /\
    read_exact s2 n = (payload, mkSerial tail (sent ser ++ [req]) d' (respond ser)).
Proof.
  intros Hresp Hn.
  rewrite (ser_write_fresh ser req _ d' Hresp).
  exists (mkSerial (map Some ([bc] ++ payload) ++ tail) (sent ser ++ [req]) d'
            (respond ser)).
  exists (mkSerial (map Some payload ++ tail) (sent ser ++ [req]) d' (respond ser)).
  repeat apply conj.
  - rewrite (read_exact_available _ 2 [a; f] (map Some ([bc] ++ payload) ++ tail)).
    + reflexivity.
    + reflexivity.
    + reflexivity.
  - rewrite (read_exact_available _ 1 [bc] (map Some payload ++ tail)).
    + reflexivity.
    + reflexivity.
    + reflexivity.
  - rewrite (read_exact_available _ n payload tail).
    + reflexivity.
    + reflexivity.
    + exact Hn.
Qed.

Lemma with_crc_payload (a f bc : byte) (data : list byte) :
  exists x y,
    with_crc ([a; f; bc] ++ data) = [a; f; bc] ++ data ++ [x; y] /\
    trailing_crc ([a; f; bc] ++ data ++ [x; y])
    = Ret (crc16_modbus (py_slice ([a; f; bc] ++ data ++ [x; y]) 0 (-2))).
Proof.
  destruct (trailing_crc_with_crc ([a; f; bc] ++ data)) as [Ht Hs].
  unfold with_crc in *.
  set (c := crc16_modbus ([a; f; bc] ++ data)) in *.
  exists (to_byte (Z.land c 255)), (to_byte (Z.shiftr c 8)).
  rewrite <- app_assoc in Ht, Hs. rewrite <- app_assoc.
  split; [reflexivity |]. rewrite Hs. exact Ht.
Qed.

(** ** Round trips: a well-formed answer is decoded in full *)

Lemma read_registers_well_formed {D : Type} (ser_timeout : Z) (ser : serial D)
  (slave start count timeout : Z) (req data : list byte) (a f : byte)
  (tail : list (option byte)) (d' : D) :
  0 <= timeout ->
  DumpOngoing.build_req slave start count = Ret req ->
  len data = 2 * count -> 2 * count <= 255 ->
  Z.land (byte_val f) 0x80 = 0 ->
  respond ser (dev ser) req
  = (map Some (with_crc ([a; f; to_byte (2 * count)] ++ data)) ++ tail, d') ->
  exists m : gmap Z Z,
    DumpOngoing.read_registers ser_timeout ser slave start count timeout
    = Ret (Some m, mkSerial tail (sent ser ++ [req]) d' (respond ser)) /\
    forall r,
      m !! r = if decide (start <= r < start + count)
               then Some (be16 data (Z.to_nat (r - start)))
               else None.
Proof.
  intros Ht Hreq Hlen Hfit Hf Hresp.
  pose proof (len_nonneg data) as Hd.
  destruct (with_crc_payload a f (to_byte (2 * count)) data)
    as (x & y & Hframe & Hcrc).
  rewrite Hframe in Hresp.
  assert (Hbc : byte_val (to_byte (2 * count)) = 2 * count)
    by (apply to_byte_val; lia).
  destruct (ongoing_collect_header_payload ser_timeout ser timeout req a f
              (to_byte (2 * count)) (data ++ [x; y]) tail d'
              (byte_val (to_byte (2 * count)) + 2) Ht Hresp)
    as (s1 & Hhead & Hrest).
  { rewrite len_app, Hbc. change (len [x; y]) with 2. lia. }
  rewrite (read_registers_normal _ _ _ _ _ _ _ _ _ _ _ _ _ Hreq Hhead Hf Hrest)
    by (rewrite len_app, Hbc; change (len [x; y]) with 2; lia).
  cbv zeta. rewrite Hcrc. cbn [bind]. rewrite Z.eqb_refl. cbn [negb]. cbv iota.
  rewrite py_slice_payload, (decode_dict_even start data count Hlen). cbn [bind].
  eexists. split; [reflexivity |].
  intros r. rewrite lookup_fold_insert, lookup_empty.
  destruct (decide (start + Z.of_nat 0 <= r < start + Z.of_nat 0 + Z.of_nat (Z.to_nat
      count)))
    as [H1 | H1];
    destruct (decide (start <= r < start + count)) as [H2 | H2];
    try reflexivity; lia.
Qed.

(** When the line answers with a normal frame whose byte count is
    [2 * count] and whose checksum is right, [read_registers] returns a
    dictionary whose keys are exactly [start .. start + count - 1], the
    value at [start + k] being the big-endian word of data bytes [2k] and
    [2k + 1].  Neither the address byte nor the function byte of the answer
    is looked at. *)
Theorem read_registers_round_trip {D : Type} (ser_timeout : Z) (ser : serial D)
  (slave start count timeout : Z) (req data : list byte) (a f : byte)
  (tail : list (option byte)) (d' : D) :
  0 <= timeout ->
  DumpOngoing.build_req slave start count = Ret req ->
  len data = 2 * count -> 2 * count <= 255 ->
  Z.land (byte_val f) 0x80 = 0 ->
  respond ser (dev ser) req
  = (map Some (with_crc ([a; f; to_byte (2 * count)] ++ data)) ++ tail, d') ->
  exists m : gmap Z Z,
    DumpOngoing.read_registers ser_timeout ser slave start count timeout
    = Ret (Some m, mkSerial tail (sent ser ++ [req]) d' (respond ser)) /\
    forall r,
      m !! r = if decide (start <= r < start + count)
               then Some (be16 data (Z.to_nat (r - start)))
               else None.
Proof. apply read_registers_well_formed. Qed.

Lemma read_registers_round_trip_witness :
  exists m : gmap Z Z,
    DumpOngoing.read_registers 1000
      (open_port tt (canned (with_crc ([x01; x04; to_byte (2 * 2)]
                                         ++ [x00; x07; x01; x02])))) 1 10 2 1000
    = Ret (Some m,
           mkSerial [] ([] ++ [with_crc [x01; x04; x00; x0a; x00; x02]]) tt
             (canned (with_crc ([x01; x04; to_byte (2 * 2)]
                                  ++ [x00; x07; x01; x02])))) /\
    forall r,
      m !! r = if decide (10 <= r < 10 + 2)
               then Some (be16 [x00; x07; x01; x02] (Z.to_nat (r - 10)))
               else None.
Proof.
  apply (read_registers_round_trip 1000
           (open_port tt (canned (with_crc ([x01; x04; to_byte (2 * 2)]
                                              ++ [x00; x07; x01; x02]))))
           1 10 2 1000 (with_crc [x01; x04; x00; x0a; x00; x02])
           [x00; x07; x01; x02] x01 x04 [] tt).
  - lia.
  - vm_compute. reflexivity.
  - reflexivity.
  - lia.
  - reflexivity.
  - cbn [respond dev open_port canned]. rewrite app_nil_r. reflexivity.
Defined.

Lemma read_block_well_formed {D : Type} (ser_timeout : Z) (ser : serial D)
  (slave start count : Z) (req data : list byte) (a f : byte)
  (tail : list (option byte)) (d' : D) :
  0 <= ser_timeout ->
  DumpInput.build_req slave start count = Ret req ->
  len data = 2 * count -> 2 * count <= 255 ->
  Z.land (byte_val f) 0x80 = 0 ->
  respond ser (dev ser) req
  = (map Some (with_crc ([a; f; to_byte (2 * count)] ++ data)) ++ tail, d') ->
  DumpInput.read_block ser_timeout ser slave start count
  = Ret ((DumpInput.OK, None, Some (map (be16 data) (seq 0 (Z.to_nat count)))),
         mkSerial tail (sent ser ++ [req]) d' (respond ser)).
Proof.
  intros Ht Hreq Hlen Hfit Hf Hresp.
  pose proof (len_nonneg data) as Hd.
  destruct (with_crc_payload a f (to_byte (2 * count)) data)
    as (x & y & Hframe & Hcrc).
  rewrite Hframe in Hresp.
  assert (Hbc : byte_val (to_byte (2 * count)) = 2 * count)
    by (apply to_byte_val; lia).
  destruct (input_collect_header_payload ser_timeout ser req a f
              (to_byte (2 * count)) (data ++ [x; y]) tail d'
              (byte_val (to_byte (2 * count)) + 2) Ht Hresp)
    as (s1 & Hhead & Hrest).
  { rewrite len_app, Hbc. change (len [x; y]) with 2. lia. }
  rewrite (read_block_normal _ _ _ _ _ _ _ _ _ _ _ _ Hreq Hhead Hf Hrest)
    by (rewrite len_app, Hbc; change (len [x; y]) with 2; lia).
  cbv zeta. rewrite Hcrc. cbn [bind]. rewrite Z.eqb_refl. cbn [negb]. cbv iota.
  rewrite py_slice_payload, (decode_regs_even data count Hlen). reflexivity.
Qed.

(** The same answer read by [read_block]: status [OK] and the [count]
    values in order. *)
Theorem read_block_round_trip {D : Type} (ser_timeout : Z) (ser : serial D)
  (slave start count : Z) (req data : list byte) (a f : byte)
  (tail : list (option byte)) (d' : D) :
  0 <= ser_timeout ->
  DumpInput.build_req slave start count = Ret req ->
  len data = 2 * count -> 2 * count <= 255 ->
  Z.land (byte_val f) 0x80 = 0 ->
  respond ser (dev ser) req
  = (map Some (with_crc ([a; f; to_byte (2 * count)] ++ data)) ++ tail, d') ->
  DumpInput.read_block ser_timeout ser slave start count
  = Ret ((DumpInput.OK, None, Some (map (be16 data) (seq 0 (Z.to_nat count)))),
         mkSerial tail (sent ser ++ [req]) d' (respond ser)).
Proof. apply read_block_well_formed. Qed.

Lemma read_block_round_trip_witness :
  DumpInput.read_block 1000
    (open_port tt (canned (with_crc ([x01; x04; to_byte (2 * 2)]
                                       ++ [x00; x07; x01; x02])))) 1 10 2
  = Ret ((DumpInput.OK, None,
          Some (map (be16 [x00; x07; x01; x02]) (seq 0 (Z.to_nat 2)))),
         mkSerial [] ([] ++ [with_crc [x01; x04; x00; x0a; x00; x02]]) tt
           (canned (with_crc ([x01; x04; to_byte (2 * 2)]
                                ++ [x00; x07; x01; x02])))).
Proof.
  apply (read_block_round_trip 1000
           (open_port tt (canned (with_crc ([x01; x04; to_byte (2 * 2)]
                                              ++ [x00; x07; x01; x02]))))
           1 10 2 (with_crc [x01; x04; x00; x0a; x00; x02]) [x00; x07; x01; x02]
           x01 x04 [] tt).
  - lia.
  - vm_compute. reflexivity.
  - reflexivity.
  - lia.
  - reflexivity.
  - cbn [respond dev open_port canned]. rewrite app_nil_r. reflexivity.
Defined.

Lemma read_holding_chunk_well_formed {D : Type} (ser : serial D)
  (slave start qty : Z) (req data : list byte) (a f : byte)
  (tail : list (option byte)) (d' : D) :
  DumpHolding.build_read_holding_req slave start qty = Ret req ->
  len data = 2 * qty -> 2 * qty <= 255 ->
  byte_val a = Z.land slave 0xFF ->
  Z.land (byte_val f) 0x80 = 0 ->
  respond ser (dev ser) req
  = (map Some (with_crc ([a; f; to_byte (2 * qty)] ++ data)) ++ tail, d') ->
  DumpHolding.read_holding_chunk ser slave start qty
  = Ret ((Some (map (be16 data) (seq 0 (Z.to_nat qty))), None),
         mkSerial tail (sent ser ++ [req]) d' (respond ser)).
Proof.
  intros Hreq Hlen Hfit Ha Hf Hresp.
  pose proof (len_nonneg data) as Hd.
  destruct (with_crc_payload a f (to_byte (2 * qty)) data)
    as (x & y & Hframe & Hcrc).
  rewrite Hframe in Hresp.
  assert (Hbc : byte_val (to_byte (2 * qty)) = 2 * qty)
    by (apply to_byte_val; lia).
  destruct (collect_holding ser req a f (to_byte (2 * qty))
              (data ++ [x; y]) tail d' (byte_val (to_byte (2 * qty)) + 2) Hresp)
    as (s1 & s2 & Hhead & Hcnt & Hrest).
  { rewrite len_app, Hbc. change (len [x; y]) with 2. lia. }
  rewrite (read_holding_chunk_normal _ _ _ _ _ _ _ _ _ _ _ _
             Hreq Hhead Ha Hf Hcnt Hrest)
    by (rewrite len_app, Hbc; change (len [x; y]) with 2; lia).
  cbv zeta.
  change ([a; f] ++ [to_byte (2 * qty)] ++ data ++ [x; y])
    with ([a; f; to_byte (2 * qty)] ++ data ++ [x; y]).
  rewrite <- (trailing_crc_app [a; f; to_byte (2 * qty)] (data ++ [x; y]))
    by (rewrite len_app; change (len [x; y]) with 2; lia).
  rewrite Hcrc. cbn [bind]. rewrite Z.eqb_refl. cbn [negb]. cbv iota.
  rewrite Hbc, (Z.mul_comm qty 2), Z.eqb_refl. cbn [negb]. cbv iota.
  rewrite py_slice_drop_last2, (decode_regs_even data qty Hlen). reflexivity.
Qed.

(** [read_holding_chunk] on a well-formed answer from the addressed
    responder: the [qty] values in order and no error. *)
Theorem read_holding_chunk_round_trip {D : Type} (ser : serial D)
  (slave start qty : Z) (req data : list byte) (a f : byte)
  (tail : list (option byte)) (d' : D) :
  DumpHolding.build_read_holding_req slave start qty = Ret req ->
  len data = 2 * qty -> 2 * qty <= 255 ->
  byte_val a = Z.land slave 0xFF ->
  Z.land (byte_val f) 0x80 = 0 ->
  respond ser (dev ser) req
  = (map Some (with_crc ([a; f; to_byte (2 * qty)] ++ data)) ++ tail, d') ->
  DumpHolding.read_holding_chunk ser slave start qty
  = Ret ((Some (map (be16 data) (seq 0 (Z.to_nat qty))), None),
         mkSerial tail (sent ser ++ [req]) d' (respond ser)).
Proof. apply read_holding_chunk_well_formed. Qed.

Lemma read_holding_chunk_round_trip_witness :
  DumpHolding.read_holding_chunk
    (open_port tt (canned (with_crc ([x01; x03; to_byte (2 * 2)]
                                       ++ [x00; x07; x01; x02])))) 1 10 2
  = Ret ((Some (map (be16 [x00; x07; x01; x02]) (seq 0 (Z.to_nat 2))), None),
         mkSerial [] ([] ++ [with_crc [x01; x03; x00; x0a; x00; x02]]) tt
           (canned (with_crc ([x01; x03; to_byte (2 * 2)]
                                ++ [x00; x07; x01; x02])))).
Proof.
  apply (read_holding_chunk_round_trip
           (open_port tt (canned (with_crc ([x01; x03; to_byte (2 * 2)]
                                              ++ [x00; x07; x01; x02]))))
           1 10 2 (with_crc [x01; x03; x00; x0a; x00; x02]) [x00; x07; x01; x02]
           x01 x03 [] tt).
  - vm_compute. reflexivity.
  - reflexivity.
  - lia.
  - reflexivity.
  - reflexivity.
  - cbn [respond dev open_port canned]. rewrite app_nil_r. reflexivity.
Defined.

(** ** The checksum of a frame that carries its own checksum *)

Lemma crc_shift_double (y : Z) : crc_shift (2 * y) = y.
Proof.
  unfold crc_shift.
  change 1 with (Z.ones 1) at 1. rewrite Z.land_ones by lia.
  change (2 ^ 1) with 2.
  rewrite Z.mul_comm, Z.mod_mul by lia. cbn [Z.eqb].
  rewrite Z.shiftr_div_pow2 by lia. change (2 ^ 1) with 2.
  apply Z.div_mul. lia.
Qed.

Lemma crc_shift8_high (h : Z) : Nat.iter 8 crc_shift (256 * h) = h.
Proof.
  change (Nat.iter 8 crc_shift (256 * h))
    with (crc_shift (crc_shift (crc_shift (crc_shift (crc_shift (crc_shift
           (crc_shift (crc_shift (256 * h))))))))).
  replace (256 * h) with (2 * (2 * (2 * (2 * (2 * (2 * (2 * (2 * h)))))))) by lia.
  rewrite !crc_shift_double. reflexivity.
Qed.

(** Feeding the low byte of the register leaves its high byte. *)
Lemma crc_byte_own_low (c : Z) (b : byte) :
  byte_val b = c mod 256 -> crc_byte c b = c / 256.
Proof.
  intros Hb. unfold crc_byte.
  rewrite (xor_low_byte_standard c (byte_val b)) by apply byte_val_range.
  unfold Standard.xor_low_byte. rewrite Hb, Z.lxor_nilpotent, Z.add_0_r.
  apply crc_shift8_high.
Qed.

(** Feeding the register itself, once it fits a byte, leaves zero. *)
Lemma crc_byte_own (h : Z) (b : byte) : byte_val b = h -> crc_byte h b = 0.
Proof.
  intros Hb. unfold crc_byte. rewrite Hb, Z.lxor_nilpotent. reflexivity.
Qed.

Lemma to_byte_mod (z : Z) : to_byte (z mod 256) = to_byte z.
Proof. unfold to_byte. rewrite Z.mod_mod by lia. reflexivity. Qed.

Lemma to_byte_mask (z : Z) : to_byte (Z.land z 0xFF) = to_byte z.
Proof. rewrite low_byte_mask. apply to_byte_mod. Qed.

Lemma to_byte_val_mod (z : Z) : byte_val (to_byte z) = z mod 256.
Proof.
  rewrite <- to_byte_mod. apply to_byte_val. apply byte_mod_range.
Qed.

Lemma crc16_modbus_app (l1 l2 : list byte) :
  crc16_modbus (l1 ++ l2) = fold_left crc_byte l2 (crc16_modbus l1).
Proof.
  rewrite !crc16_modbus_unmasked. apply fold_left_app.
Qed.

Lemma with_crc_residue (body : list byte) : crc16_modbus (with_crc body) = 0.
Proof.
  unfold with_crc. rewrite crc16_modbus_app.
  pose proof (crc16_modbus_range body) as Hc.
  set (c := crc16_modbus body) in *. cbn [fold_left].
  rewrite (crc_byte_own_low c).
  - apply crc_byte_own. rewrite to_byte_val_mod, shiftr8_div.
    apply Z.mod_small. pose proof (word_high_range c ltac:(lia)). lia.
  - rewrite to_byte_mask. apply to_byte_val_mod.
Qed.

Lemma with_crc_len (body : list byte) : len (with_crc body) = len body + 2.
Proof. unfold with_crc. rewrite len_app. reflexivity. Qed.

(** ** What the request builders return *)

Lemma byte_of_int_out_of_range (z : Z) :
  ~ 0 <= z <= 255 -> byte_of_int z = Raise ValueError.
Proof.
  intros Hz. unfold byte_of_int.
  destruct (Z.ltb_spec z 0) as [? | ?]; [reflexivity |].
  destruct (Z.ltb_spec 255 z) as [? | ?]; [reflexivity | lia].
Qed.

(** The frame of the builders, written with [with_crc]. *)
Lemma request_with_crc (a f start qty : Z) :
  0 <= a <= 255 -> 0 <= f <= 255 ->
  (let* p := bytes_of_ints
               [a; f; Z.land (Z.shiftr start 8) 0xFF; Z.land start 0xFF;
                Z.land (Z.shiftr qty 8) 0xFF; Z.land qty 0xFF] in
   let c := crc16_modbus p in
   let* t := bytes_of_ints [Z.land c 0xFF; Z.land (Z.shiftr c 8) 0xFF] in
   Ret (p ++ t))
  = Ret (with_crc [to_byte a; to_byte f; to_byte (start / 256); to_byte start;
                   to_byte (qty / 256); to_byte qty]).
Proof.
  intros Ha Hf.
  destruct (request_bytes a f start qty Ha Hf) as [Hp Ht].
  rewrite Hp. cbn [bind]. rewrite Ht. cbn [bind].
  unfold with_crc. rewrite !to_byte_mask, !shiftr8_div. reflexivity.
Qed.

Lemma build_req_in_range (slave start qty : Z) :
  0 <= slave <= 255 ->
  DumpOngoing.build_req slave start qty
  = Ret (with_crc [to_byte slave; x04; to_byte (start / 256); to_byte start;
                   to_byte (qty / 256); to_byte qty]).
Proof.
  intros Hs. unfold DumpOngoing.build_req.
  apply (request_with_crc slave 4 start qty Hs). lia.
Qed.

Lemma build_req_out_of_range (slave start qty : Z) :
  ~ 0 <= slave <= 255 ->
  DumpOngoing.build_req slave start qty = Raise ValueError.
Proof.
  intros Hs. unfold DumpOngoing.build_req. cbn [bytes_of_ints].
  rewrite byte_of_int_out_of_range by exact Hs. reflexivity.
Qed.

Lemma build_read_holding_req_frame (slave start qty : Z) :
  DumpHolding.build_read_holding_req slave start qty
  = Ret (with_crc [to_byte slave; x03; to_byte (start / 256); to_byte start;
                   to_byte (qty / 256); to_byte qty]).
Proof.
  assert (Hm : 0 <= Z.land slave 255 <= 255)
    by (rewrite low_byte_mask; apply byte_mod_range).
  unfold DumpHolding.build_read_holding_req.
  rewrite <- (to_byte_mask slave).
  apply (request_with_crc (Z.land slave 255) 3 start qty Hm). lia.
Qed.

Lemma read_one_build_req_frame (slave func start qty : Z) :
  ReadOne.build_req slave func start qty
  = Ret (with_crc [to_byte slave; to_byte func; to_byte (start / 256);
                   to_byte start; to_byte (qty / 256); to_byte qty]).
Proof.
  assert (Hm : forall x, 0 <= Z.land x 255 <= 255)
    by (intros x; rewrite low_byte_mask; apply byte_mod_range).
  unfold ReadOne.build_req.
  rewrite <- (to_byte_mask slave), <- (to_byte_mask func).
  apply (request_with_crc (Z.land slave 255) (Z.land func 255) start qty
           (Hm slave) (Hm func)).
Qed.

(** The builder of [dump_ongoing.py] and [modbus_dump_input.py] passes
    [slave] to [bytes] as it is: it raises [ValueError] exactly when [slave]
    is not a byte.  Otherwise, and for every integer [start] and [qty], the
    frame is the six header bytes (start and quantity cut to 16 bits) with
    their checksum. *)
Theorem build_req_value_error (slave start qty : Z) :
  (0 <= slave <= 255 ->
   DumpOngoing.build_req slave start qty
   = Ret (with_crc [to_byte slave; x04; to_byte (start / 256); to_byte start;
                    to_byte (qty / 256); to_byte qty])) /\
  (~ 0 <= slave <= 255 ->
   DumpOngoing.build_req slave start qty = Raise ValueError) /\
  DumpInput.build_req slave start qty = DumpOngoing.build_req slave start qty.
Proof.
  repeat apply conj.
  - apply build_req_in_range.
  - apply build_req_out_of_range.
  - reflexivity.
Qed.

Lemma build_req_value_error_witness :
  DumpOngoing.build_req 1 (-1) 70000
  = Ret (with_crc [to_byte 1; x04; to_byte (-1 / 256); to_byte (-1);
                   to_byte (70000 / 256); to_byte 70000]) /\
  DumpOngoing.build_req 256 0 1 = Raise ValueError.
Proof.
  split.
  - apply (proj1 (build_req_value_error 1 (-1) 70000)). lia.
  - apply (proj1 (proj2 (build_req_value_error 256 0 1))). lia.
Defined.

(** The builders of [modbus_dump_holding.py] and [modbus_read_one.py] mask
    every field, so they return a frame for all integers. *)
Theorem masking_builders_total (slave func start qty : Z) :
  DumpHolding.build_read_holding_req slave start qty
  = Ret (with_crc [to_byte slave; x03; to_byte (start / 256); to_byte start;
                   to_byte (qty / 256); to_byte qty]) /\
  ReadOne.build_req slave func start qty
  = Ret (with_crc [to_byte slave; to_byte func; to_byte (start / 256);
                   to_byte start; to_byte (qty / 256); to_byte qty]).
Proof.
  split.
  - apply build_read_holding_req_frame.
  - apply read_one_build_req_frame.
Qed.

Lemma built_frame_with_crc (slave func start qty : Z) (req : list byte) :
  DumpOngoing.build_req slave start qty = Ret req \/
  DumpInput.build_req slave start qty = Ret req \/
  DumpHolding.build_read_holding_req slave start qty = Ret req \/
  ReadOne.build_req slave func start qty = Ret req ->
  exists p, len p = 6 /\ req = with_crc p.
Proof.
  intros H.
  change (DumpInput.build_req slave start qty)
    with (DumpOngoing.build_req slave start qty) in H.
  assert (Hin : DumpOngoing.build_req slave start qty = Ret req ->
                exists p, len p = 6 /\ req = with_crc p).
  { intros Hb.
    destruct (Z_le_dec 0 slave) as [H0 |];
      [| rewrite build_req_out_of_range in Hb by lia; discriminate].
    destruct (Z_le_dec slave 255) as [H1 |];
      [| rewrite build_req_out_of_range in Hb by lia; discriminate].
    rewrite build_req_in_range in Hb by lia. injection Hb as <-.
    eexists. split; [| reflexivity]. reflexivity. }
  destruct H as [H | [H | [H | H]]]; try (apply Hin; exact H).
  - rewrite build_read_holding_req_frame in H. injection H as <-.
    eexists. split; [| reflexivity]. reflexivity.
  - rewrite read_one_build_req_frame in H. injection H as <-.
    eexists. split; [| reflexivity]. reflexivity.
Qed.

(** Every frame a builder returns has eight bytes, ends in the checksum of
    its first six (it passes the test the readers apply to answers), and
    its checksum taken over all eight bytes is 0. *)
Theorem request_frames_check_themselves (slave func start qty : Z) (req : list byte) :
  DumpOngoing.build_req slave start qty = Ret req \/
  DumpInput.build_req slave start qty = Ret req \/
  DumpHolding.build_read_holding_req slave start qty = Ret req \/
  ReadOne.build_req slave func start qty = Ret req ->
  len req = 8 /\ checksum_ok req /\ crc16_modbus req = 0.
Proof.
  intros H.
  destruct (built_frame_with_crc slave func start qty req H) as (p & Hp & ->).
  repeat apply conj.
  - rewrite with_crc_len. lia.
  - unfold checksum_ok.
    destruct (trailing_crc_with_crc p) as [-> ->]. reflexivity.
  - apply with_crc_residue.
Qed.

Lemma request_frames_check_themselves_witness :
  len (with_crc [x01; x04; x00; x65; x00; x08]) = 8 /\
  checksum_ok (with_crc [x01; x04; x00; x65; x00; x08]) /\
  crc16_modbus (with_crc [x01; x04; x00; x65; x00; x08]) = 0.
Proof.
  apply (request_frames_check_themselves 1 4 101 8).
  left. vm_compute. reflexivity.
Defined.

(** ** What a transaction does to the port *)

Lemma ser_read_port {D : Type} (ser : serial D) (k : Z) (bs : list byte)
  (ser' : serial D) :
  ser_read ser k = (bs, ser') ->
  sent ser' = sent ser /\ dev ser' = dev ser /\ respond ser' = respond ser.
Proof.
  unfold ser_read. destruct (take_bytes (Z.to_nat k) (inbuf ser)) as [bs0 rest].
  intros H. injection H as <- <-. repeat split.
Qed.

Lemma read_exact_loop_port {D : Type} (fuel : nat) (n : Z) (buf : list byte)
  (ser : serial D) (bs : list byte) (ser' : serial D) :
  read_exact_loop fuel n buf ser = (bs, ser') ->
  sent ser' = sent ser /\ dev ser' = dev ser /\ respond ser' = respond ser.
Proof.
  revert buf ser. induction fuel as [| fuel IH]; intros buf ser H; simpl in H.
  - injection H as <- <-. repeat split.
  - destruct (len buf <? n); [| injection H as <- <-; repeat split].
    destruct (ser_read ser (n - len buf)) as [chunk s1] eqn:Hread.
    destruct (ser_read_port _ _ _ _ Hread) as (Hs & Hd & Hr).
    destruct chunk as [| c chunk].
    + injection H as <- <-. repeat split; assumption.
    + destruct (IH _ _ H) as (Hs' & Hd' & Hr').
      repeat split; congruence.
Qed.

Lemma read_exact_port {D : Type} (ser : serial D) (n : Z) (bs : list byte)
  (ser' : serial D) :
  read_exact ser n = (bs, ser') ->
  sent ser' = sent ser /\ dev ser' = dev ser /\ respond ser' = respond ser.
Proof. apply read_exact_loop_port. Qed.

Lemma read_exact_guarded_loop_port {D : Type} (fuel : nat)
  (ser_timeout limit n elapsed : Z) (buf : list byte) (ser : serial D)
  (bs : list byte) (ser' : serial D) :
  read_exact_guarded_loop fuel ser_timeout limit n elapsed buf ser = (bs, ser') ->
  sent ser' = sent ser /\ dev ser' = dev ser /\ respond ser' = respond ser.
Proof.
  revert elapsed buf ser. induction fuel as [| fuel IH]; intros elapsed buf ser H;
    simpl in H.
  - injection H as <- <-. repeat split.
  - destruct ((len buf <? n) && (elapsed <? limit));
      [| injection H as <- <-; repeat split].
    destruct (ser_read ser (n - len buf)) as [chunk s1] eqn:Hread.
    destruct (ser_read_port _ _ _ _ Hread) as (Hs & Hd & Hr).
    destruct chunk as [| c chunk].
    + injection H as <- <-. repeat split; assumption.
    + destruct (IH _ _ _ H) as (Hs' & Hd' & Hr').
      repeat split; congruence.
Qed.

Lemma read_exact_guarded_port {D : Type} (ser_timeout limit : Z) (ser : serial D)
  (n : Z) (bs : list byte) (ser' : serial D) :
  read_exact_guarded ser_timeout limit ser n = (bs, ser') ->
  sent ser' = sent ser /\ dev ser' = dev ser /\ respond ser' = respond ser.
Proof. apply read_exact_guarded_loop_port. Qed.

Lemma ongoing_read_exact_port {D : Type} (ser_timeout : Z) (ser : serial D)
  (n timeout : Z) (bs : list byte) (ser' : serial D) :
  DumpOngoing.read_exact ser_timeout ser n timeout = (bs, ser') ->
  sent ser' = sent ser /\ dev ser' = dev ser /\ respond ser' = respond ser.
Proof. apply read_exact_guarded_port. Qed.

Lemma input_read_exact_port {D : Type} (ser_timeout : Z) (ser : serial D)
  (n : Z) (bs : list byte) (ser' : serial D) :
  DumpInput.read_exact ser_timeout ser n = (bs, ser') ->
  sent ser' = sent ser /\ dev ser' = dev ser /\ respond ser' = respond ser.
Proof. apply read_exact_guarded_port. Qed.

Lemma ser_write_port {D : Type} (ser : serial D) (req : list byte) :
  sent (ser_write ser req) = sent ser ++ [req] /\
  respond (ser_write ser req) = respond ser.
Proof.
  unfold ser_write. destruct (respond ser (dev ser) req) as [events d'].
  split; reflexivity.
Qed.

Lemma Ret_pair_inv {A B : Type} (a a' : A) (b b' : B) :
  Ret (a, b) = Ret (a', b') -> a = a' /\ b = b'.
Proof. intros H. injection H as -> ->. split; reflexivity. Qed.

(** Take a hypothesis that some monadic code returned, and split it along
    every test and call the code makes. *)
Ltac crack H :=
  repeat match type of H with
    | Raise _ = Ret _ => discriminate H
    | context [bind ?m _] => destruct m eqn:?; cbn [bind] in H; cbv beta iota in H
    | context [match ?x with _ => _ end] => destruct x eqn:?; cbv beta iota in H
    end.

(** Collect what each read left of the port. *)
Ltac port_facts :=
  repeat match goal with
    | E : read_exact _ _ = (_, _) |- _ => apply read_exact_port in E; destruct E as
        (? & ? & ?)
    | E : DumpOngoing.read_exact _ _ _ _ = (_, _) |- _ =>
        apply ongoing_read_exact_port in E; destruct E as (? & ? & ?)
    | E : DumpInput.read_exact _ _ _ = (_, _) |- _ =>
        apply input_read_exact_port in E; destruct E as (? & ? & ?)
    | E : ser_read _ _ = (_, _) |- _ => apply ser_read_port in E; destruct E as (? &
        ? & ?)
    end.

Lemma write_then_reads {D : Type} (ser s : serial D) (req : list byte) :
  sent s = sent (ser_write (reset_input_buffer ser) req) ->
  respond s = respond (ser_write (reset_input_buffer ser) req) ->
  sent s = sent ser ++ [req] /\ respond s = respond ser.
Proof.
  destruct (ser_write_port (reset_input_buffer ser) req) as [-> ->].
  intros -> ->. split; reflexivity.
Qed.

Lemma read_registers_port {D : Type} (ser_timeout : Z) (ser : serial D) (slave start
    qty timeout : Z)
  (res : option (gmap Z Z)) (ser' : serial D) :
  DumpOngoing.read_registers ser_timeout ser slave start qty timeout = Ret (res,
      ser') ->
  exists req,
    DumpOngoing.build_req slave start qty = Ret req /\
    sent ser' = sent ser ++ [req] /\ respond ser' = respond ser.
Proof.
  unfold DumpOngoing.read_registers. intros H.
  destruct (DumpOngoing.build_req slave start qty) as [req | e] eqn:Hreq;
    cbn [bind] in H; [| discriminate].
  exists req. split; [reflexivity |].
  crack H.
  all: apply Ret_pair_inv in H; destruct H as [_ <-].
  all: port_facts.
  all: apply write_then_reads; congruence.
Qed.

Lemma read_block_port {D : Type} (ser_timeout : Z) (ser : serial D) (slave start qty
    : Z)
  (res : DumpInput.status * option DumpInput.msg * option (list Z))
  (ser' : serial D) :
  DumpInput.read_block ser_timeout ser slave start qty = Ret (res, ser') ->
  exists req,
    DumpInput.build_req slave start qty = Ret req /\
    sent ser' = sent ser ++ [req] /\ respond ser' = respond ser.
Proof.
  unfold DumpInput.read_block. intros H.
  destruct (DumpInput.build_req slave start qty) as [req | e] eqn:Hreq;
    cbn [bind] in H; [| discriminate].
  exists req. split; [reflexivity |].
  crack H.
  all: apply Ret_pair_inv in H; destruct H as [_ <-].
  all: port_facts.
  all: apply write_then_reads; congruence.
Qed.

Lemma read_holding_chunk_port {D : Type} (ser : serial D) (slave start qty : Z)
  (res : option (list Z) * option DumpHolding.error) (ser' : serial D) :
  DumpHolding.read_holding_chunk ser slave start qty = Ret (res, ser') ->
  exists req,
    DumpHolding.build_read_holding_req slave start qty = Ret req /\
    sent ser' = sent ser ++ [req] /\ respond ser' = respond ser.
Proof.
  unfold DumpHolding.read_holding_chunk, DumpHolding.fail. intros H.
  destruct (DumpHolding.build_read_holding_req slave start qty) as [req | e] eqn:Hreq;
    cbn [bind] in H; [| discriminate].
  exists req. split; [reflexivity |].
  crack H.
  all: apply Ret_pair_inv in H; destruct H as [_ <-].
  all: port_facts.
  all: apply write_then_reads; congruence.
Qed.

(** Each of the three transaction functions, whenever it returns, has
    written exactly one frame, the request it built, and no other; and what
    it returns does not depend on bytes that were waiting in the input
    buffer when it was called. *)
Theorem one_request_per_transaction {D : Type} (ser_timeout : Z) (ser : serial D)
  (slave start qty timeout : Z) :
  (forall res ser',
      DumpOngoing.read_registers ser_timeout ser slave start qty timeout = Ret (res,
          ser') ->
      exists req, DumpOngoing.build_req slave start qty = Ret req /\
                  sent ser' = sent ser ++ [req]) /\
  (forall res ser',
      DumpInput.read_block ser_timeout ser slave start qty = Ret (res, ser') ->
      exists req, DumpInput.build_req slave start qty = Ret req /\
                  sent ser' = sent ser ++ [req]) /\
  (forall res ser',
      DumpHolding.read_holding_chunk ser slave start qty = Ret (res, ser') ->
      exists req, DumpHolding.build_read_holding_req slave start qty = Ret req /\
                  sent ser' = sent ser ++ [req]) /\
  (forall stale,
      DumpOngoing.read_registers ser_timeout (mkSerial stale (sent ser) (dev ser)
          (respond ser)) slave start qty timeout
      = DumpOngoing.read_registers ser_timeout ser slave start qty timeout /\
      DumpInput.read_block ser_timeout
        (mkSerial stale (sent ser) (dev ser) (respond ser)) slave start qty
      = DumpInput.read_block ser_timeout ser slave start qty /\
      DumpHolding.read_holding_chunk
        (mkSerial stale (sent ser) (dev ser) (respond ser)) slave start qty
      = DumpHolding.read_holding_chunk ser slave start qty).
Proof.
  repeat apply conj.
  - intros res ser' H. destruct (read_registers_port _ _ _ _ _ _ _ _ H) as (req & ? &
      ? & _).
    exists req. split; assumption.
  - intros res ser' H. destruct (read_block_port _ _ _ _ _ _ _ H) as (req & ? & ? & _).
    exists req. split; assumption.
  - intros res ser' H. destruct (read_holding_chunk_port _ _ _ _ _ _ H) as (req & ? &
      ? & _).
    exists req. split; assumption.
  - intros stale. repeat apply conj; reflexivity.
Qed.

Lemma one_request_per_transaction_witness :
  exists req,
    DumpInput.build_req 1 0 1 = Ret req /\
    sent (mkSerial [] [with_crc [x01; x04; x00; x00; x00; x01]] tt silent)
    = sent (open_port tt silent) ++ [req].
Proof.
  apply (proj1 (proj2 (one_request_per_transaction 1000 (open_port tt silent) 1 0 1
                         1000))
           (DumpInput.TIMEOUT_OR_SHORT, Some (DumpInput.NeedGot 3 0), None)).
  vm_compute. reflexivity.
Defined.

(** ** Answers that are not a normal frame *)

Lemma checksum_ok_3_2 (a f code lo hi : byte) :
  checksum_ok [a; f; code; lo; hi] <->
  Z.lor (byte_val lo) (Z.shiftl (byte_val hi) 8) = crc16_modbus [a; f; code].
Proof.
  unfold checksum_ok.
  change [a; f; code; lo; hi] with ([a; f; code] ++ [lo; hi]).
  rewrite py_slice_drop_last2. unfold trailing_crc.
  destruct (py_index_last2 [a; f; code] lo hi) as [-> ->]. cbn [bind].
  split; intros H.
  - injection H as H. exact H.
  - rewrite H. reflexivity.
Qed.

(** [read_holding_chunk], address mismatch: when the first byte of the
    answer is not [slave & 0xFF] the result is the error [DESYNC] carrying
    the two header bytes and, as context, what one further read of up to 64
    bytes returned.  No values are returned. *)
Theorem read_holding_chunk_desync {D : Type} (ser : serial D)
  (slave start qty : Z) (req : list byte) (a f : byte) (s1 : serial D) :
  DumpHolding.build_read_holding_req slave start qty = Ret req ->
  read_exact (ser_write (reset_input_buffer ser) req) 2 = ([a; f], s1) ->
  byte_val a <> Z.land slave 0xFF ->
  DumpHolding.read_holding_chunk ser slave start qty
  = Ret ((None,
          Some (DumpHolding.mkError DumpHolding.DESYNC [byte_val a; byte_val f]
                  ([a; f] ++ fst (ser_read s1 64)))),
         snd (ser_read s1 64)) /\
  len (fst (ser_read s1 64)) <= 64.
Proof.
  intros Hreq Hhead Ha. split.
  - unfold DumpHolding.read_holding_chunk, DumpHolding.fail.
    rewrite Hreq. cbn [bind]. rewrite Hhead.
    change (len [a; f] <? 2) with false. cbv iota.
    change (py_index [a; f] 0) with (Ret a).
    change (py_index [a; f] 1) with (Ret f). cbn [bind].
    destruct (Z.eqb_spec (byte_val a) (Z.land slave 255)) as [? | _]; [contradiction |].
    cbn [negb]. cbv iota.
    destruct (ser_read s1 64) as [more s2]. reflexivity.
  - unfold ser_read.
    pose proof (take_bytes_length (Z.to_nat 64) (inbuf s1)) as Hk.
    destruct (take_bytes (Z.to_nat 64) (inbuf s1)) as [bs rest].
    cbn [fst] in *. unfold len. lia.
Qed.

Lemma read_holding_chunk_desync_witness :
  DumpHolding.read_holding_chunk
    (open_port tt (canned (with_crc [x02; x03; x02; x00; x07]))) 1 0 1
  = Ret ((None,
          Some (DumpHolding.mkError DumpHolding.DESYNC [byte_val x02; byte_val x03]
                  ([x02; x03]
                     ++ fst (ser_read
                               (mkSerial (map Some [x02; x00; x07; xbd; x86])
                                  [with_crc [x01; x03; x00; x00; x00; x01]] tt
                                  (canned (with_crc [x02; x03; x02; x00; x07]))) 64)))),
         snd (ser_read
                (mkSerial (map Some [x02; x00; x07; xbd; x86])
                   [with_crc [x01; x03; x00; x00; x00; x01]] tt
                   (canned (with_crc [x02; x03; x02; x00; x07]))) 64)) /\
  len (fst (ser_read
              (mkSerial (map Some [x02; x00; x07; xbd; x86])
                 [with_crc [x01; x03; x00; x00; x00; x01]] tt
                 (canned (with_crc [x02; x03; x02; x00; x07]))) 64)) <= 64.
Proof.
  apply (read_holding_chunk_desync
           (open_port tt (canned (with_crc [x02; x03; x02; x00; x07]))) 1 0 1
           (with_crc [x01; x03; x00; x00; x00; x01]) x02 x03).
  - vm_compute. reflexivity.
  - vm_compute. reflexivity.
  - vm_compute. discriminate.
Defined.

Lemma read_holding_chunk_exception_aux {D : Type} (ser : serial D)
  (slave start qty : Z) (req : list byte) (a f : byte) (rest : list byte)
  (s1 s2 : serial D) :
  DumpHolding.build_read_holding_req slave start qty = Ret req ->
  read_exact (ser_write (reset_input_buffer ser) req) 2 = ([a; f], s1) ->
  byte_val a = Z.land slave 0xFF ->
  Z.land (byte_val f) 0x80 <> 0 ->
  read_exact s1 3 = (rest, s2) ->
  exists err,
    DumpHolding.read_holding_chunk ser slave start qty = Ret ((None, Some err), s2) /\
    (len rest < 3 ->
     err = DumpHolding.mkError DumpHolding.EXC_SHORT [] ([a; f] ++ rest)) /\
    (forall code lo hi,
        rest = [code; lo; hi] -> checksum_ok ([a; f] ++ rest) ->
        err = DumpHolding.mkError DumpHolding.EXCEPTION
                [byte_val f; byte_val code] []) /\
    (forall code lo hi,
        rest = [code; lo; hi] -> ~ checksum_ok ([a; f] ++ rest) ->
        err = DumpHolding.mkError DumpHolding.EXC_BADCRC [byte_val code]
                ([a; f] ++ rest)).
Proof.
  intros Hreq Hhead Ha Hf Hrest.
  pose proof (read_exact_full_or_short s1 3 rest s2 ltac:(lia) Hrest) as Hle.
  unfold DumpHolding.read_holding_chunk, DumpHolding.fail.
  rewrite Hreq. cbn [bind]. rewrite Hhead.
  change (len [a; f] <? 2) with false. cbv iota.
  change (py_index [a; f] 0) with (Ret a).
  change (py_index [a; f] 1) with (Ret f). cbn [bind].
  rewrite Ha, Z.eqb_refl. cbn [negb]. cbv iota.
  destruct (Z.eqb_spec (Z.land (byte_val f) 128) 0) as [? | _]; [contradiction |].
  cbn [negb]. cbv iota. rewrite Hrest.
  destruct (Z.ltb_spec (len rest) 3) as [Hlt | Hge].
  - eexists. split; [reflexivity |]. repeat apply conj.
    + reflexivity.
    + intros code lo hi -> _. change (len [code; lo; hi]) with 3 in Hlt. lia.
    + intros code lo hi -> _. change (len [code; lo; hi]) with 3 in Hlt. lia.
  - destruct (len3_inv rest ltac:(lia)) as (code & lo & hi & ->).
    change (py_index [code; lo; hi] 0) with (Ret code).
    change (py_index [code; lo; hi] 1) with (Ret lo).
    change (py_index [code; lo; hi] 2) with (Ret hi). cbn [bind].
    change ([a; f] ++ [code; lo; hi]) with ([a; f; code] ++ [lo; hi]).
    rewrite py_slice_drop_last2.
    pose proof (checksum_ok_3_2 a f code lo hi) as Hck.
    change ([a; f; code] ++ [lo; hi]) with [a; f; code; lo; hi].
    destruct (Z.eqb_spec (Z.lor (byte_val lo) (Z.shiftl (byte_val hi) 8))
                (crc16_modbus [a; f; code])) as [Heq | Hne];
      cbn [negb]; cbv iota.
    + eexists. split; [reflexivity |]. repeat apply conj.
      * change (len [code; lo; hi]) with 3. lia.
      * intros code' lo' hi' Hr _. injection Hr as <- <- <-. reflexivity.
      * intros code' lo' hi' Hr Hbad. injection Hr as <- <- <-.
        exfalso. apply Hbad. apply Hck. exact Heq.
    + eexists. split; [reflexivity |]. repeat apply conj.
      * change (len [code; lo; hi]) with 3. lia.
      * intros code' lo' hi' Hr Hok. injection Hr as <- <- <-.
        exfalso. apply Hne. apply Hck. exact Hok.
      * intros code' lo' hi' Hr _. injection Hr as <- <- <-. reflexivity.
Qed.

(** [read_holding_chunk], exception answer from the addressed responder
    (high bit of the function byte set).  It reads three more bytes and
    returns an error in every case: [EXC_SHORT] when fewer than three
    arrive, [EXCEPTION] with the function and the exception code when the
    checksum of the five bytes is right, [EXC_BADCRC] when it is not. *)
Theorem read_holding_chunk_exception {D : Type} (ser : serial D)
  (slave start qty : Z) (req : list byte) (a f : byte) (rest : list byte)
  (s1 s2 : serial D) :
  DumpHolding.build_read_holding_req slave start qty = Ret req ->
  read_exact (ser_write (reset_input_buffer ser) req) 2 = ([a; f], s1) ->
  byte_val a = Z.land slave 0xFF ->
  Z.land (byte_val f) 0x80 <> 0 ->
  read_exact s1 3 = (rest, s2) ->
  exists err,
    DumpHolding.read_holding_chunk ser slave start qty = Ret ((None, Some err), s2) /\
    (len rest < 3 ->
     err = DumpHolding.mkError DumpHolding.EXC_SHORT [] ([a; f] ++ rest)) /\
    (forall code lo hi,
        rest = [code; lo; hi] -> checksum_ok ([a; f] ++ rest) ->
        err = DumpHolding.mkError DumpHolding.EXCEPTION
                [byte_val f; byte_val code] []) /\
    (forall code lo hi,
        rest = [code; lo; hi] -> ~ checksum_ok ([a; f] ++ rest) ->
        err = DumpHolding.mkError DumpHolding.EXC_BADCRC [byte_val code]
                ([a; f] ++ rest)).
Proof. apply read_holding_chunk_exception_aux. Qed.

Lemma read_holding_chunk_exception_witness :
  exists err,
    DumpHolding.read_holding_chunk
      (open_port tt (canned (with_crc [x01; x83; x02]))) 1 0 1
    = Ret ((None, Some err),
           mkSerial [] [with_crc [x01; x03; x00; x00; x00; x01]] tt
             (canned (with_crc [x01; x83; x02]))) /\
    (len [x02; xc0; xf1] < 3 ->
     err = DumpHolding.mkError DumpHolding.EXC_SHORT [] ([x01; x83] ++ [x02; xc0;
         xf1])) /\
    (forall code lo hi,
        [x02; xc0; xf1] = [code; lo; hi] ->
        checksum_ok ([x01; x83] ++ [x02; xc0; xf1]) ->
        err = DumpHolding.mkError DumpHolding.EXCEPTION
                [byte_val x83; byte_val code] []) /\
    (forall code lo hi,
        [x02; xc0; xf1] = [code; lo; hi] ->
        ~ checksum_ok ([x01; x83] ++ [x02; xc0; xf1]) ->
        err = DumpHolding.mkError DumpHolding.EXC_BADCRC [byte_val code]
                ([x01; x83] ++ [x02; xc0; xf1])).
Proof.
  apply (read_holding_chunk_exception
           (open_port tt (canned (with_crc [x01; x83; x02]))) 1 0 1
           (with_crc [x01; x03; x00; x00; x00; x01]) x01 x83 [x02; xc0; xf1]
           (mkSerial (map Some [x02; xc0; xf1])
              [with_crc [x01; x03; x00; x00; x00; x01]] tt
              (canned (with_crc [x01; x83; x02])))).
  - vm_compute. reflexivity.
  - vm_compute. reflexivity.
  - vm_compute. reflexivity.
  - vm_compute. discriminate.
  - vm_compute. reflexivity.
Defined.

Lemma input_readers_exception_aux {D : Type} (ser_timeout : Z) (ser : serial D)
  (slave start qty timeout : Z) (req : list byte) (a f code : byte) (rest : list byte)
  (s1 s2 : serial D) :
  DumpInput.build_req slave start qty = Ret req ->
  Z.land (byte_val f) 0x80 <> 0 ->
  (DumpOngoing.read_exact ser_timeout (ser_write (reset_input_buffer ser) req) 3
     timeout = ([a; f; code], s1) ->
   DumpOngoing.read_exact ser_timeout s1 2 timeout = (rest, s2) ->
   DumpOngoing.read_registers ser_timeout ser slave start qty timeout
   = Ret (None, s2)) /\
  (DumpInput.read_exact ser_timeout (ser_write (reset_input_buffer ser) req) 3
   = ([a; f; code], s1) ->
   DumpInput.read_exact ser_timeout s1 2 = (rest, s2) ->
   exists m,
     DumpInput.read_block ser_timeout ser slave start qty
     = Ret ((DumpInput.EXCEPTION, Some m, None), s2) /\
     (len rest < 2 -> m = DumpInput.ShortExceptionFrame) /\
     (forall lo hi,
         rest = [lo; hi] ->
         exists ok,
           m = DumpInput.ExcInfo (byte_val f) (byte_val code) ok /\
           (ok = true <-> checksum_ok ([a; f; code] ++ rest)))).
Proof.
  intros Hreq Hf. split; intros Hhead Hrest.
  - unfold DumpOngoing.read_registers.
    change (DumpOngoing.build_req slave start qty)
      with (DumpInput.build_req slave start qty).
    rewrite Hreq. cbn [bind]. rewrite Hhead.
    change (len [a; f; code] <? 3) with false. cbv iota.
    destruct (Z.eqb_spec (Z.land (byte_val f) 128) 0) as [? | _]; [contradiction |].
    cbn [negb]. cbv iota. rewrite Hrest. reflexivity.
  - pose proof (input_read_exact_full_or_short _ s1 2 rest s2 ltac:(lia) Hrest)
      as Hle.
    unfold DumpInput.read_block.
    rewrite Hreq. cbn [bind]. rewrite Hhead.
    change (len [a; f; code] <? 3) with false. cbv iota.
    destruct (Z.eqb_spec (Z.land (byte_val f) 128) 0) as [? | _]; [contradiction |].
    cbn [negb]. cbv iota. rewrite Hrest.
    destruct (Z.eqb_spec (len rest) 2) as [Hlen | Hlen]; cbn [negb]; cbv iota.
    + destruct (len2_inv rest Hlen) as (lo & hi & ->).
      change (py_index [lo; hi] 0) with (Ret lo).
      change (py_index [lo; hi] 1) with (Ret hi). cbn [bind].
      eexists. split; [reflexivity |]. split.
      * change (len [lo; hi]) with 2. lia.
      * intros lo' hi' Hr. injection Hr as <- <-.
        eexists. split; [reflexivity |].
        change ([a; f; code] ++ [lo; hi]) with [a; f; code; lo; hi].
        rewrite checksum_ok_3_2, Z.eqb_eq. split; congruence.
    + eexists. split; [reflexivity |]. split.
      * reflexivity.
      * intros lo hi ->. change (len [lo; hi]) with 2 in Hlen. lia.
Qed.

(** [read_block] and [read_registers], exception answer.  Both read two
    more bytes.  [read_block] returns status [EXCEPTION] and no values
    whether or not the checksum matches: the comparison only sets the
    [crc_ok] flag of the message (or the message says the frame was short).
    [read_registers] returns [None]. *)
Theorem input_readers_exception {D : Type} (ser_timeout : Z) (ser : serial D)
  (slave start qty timeout : Z) (req : list byte) (a f code : byte) (rest : list byte)
  (s1 s2 : serial D) :
  DumpInput.build_req slave start qty = Ret req ->
  Z.land (byte_val f) 0x80 <> 0 ->
  (DumpOngoing.read_exact ser_timeout (ser_write (reset_input_buffer ser) req) 3
     timeout = ([a; f; code], s1) ->
   DumpOngoing.read_exact ser_timeout s1 2 timeout = (rest, s2) ->
   DumpOngoing.read_registers ser_timeout ser slave start qty timeout
   = Ret (None, s2)) /\
  (DumpInput.read_exact ser_timeout (ser_write (reset_input_buffer ser) req) 3
   = ([a; f; code], s1) ->
   DumpInput.read_exact ser_timeout s1 2 = (rest, s2) ->
   exists m,
     DumpInput.read_block ser_timeout ser slave start qty
     = Ret ((DumpInput.EXCEPTION, Some m, None), s2) /\
     (len rest < 2 -> m = DumpInput.ShortExceptionFrame) /\
     (forall lo hi,
         rest = [lo; hi] ->
         exists ok,
           m = DumpInput.ExcInfo (byte_val f) (byte_val code) ok /\
           (ok = true <-> checksum_ok ([a; f; code] ++ rest)))).
Proof. apply input_readers_exception_aux. Qed.

Lemma input_readers_exception_witness :
  DumpOngoing.read_registers 1000
    (open_port tt (canned [x01; x84; x02; x00; x00])) 1 0 1 1000
  = Ret (None,
         mkSerial [] [with_crc [x01; x04; x00; x00; x00; x01]] tt
           (canned [x01; x84; x02; x00; x00])) /\
  exists m,
    DumpInput.read_block 1000 (open_port tt (canned [x01; x84; x02; x00; x00])) 1 0 1
    = Ret ((DumpInput.EXCEPTION, Some m, None),
           mkSerial [] [with_crc [x01; x04; x00; x00; x00; x01]] tt
             (canned [x01; x84; x02; x00; x00])) /\
    (len [x00; x00] < 2 -> m = DumpInput.ShortExceptionFrame) /\
    (forall lo hi,
        [x00; x00] = [lo; hi] ->
        exists ok,
          m = DumpInput.ExcInfo (byte_val x84) (byte_val x02) ok /\
          (ok = true <-> checksum_ok ([x01; x84; x02] ++ [x00; x00]))).
Proof.
  destruct (input_readers_exception 1000
              (open_port tt (canned [x01; x84; x02; x00; x00])) 1 0 1 1000
              (with_crc [x01; x04; x00; x00; x00; x01]) x01 x84 x02 [x00; x00]
              (mkSerial (map Some [x00; x00])
                 [with_crc [x01; x04; x00; x00; x00; x01]] tt
                 (canned [x01; x84; x02; x00; x00]))
              (mkSerial [] [with_crc [x01; x04; x00; x00; x00; x01]] tt
                 (canned [x01; x84; x02; x00; x00])))
    as [Hongoing Hinput].
  - vm_compute. reflexivity.
  - vm_compute. discriminate.
  - split.
    + apply Hongoing; vm_compute; reflexivity.
    + apply Hinput; vm_compute; reflexivity.
Defined.

(** ** [read_exact] *)

Lemma take_bytes_consumed (k : nat) (line : list (option byte)) (bs : list byte)
  (rest : list (option byte)) :
  take_bytes k line = (bs, rest) ->
  exists consumed, line = consumed ++ rest /\ omap id consumed = bs.
Proof.
  revert line bs rest. induction k as [| k IH]; intros line bs rest H; simpl in H.
  - injection H as <- <-. exists []. split; reflexivity.
  - destruct line as [| [b |] line].
    + injection H as <- <-. exists []. split; reflexivity.
    + destruct (take_bytes k line) as [bs0 rest0] eqn:Hk.
      injection H as <- <-.
      destruct (IH _ _ _ Hk) as (consumed & -> & <-).
      exists (Some b :: consumed). split; reflexivity.
    + injection H as <- <-. exists [None]. split; reflexivity.
Qed.

Lemma read_exact_loop_consumed {D : Type} (fuel : nat) (n : Z) (buf : list byte)
  (ser : serial D) (bs : list byte) (ser' : serial D) :
  read_exact_loop fuel n buf ser = (bs, ser') ->
  exists consumed,
    inbuf ser = consumed ++ inbuf ser' /\ bs = buf ++ omap id consumed.
Proof.
  revert buf ser. induction fuel as [| fuel IH]; intros buf ser H; simpl in H.
  - injection H as <- <-. exists []. rewrite app_nil_r. split; reflexivity.
  - destruct (len buf <? n).
    2:{ injection H as <- <-. exists []. rewrite app_nil_r. split; reflexivity. }
    unfold ser_read in H.
    destruct (take_bytes (Z.to_nat (n - len buf)) (inbuf ser)) as [chunk rest] eqn:Hk.
    destruct (take_bytes_consumed _ _ _ _ Hk) as (c1 & Hline & Hc1).
    destruct chunk as [| c chunk].
    + injection H as <- <-. exists c1. cbn [inbuf].
      rewrite Hc1, app_nil_r. split; [exact Hline | reflexivity].
    + destruct (IH _ _ H) as (c2 & Hline2 & ->). cbn [inbuf] in Hline2.
      exists (c1 ++ c2). rewrite Hline, Hline2, omap_app, Hc1, <- !app_assoc.
      split; reflexivity.
Qed.

Lemma take_bytes_pause (k : nat) (bs : list byte) (rest : list (option byte)) :
  (length bs < k)%nat -> take_bytes k (map Some bs ++ None :: rest) = (bs, rest).
Proof.
  revert k. induction bs as [| b bs IH]; intros k Hk.
  - destruct k as [| k]; [lia |]. reflexivity.
  - destruct k as [| k]; [simpl in Hk; lia |]. simpl.
    rewrite IH by (simpl in Hk; lia). reflexivity.
Qed.

Lemma read_exact_guarded_loop_consumed {D : Type} (fuel : nat)
  (ser_timeout limit n elapsed : Z) (buf : list byte) (ser : serial D)
  (bs : list byte) (ser' : serial D) :
  read_exact_guarded_loop fuel ser_timeout limit n elapsed buf ser = (bs, ser') ->
  exists consumed,
    inbuf ser = consumed ++ inbuf ser' /\ bs = buf ++ omap id consumed.
Proof.
  revert elapsed buf ser. induction fuel as [| fuel IH]; intros elapsed buf ser H;
    simpl in H.
  - injection H as <- <-. exists []. rewrite app_nil_r. split; reflexivity.
  - destruct ((len buf <? n) && (elapsed <? limit)).
    2:{ injection H as <- <-. exists []. rewrite app_nil_r. split; reflexivity. }
    unfold ser_read in H.
    destruct (take_bytes (Z.to_nat (n - len buf)) (inbuf ser)) as [chunk rest] eqn:Hk.
    destruct (take_bytes_consumed _ _ _ _ Hk) as (c1 & Hline & Hc1).
    destruct chunk as [| c chunk].
    + injection H as <- <-. exists c1. cbn [inbuf].
      rewrite Hc1, app_nil_r. split; [exact Hline | reflexivity].
    + destruct (IH _ _ _ H) as (c2 & Hline2 & ->). cbn [inbuf] in Hline2.
      exists (c1 ++ c2). rewrite Hline, Hline2, omap_app, Hc1, <- !app_assoc.
      split; reflexivity.
Qed.

Lemma read_exact_guarded_bytes {D : Type} (ser_timeout limit : Z) (ser : serial D)
  (n : Z) (bs : list byte) (ser' : serial D) :
  read_exact_guarded ser_timeout limit ser n = (bs, ser') ->
  len bs <= Z.max 0 n /\
  (exists consumed, inbuf ser = consumed ++ inbuf ser' /\ bs = omap id consumed) /\
  sent ser' = sent ser /\ dev ser' = dev ser /\ respond ser' = respond ser /\
  (n <= 0 -> bs = [] /\ ser' = ser).
Proof.
  intros H. repeat apply conj.
  - pose proof (read_exact_guarded_loop_length (Z.to_nat n) ser_timeout limit n 0 []
                  ser ltac:(rewrite len_nil; lia)) as Hl.
    unfold read_exact_guarded in H. rewrite H in Hl. exact Hl.
  - destruct (read_exact_guarded_loop_consumed _ _ _ _ _ _ _ _ _ H)
      as (consumed & Hc & ->).
    exists consumed. split; [exact Hc | reflexivity].
  - apply (read_exact_guarded_port _ _ _ _ _ _ H).
  - apply (read_exact_guarded_port _ _ _ _ _ _ H).
  - apply (read_exact_guarded_port _ _ _ _ _ _ H).
  - intros Hn. unfold read_exact_guarded in H.
    replace (Z.to_nat n) with 0%nat in H by lia. simpl in H.
    injection H as <- <-. split; reflexivity.
Qed.

Lemma read_exact_unguarded_bytes {D : Type} (ser : serial D) (n : Z)
  (bs : list byte) (ser' : serial D) :
  read_exact ser n = (bs, ser') ->
  len bs <= Z.max 0 n /\
  (exists consumed, inbuf ser = consumed ++ inbuf ser' /\ bs = omap id consumed) /\
  sent ser' = sent ser /\ dev ser' = dev ser /\ respond ser' = respond ser /\
  (n <= 0 -> bs = [] /\ ser' = ser).
Proof.
  intros H. repeat apply conj.
  - pose proof (read_exact_length ser n) as Hl. rewrite H in Hl. exact Hl.
  - destruct (read_exact_loop_consumed _ _ _ _ _ _ H) as (consumed & Hc & ->).
    exists consumed. split; [exact Hc | reflexivity].
  - apply (read_exact_port _ _ _ _ H).
  - apply (read_exact_port _ _ _ _ H).
  - apply (read_exact_port _ _ _ _ H).
  - intros Hn. unfold read_exact in H.
    replace (Z.to_nat n) with 0%nat in H by lia. simpl in H.
    injection H as <- <-. split; reflexivity.
Qed.

(** Each of the four [read_exact], with or without the test on the clock,
    returns at most [n] bytes; they are exactly the bytes among the line
    events it consumed, in order, and the rest of the line is left for the
    next read; the port is otherwise untouched.  When asked for nothing it
    reads nothing. *)
Theorem read_exact_bytes {D : Type} (ser_timeout : Z) (ser : serial D)
  (n timeout : Z) (bs : list byte) (ser' : serial D) :
  read_exact ser n = (bs, ser') \/
  DumpOngoing.read_exact ser_timeout ser n timeout = (bs, ser') \/
  DumpInput.read_exact ser_timeout ser n = (bs, ser') ->
  len bs <= Z.max 0 n /\
  (exists consumed, inbuf ser = consumed ++ inbuf ser' /\ bs = omap id consumed) /\
  sent ser' = sent ser /\ dev ser' = dev ser /\ respond ser' = respond ser /\
  (n <= 0 -> bs = [] /\ ser' = ser).
Proof.
  intros [H | [H | H]].
  - apply read_exact_unguarded_bytes. exact H.
  - apply (read_exact_guarded_bytes _ _ _ _ _ _ H).
  - apply (read_exact_guarded_bytes _ _ _ _ _ _ H).
Qed.

Lemma read_exact_bytes_witness :
  len [x01; x04] <= Z.max 0 3 /\
  (exists consumed,
      inbuf (mkSerial [Some x01; None; Some x04; None; Some x02] [] tt silent)
      = consumed ++ inbuf (mkSerial [Some x02] [] tt silent) /\
      [x01; x04] = omap id consumed) /\
  sent (mkSerial [Some x02] [] tt silent)
  = sent (mkSerial [Some x01; None; Some x04; None; Some x02] [] tt silent) /\
  dev (mkSerial [Some x02] [] tt silent)
  = dev (mkSerial [Some x01; None; Some x04; None; Some x02] [] tt silent) /\
  respond (mkSerial [Some x02] [] tt silent)
  = respond (mkSerial [Some x01; None; Some x04; None; Some x02] [] tt silent) /\
  (3 <= 0 ->
   [x01; x04] = [] /\
   mkSerial [Some x02] [] tt silent
   = mkSerial [Some x01; None; Some x04; None; Some x02] [] tt silent).
Proof.
  apply (read_exact_bytes 1000
           (mkSerial [Some x01; None; Some x04; None; Some x02] [] tt silent) 3 1000).
  right. right. reflexivity.
Defined.

(** When the [n] bytes asked for are on the line, each of the four
    [read_exact] returns exactly those and leaves what follows them: the
    first read brings them all, and the test on the clock is made before
    any time has passed. *)
Theorem read_exact_complete {D : Type} (ser_timeout : Z) (ser : serial D)
  (n timeout : Z) (bs : list byte) (tail : list (option byte)) :
  inbuf ser = map Some bs ++ tail -> len bs = n ->
  read_exact ser n = (bs, mkSerial tail (sent ser) (dev ser) (respond ser)) /\
  (0 <= timeout ->
   DumpOngoing.read_exact ser_timeout ser n timeout
   = (bs, mkSerial tail (sent ser) (dev ser) (respond ser))) /\
  (0 <= ser_timeout ->
   DumpInput.read_exact ser_timeout ser n
   = (bs, mkSerial tail (sent ser) (dev ser) (respond ser))).
Proof.
  intros Hin Hn. repeat apply conj.
  - apply read_exact_available; assumption.
  - intros Ht. apply ongoing_read_exact_available; assumption.
  - intros Ht. apply input_read_exact_available; assumption.
Qed.

Lemma read_exact_complete_witness :
  read_exact (mkSerial (map Some [x01; x04; x02] ++ [Some x00]) [] tt silent) 3
  = ([x01; x04; x02],
     mkSerial [Some x00]
       (sent (mkSerial (map Some [x01; x04; x02] ++ [Some x00]) [] tt silent))
       (dev (mkSerial (map Some [x01; x04; x02] ++ [Some x00]) [] tt silent))
       (respond (mkSerial (map Some [x01; x04; x02] ++ [Some x00]) [] tt silent))) /\
  (0 <= 1000 ->
   DumpOngoing.read_exact 1000
     (mkSerial (map Some [x01; x04; x02] ++ [Some x00]) [] tt silent) 3 1000
   = ([x01; x04; x02],
      mkSerial [Some x00]
        (sent (mkSerial (map Some [x01; x04; x02] ++ [Some x00]) [] tt silent))
        (dev (mkSerial (map Some [x01; x04; x02] ++ [Some x00]) [] tt silent))
        (respond (mkSerial (map Some [x01; x04; x02] ++ [Some x00]) [] tt silent)))) /\
  (0 <= 1000 ->
   DumpInput.read_exact 1000
     (mkSerial (map Some [x01; x04; x02] ++ [Some x00]) [] tt silent) 3
   = ([x01; x04; x02],
      mkSerial [Some x00]
        (sent (mkSerial (map Some [x01; x04; x02] ++ [Some x00]) [] tt silent))
        (dev (mkSerial (map Some [x01; x04; x02] ++ [Some x00]) [] tt silent))
        (respond (mkSerial (map Some [x01; x04; x02] ++ [Some x00]) [] tt silent)))).
Proof.
  apply (read_exact_complete 1000
           (mkSerial (map Some [x01; x04; x02] ++ [Some x00]) [] tt silent) 3 1000
           [x01; x04; x02] [Some x00]); reflexivity.
Defined.

(** The loop is what makes a read survive a pause: if a read times out
    after some bytes have come, [read_exact] reads again and still returns
    the [n] bytes when the remainder follows; but a read that returns
    nothing ends it, so two timeouts in a row leave it short. *)
Theorem read_exact_across_a_pause {D : Type} (ser : serial D) (n : Z)
  (bs1 bs2 : list byte) (tail : list (option byte)) :
  bs1 <> [] -> bs2 <> [] -> len bs1 + len bs2 = n ->
  (inbuf ser = map Some bs1 ++ None :: map Some bs2 ++ tail ->
   read_exact ser n
   = (bs1 ++ bs2, mkSerial tail (sent ser) (dev ser) (respond ser))) /\
  (inbuf ser = map Some bs1 ++ None :: None :: map Some bs2 ++ tail ->
   read_exact ser n
   = (bs1, mkSerial (map Some bs2 ++ tail) (sent ser) (dev ser) (respond ser))).
Proof.
  intros H1 H2 Hn.
  assert (Hl1 : (0 < length bs1)%nat) by (destruct bs1; [contradiction | simpl; lia]).
  assert (Hl2 : (0 < length bs2)%nat) by (destruct bs2; [contradiction | simpl; lia]).
  unfold len in Hn.
  assert (Hfuel : exists fuel, Z.to_nat n = S (S fuel))
    by (exists (Z.to_nat n - 2)%nat; lia).
  destruct Hfuel as (fuel & Hfuel).
  assert (Hfirst : forall rest,
             take_bytes (Z.to_nat (n - len (@nil byte))) (map Some bs1 ++ None :: rest)
             = (bs1, rest)).
  { intros rest. apply take_bytes_pause. rewrite len_nil. lia. }
  split; intros Hin; unfold read_exact; rewrite Hfuel; cbn [read_exact_loop].
  - rewrite len_nil.
    destruct (Z.ltb_spec 0 n) as [_ | ?]; [| lia].
    unfold ser_read at 1. rewrite Hin, Hfirst.
    destruct bs1 as [| b bs1]; [contradiction |]. rewrite app_nil_l.
    destruct (Z.ltb_spec (len (b :: bs1)) n) as [_ | ?]; [| unfold len in *; lia].
    unfold ser_read. cbn [inbuf sent dev respond].
    replace (Z.to_nat (n - len (b :: bs1))) with (length bs2) by (unfold len; lia).
    rewrite take_bytes_available.
    destruct bs2 as [| b2 bs2]; [contradiction |].
    destruct fuel as [| fuel]; cbn [read_exact_loop]; [reflexivity |].
    destruct (Z.ltb_spec (len ((b :: bs1) ++ b2 :: bs2)) n) as [Hlt | _];
      [| reflexivity].
    rewrite len_app in Hlt. unfold len in Hlt. lia.
  - rewrite len_nil.
    destruct (Z.ltb_spec 0 n) as [_ | ?]; [| lia].
    unfold ser_read at 1. rewrite Hin, Hfirst.
    destruct bs1 as [| b bs1]; [contradiction |]. rewrite app_nil_l.
    destruct (Z.ltb_spec (len (b :: bs1)) n) as [_ | ?]; [| unfold len in *; lia].
    unfold ser_read. cbn [inbuf sent dev respond].
    destruct (Z.to_nat (n - len (b :: bs1))) as [| k] eqn:Hk;
      [unfold len in Hk; lia |].
    reflexivity.
Qed.

Lemma read_exact_across_a_pause_witness :
  (inbuf (mkSerial [Some x01; None; Some x04; Some x02] [] tt silent)
   = map Some [x01] ++ None :: map Some [x04; x02] ++ [] ->
   read_exact (mkSerial [Some x01; None; Some x04; Some x02] [] tt silent) 3
   = ([x01] ++ [x04; x02],
      mkSerial []
        (sent (mkSerial [Some x01; None; Some x04; Some x02] [] tt silent))
        (dev (mkSerial [Some x01; None; Some x04; Some x02] [] tt silent))
        (respond (mkSerial [Some x01; None; Some x04; Some x02] [] tt silent)))) /\
  (inbuf (mkSerial [Some x01; None; Some x04; Some x02] [] tt silent)
   = map Some [x01] ++ None :: None :: map Some [x04; x02] ++ [] ->
   read_exact (mkSerial [Some x01; None; Some x04; Some x02] [] tt silent) 3
   = ([x01],
      mkSerial (map Some [x04; x02] ++ [])
        (sent (mkSerial [Some x01; None; Some x04; Some x02] [] tt silent))
        (dev (mkSerial [Some x01; None; Some x04; Some x02] [] tt silent))
        (respond (mkSerial [Some x01; None; Some x04; Some x02] [] tt silent)))).
Proof.
  apply (read_exact_across_a_pause
           (mkSerial [Some x01; None; Some x04; Some x02] [] tt silent) 3
           [x01] [x04; x02] []).
  - discriminate.
  - discriminate.
  - reflexivity.
Defined.

(** *** The test on the clock *)

(** After one read that timed out with some bytes, the guarded loop reads
    again exactly when the port's timeout is below the limit. *)
Lemma read_exact_guarded_one_pause {D : Type} (ser_timeout limit : Z)
  (ser : serial D) (n : Z) (bs1 bs2 : list byte) (tail : list (option byte)) :
  0 < limit -> bs1 <> [] -> bs2 <> [] -> len bs1 + len bs2 = n ->
  inbuf ser = map Some bs1 ++ None :: map Some bs2 ++ tail ->
  read_exact_guarded ser_timeout limit ser n
  = if ser_timeout <? limit
    then (bs1 ++ bs2, mkSerial tail (sent ser) (dev ser) (respond ser))
    else (bs1, mkSerial (map Some bs2 ++ tail) (sent ser) (dev ser) (respond ser)).
Proof.
  intros Hlim H1 H2 Hn Hin.
  assert (Hl1 : (0 < length bs1)%nat) by (destruct bs1; [contradiction | simpl; lia]).
  assert (Hl2 : (0 < length bs2)%nat) by (destruct bs2; [contradiction | simpl; lia]).
  unfold len in Hn.
  assert (Hfuel : exists fuel, Z.to_nat n = S (S fuel))
    by (exists (Z.to_nat n - 2)%nat; lia).
  destruct Hfuel as (fuel & Hfuel).
  unfold read_exact_guarded. rewrite Hfuel. cbn [read_exact_guarded_loop].
  rewrite len_nil.
  destruct (Z.ltb_spec 0 n) as [_ | ?]; [| lia].
  destruct (Z.ltb_spec 0 limit) as [_ | ?]; [| lia]. cbn [andb].
  unfold ser_read at 1. rewrite Hin.
  rewrite take_bytes_pause by lia.
  destruct bs1 as [| b bs1]; [contradiction |]. rewrite app_nil_l.
  unfold read_wait at 1.
  destruct (Z.ltb_spec (len (b :: bs1)) (n - 0)) as [_ | ?]; [| unfold len in *; lia].
  rewrite Z.add_0_l.
  destruct (Z.ltb_spec (len (b :: bs1)) n) as [_ | ?]; [| unfold len in *; lia].
  destruct (Z.ltb_spec ser_timeout limit) as [Hin_time | Hlate]; cbn [andb].
  - unfold ser_read. cbn [inbuf sent dev respond].
    replace (Z.to_nat (n - len (b :: bs1))) with (length bs2) by (unfold len; lia).
    rewrite take_bytes_available.
    destruct bs2 as [| b2 bs2]; [contradiction |].
    destruct fuel as [| fuel]; cbn [read_exact_guarded_loop]; [reflexivity |].
    destruct (Z.ltb_spec (len ((b :: bs1) ++ b2 :: bs2)) n) as [Hlt | _];
      [| reflexivity].
    rewrite len_app in Hlt. unfold len in Hlt. lia.
  - reflexivity.
Qed.

(** After two reads that timed out with some bytes, the guarded loop stops
    when twice the port's timeout has reached the limit, and leaves what
    follows on the line. *)
Lemma read_exact_guarded_two_pauses {D : Type} (ser_timeout limit : Z)
  (ser : serial D) (n : Z) (bs1 bs2 : list byte) (tail : list (option byte)) :
  0 < limit -> ser_timeout < limit -> limit <= 2 * ser_timeout ->
  bs1 <> [] -> bs2 <> [] -> len bs1 + len bs2 < n ->
  inbuf ser = map Some bs1 ++ None :: map Some bs2 ++ None :: tail ->
  read_exact_guarded ser_timeout limit ser n
  = (bs1 ++ bs2, mkSerial tail (sent ser) (dev ser) (respond ser)).
Proof.
  intros Hlim Hone Htwo H1 H2 Hn Hin.
  assert (Hl1 : (0 < length bs1)%nat) by (destruct bs1; [contradiction | simpl; lia]).
  assert (Hl2 : (0 < length bs2)%nat) by (destruct bs2; [contradiction | simpl; lia]).
  unfold len in Hn.
  assert (Hfuel : exists fuel, Z.to_nat n = S (S (S fuel)))
    by (exists (Z.to_nat n - 3)%nat; lia).
  destruct Hfuel as (fuel & Hfuel).
  unfold read_exact_guarded. rewrite Hfuel. cbn [read_exact_guarded_loop].
  unfold read_wait. rewrite len_nil.
  destruct (Z.ltb_spec 0 n) as [_ | ?]; [| lia].
  destruct (Z.ltb_spec 0 limit) as [_ | ?]; [| lia]. cbn [andb].
  unfold ser_read at 1. rewrite Hin.
  rewrite take_bytes_pause by lia.
  destruct bs1 as [| b bs1]; [contradiction |]. rewrite app_nil_l.
  destruct (Z.ltb_spec (len (b :: bs1)) (n - 0)) as [_ | ?]; [| unfold len in *; lia].
  rewrite !Z.add_0_l.
  destruct (Z.ltb_spec (len (b :: bs1)) n) as [_ | ?]; [| unfold len in *; lia].
  destruct (Z.ltb_spec ser_timeout limit) as [_ | ?]; [| lia]. cbn [andb].
  unfold ser_read. cbn [inbuf sent dev respond].
  rewrite take_bytes_pause by (unfold len; lia).
  destruct bs2 as [| b2 bs2]; [contradiction |].
  destruct (Z.ltb_spec (len (b2 :: bs2)) (n - len (b :: bs1))) as [_ | ?];
    [| unfold len in *; lia].
  destruct (Z.ltb_spec (ser_timeout + ser_timeout) limit) as [? | _]; [lia |].
  rewrite andb_false_r. reflexivity.
Qed.

(** What the test on the clock changes.  In [modbus_dump_input.py] the
    limit is the port's timeout plus 0.2 s, so [read_exact] still survives
    one pause, but with a timeout of 0.2 s or more it stops after a second
    one although bytes follow.  In [dump_ongoing.py] the limit comes from
    the [timeout] argument of [read_registers]: one pause is survived when
    the port's timeout is below [timeout + 0.2], and ends the read when it
    is not. *)
Theorem guarded_read_exact_pauses {D : Type} (ser_timeout timeout : Z)
  (ser : serial D) (n : Z) (bs1 bs2 : list byte) (tail : list (option byte)) :
  bs1 <> [] -> bs2 <> [] ->
  (0 <= ser_timeout -> len bs1 + len bs2 = n ->
   inbuf ser = map Some bs1 ++ None :: map Some bs2 ++ tail ->
   DumpInput.read_exact ser_timeout ser n
   = (bs1 ++ bs2, mkSerial tail (sent ser) (dev ser) (respond ser))) /\
  (200 <= ser_timeout -> len bs1 + len bs2 < n ->
   inbuf ser = map Some bs1 ++ None :: map Some bs2 ++ None :: tail ->
   DumpInput.read_exact ser_timeout ser n
   = (bs1 ++ bs2, mkSerial tail (sent ser) (dev ser) (respond ser))) /\
  (0 <= timeout -> len bs1 + len bs2 = n ->
   inbuf ser = map Some bs1 ++ None :: map Some bs2 ++ tail ->
   DumpOngoing.read_exact ser_timeout ser n timeout
   = if ser_timeout <? timeout + 200
     then (bs1 ++ bs2, mkSerial tail (sent ser) (dev ser) (respond ser))
     else (bs1,
           mkSerial (map Some bs2 ++ tail) (sent ser) (dev ser) (respond ser))).
Proof.
  intros H1 H2. repeat apply conj.
  - intros Ht Hn Hin. unfold DumpInput.read_exact.
    rewrite (read_exact_guarded_one_pause _ _ _ _ bs1 bs2 tail) by
      (try assumption; destruct (ser_timeout =? 0); lia).
    destruct (Z.eqb_spec ser_timeout 0) as [-> | Hz].
    + reflexivity.
    + destruct (Z.ltb_spec ser_timeout (ser_timeout + 200)) as [_ | ?];
        [reflexivity | lia].
  - intros Ht Hn Hin. unfold DumpInput.read_exact.
    destruct (Z.eqb_spec ser_timeout 0) as [? | _]; [lia |].
    apply read_exact_guarded_two_pauses; try assumption; lia.
  - intros Ht Hn Hin. unfold DumpOngoing.read_exact.
    apply read_exact_guarded_one_pause; try assumption; lia.
Qed.

Lemma guarded_read_exact_pauses_witness :
  DumpInput.read_exact 1000
    (mkSerial [Some x01; None; Some x04; None; Some x02] [] tt silent) 3
  = ([x01] ++ [x04], mkSerial [Some x02] [] tt silent).
Proof.
  destruct (guarded_read_exact_pauses 1000 1000
              (mkSerial [Some x01; None; Some x04; None; Some x02] [] tt silent)
              3 [x01] [x04] [Some x02]) as (_ & Htwo & _);
    [discriminate | discriminate |].
  apply Htwo.
  - lia.
  - reflexivity.
  - reflexivity.
Defined.

(** ** Addresses served and addresses refused *)

Lemma enumerate_from_cons (addr v : Z) (regs : list Z) :
  enumerate_from addr (v :: regs) = (addr, v) :: enumerate_from (addr + 1) regs.
Proof.
  unfold enumerate_from. rewrite imap_cons. f_equal.
  - f_equal. lia.
  - apply imap_ext. intros i x _. cbn. f_equal. lia.
Qed.

Lemma enumerate_from_values (value : Z -> Z) (n : nat) (a : Z) :
  enumerate_from a (map value (seqZ a (Z.of_nat n)))
  = map (fun x => (x, value x)) (seqZ a (Z.of_nat n)).
Proof.
  revert a. induction n as [| n IH]; intros a.
  - reflexivity.
  - rewrite seqZ_cons by lia.
    replace (Z.pred (Z.of_nat (S n))) with (Z.of_nat n) by lia.
    cbn [map]. rewrite enumerate_from_cons. f_equal.
    replace (a + 1) with (Z.succ a) by lia. apply IH.
Qed.

Lemma enumerate_from_seqZ (value : Z -> Z) (a q : Z) :
  enumerate_from a (map value (seqZ a q)) = map (fun x => (x, value x)) (seqZ a q).
Proof.
  destruct (Z_le_dec 0 q) as [Hq | Hq].
  - rewrite <- (Z2Nat.id q Hq). apply enumerate_from_values.
  - rewrite seqZ_nil by lia. reflexivity.
Qed.

Lemma covers_false (bad : Z -> bool) (a q : Z) :
  covers bad a q = false <-> forall x, a <= x < a + q -> bad x = false.
Proof.
  unfold covers. split.
  - intros H x Hx. destruct (bad x) eqn:Hb; [| reflexivity].
    assert (existsb bad (seqZ a q) = true) as Ht; [| congruence].
    apply existsb_exists. exists x. split; [| exact Hb].
    apply list_elem_of_In, elem_of_seqZ. exact Hx.
  - intros H. destruct (existsb bad (seqZ a q)) eqn:He; [| reflexivity].
    apply existsb_exists in He. destruct He as (x & Hin & Hb).
    apply list_elem_of_In, elem_of_seqZ in Hin. rewrite (H x Hin) in Hb. discriminate.
Qed.

Lemma covers_one (bad : Z -> bool) (a : Z) : covers bad a 1 = bad a.
Proof.
  unfold covers. rewrite seqZ_cons by lia. rewrite seqZ_nil by lia.
  cbn [existsb]. apply orb_false_r.
Qed.

Lemma covers_join (bad : Z -> bool) (a n q : Z) :
  0 <= n -> 0 <= q ->
  covers bad a n = false -> covers bad (a + n) q = false ->
  covers bad a (n + q) = false.
Proof.
  intros Hn Hq H1 H2. rewrite covers_false in *. intros x Hx.
  destruct (Z_lt_dec x (a + n)); [apply H1 | apply H2]; lia.
Qed.

Lemma filter_all_good (bad : Z -> bool) (l : list Z) :
  existsb bad l = false -> List.filter (fun a => negb (bad a)) l = l.
Proof.
  induction l as [| x l IH]; intros H; cbn [List.filter existsb] in *.
  - reflexivity.
  - apply orb_false_iff in H. destruct H as [Hx Hl].
    rewrite Hx. cbn [negb]. f_equal. apply IH. exact Hl.
Qed.

Lemma served_empty (bad : Z -> bool) (value : Z -> Z) (lo : Z) :
  served bad value lo lo = [].
Proof. unfold served. rewrite Z.sub_diag. reflexivity. Qed.

Lemma served_extend_good (bad : Z -> bool) (value : Z -> Z) (lo mid q : Z) :
  lo <= mid -> 0 <= q -> covers bad mid q = false ->
  served bad value lo (mid + q)
  = served bad value lo mid ++ map (fun a => (a, value a)) (seqZ mid q).
Proof.
  intros Hlo Hq Hc. unfold served.
  replace (mid + q - lo) with ((mid - lo) + q) by lia.
  rewrite seqZ_app by lia. rewrite List.filter_app, map_app.
  replace (lo + (mid - lo)) with mid by lia.
  rewrite (filter_all_good bad (seqZ mid q)) by exact Hc. reflexivity.
Qed.

Lemma served_extend_bad (bad : Z -> bool) (value : Z -> Z) (lo mid : Z) :
  lo <= mid -> bad mid = true ->
  served bad value lo (mid + 1) = served bad value lo mid.
Proof.
  intros Hlo Hb. unfold served.
  replace (mid + 1 - lo) with ((mid - lo) + 1) by lia.
  rewrite seqZ_app by lia. rewrite List.filter_app, map_app.
  replace (lo + (mid - lo)) with mid by lia.
  rewrite (seqZ_cons mid 1) by lia. rewrite (seqZ_nil (Z.succ mid)) by lia.
  cbn [List.filter]. rewrite Hb. cbn [negb map]. apply app_nil_r.
Qed.

Lemma served_all_good (bad : Z -> bool) (value : Z -> Z) (lo hi : Z) :
  covers bad lo (hi - lo) = false ->
  served bad value lo hi = map (fun a => (a, value a)) (seqZ lo (hi - lo)).
Proof.
  intros H. unfold served. rewrite filter_all_good by exact H. reflexivity.
Qed.

(** ** The loop of [modbus_dump_input.py] *)

Lemma input_printed_app (out1 out2 : list DumpInput.event) :
  DumpInput.printed (out1 ++ out2) = DumpInput.printed out1 ++ DumpInput.printed out2.
Proof.
  induction out1 as [| e out1 IH]; [reflexivity |].
  destruct e; cbn [app DumpInput.printed]; rewrite IH; reflexivity.
Qed.

Lemma input_printed_reg_lines (addr : Z) (regs : list Z) :
  DumpInput.printed (DumpInput.reg_lines addr regs) = enumerate_from addr regs.
Proof.
  unfold DumpInput.reg_lines.
  induction (enumerate_from addr regs) as [| [a v] l IH]; [reflexivity |].
  cbn [map DumpInput.printed fst snd]. rewrite IH. reflexivity.
Qed.

(** The four ways one pass of the loop can go. *)
Lemma input_body_shape {D : Type} (ser_timeout : Z) (slave : Z) (stop : bool)
  (st : DumpInput.state D) (c : ctl (DumpInput.state D)) :
  DumpInput.main_body ser_timeout slave stop st = Ret c ->
  let addr := DumpInput.st_addr st in
  let remaining := DumpInput.st_remaining st in
  let chunk := DumpInput.st_chunk st in
  let out := DumpInput.st_out st in
  let qty := Z.min chunk remaining in
  exists status m regs ser,
    DumpInput.read_block ser_timeout (DumpInput.st_ser st) slave addr qty
    = Ret ((status, m, regs), ser) /\
    ((exists rs,
         status = DumpInput.OK /\ regs = Some rs /\
         c = Continue (DumpInput.mkState ser (addr + qty) (remaining - qty) chunk
                         (out ++ DumpInput.reg_lines addr rs))) \/
     (DumpInput.is_OK status = false /\ 1 < qty /\
      c = Continue (DumpInput.mkState ser addr remaining (Z.max 1 (qty / 2))
                      (out ++ [DumpInput.ErrLine addr qty status m]
                           ++ [DumpInput.RetryLine (Z.max 1 (qty / 2))]))) \/
     (DumpInput.is_OK status = false /\ qty <= 1 /\ stop = true /\
      c = Leave (DumpInput.mkState ser addr remaining chunk
                   ((out ++ [DumpInput.ErrLine addr qty status m])
                      ++ [DumpInput.Stopping addr]))) \/
     (DumpInput.is_OK status = false /\ qty <= 1 /\ stop = false /\
      c = Continue (DumpInput.mkState ser (addr + 1) (remaining - 1) chunk
                      (out ++ [DumpInput.ErrLine addr qty status m])))).
Proof.
  unfold DumpInput.main_body. intros H. cbv zeta.
  destruct (DumpInput.read_block ser_timeout (DumpInput.st_ser st) slave
      (DumpInput.st_addr st)
              (Z.min (DumpInput.st_chunk st) (DumpInput.st_remaining st)))
    as [[[[status m] regs] ser] | e] eqn:Hread; cbn [bind] in H; [| discriminate].
  exists status, m, regs, ser. split; [reflexivity |].
  destruct (DumpInput.is_OK status) eqn:Hok.
  - destruct regs as [rs |]; [| discriminate].
    left. exists rs. destruct status; try discriminate.
    injection H as <-. repeat split.
  - right.
    destruct (Z.ltb_spec 1 (Z.min (DumpInput.st_chunk st) (DumpInput.st_remaining st)))
      as [Hq | Hq].
    + left. injection H as <-. rewrite <- app_assoc. repeat split. exact Hq.
    + right. destruct stop.
      * left. injection H as <-. repeat split. exact Hq.
      * right. injection H as <-. repeat split. exact Hq.
Qed.

(** What every pass keeps, whatever the line does. *)
Lemma input_body_progress {D : Type} (ser_timeout : Z) (slave : Z) (stop : bool)
  (st : DumpInput.state D) (c : ctl (DumpInput.state D)) :
  1 <= DumpInput.st_chunk st -> 0 < DumpInput.st_remaining st ->
  DumpInput.main_body ser_timeout slave stop st = Ret c ->
  match c with
  | Continue st' =>
      1 <= DumpInput.st_chunk st' <= DumpInput.st_chunk st /\
      DumpInput.st_addr st <= DumpInput.st_addr st' /\
      DumpInput.st_addr st' + DumpInput.st_remaining st'
      = DumpInput.st_addr st + DumpInput.st_remaining st /\
      0 <= DumpInput.st_remaining st' /\
      DumpInput.st_remaining st' + DumpInput.st_chunk st'
      < DumpInput.st_remaining st + DumpInput.st_chunk st
  | Leave st' =>
      stop = true /\
      DumpInput.st_chunk st' = DumpInput.st_chunk st /\
      DumpInput.st_addr st' = DumpInput.st_addr st /\
      DumpInput.st_remaining st' = DumpInput.st_remaining st
  end.
Proof.
  intros Hc Hr H.
  destruct (input_body_shape ser_timeout slave stop st c H)
    as (status & m & regs & ser & _ & Hshape).
  destruct Hshape as [(rs & _ & _ & ->) | [(_ & Hq & ->) | [(_ & Hq & Hs & ->) | (_ &
      Hq & Hs & ->)]]];
    cbn [DumpInput.st_chunk DumpInput.st_addr DumpInput.st_remaining].
  - lia.
  - assert (Z.min (DumpInput.st_chunk st) (DumpInput.st_remaining st) / 2
            < Z.min (DumpInput.st_chunk st) (DumpInput.st_remaining st))
      by (apply Z.div_lt; lia).
    assert (1 <= Z.min (DumpInput.st_chunk st) (DumpInput.st_remaining st) / 2)
      by (apply Z.div_le_lower_bound; lia).
    lia.
  - repeat split. exact Hs.
  - lia.
Qed.

Lemma input_loop_invariant {D : Type} (ser_timeout : Z) (slave : Z) (stop : bool)
    (fuel : nat)
  (st st' : DumpInput.state D) :
  1 <= DumpInput.st_chunk st -> 0 <= DumpInput.st_remaining st ->
  DumpInput.main_loop ser_timeout fuel slave stop st = Ret (Some st') ->
  1 <= DumpInput.st_chunk st' <= DumpInput.st_chunk st /\
  DumpInput.st_addr st <= DumpInput.st_addr st' /\
  DumpInput.st_addr st' + DumpInput.st_remaining st'
  = DumpInput.st_addr st + DumpInput.st_remaining st /\
  0 <= DumpInput.st_remaining st' /\
  (stop = false -> DumpInput.st_remaining st' = 0).
Proof.
  revert st. induction fuel as [| fuel IH]; intros st Hc Hr H; cbn
      [DumpInput.main_loop] in H.
  - destruct (Z.ltb_spec 0 (DumpInput.st_remaining st)) as [Hlt | Hge]; [discriminate
      |].
    injection H as <-. repeat split; lia.
  - destruct (Z.ltb_spec 0 (DumpInput.st_remaining st)) as [Hlt | Hge].
    2:{ injection H as <-. repeat split; lia. }
    destruct (DumpInput.main_body ser_timeout slave stop st) as [c | e] eqn:Hbody;
      cbn [bind] in H; [| discriminate].
    pose proof (input_body_progress ser_timeout slave stop st c Hc Hlt Hbody) as Hp.
    destruct c as [st1 | st1].
    + destruct Hp as (Hc1 & Ha1 & Hs1 & Hr1 & _).
      destruct (IH st1 ltac:(lia) Hr1 H) as (Hc2 & Ha2 & Hs2 & Hr2 & Hstop).
      repeat split; try lia. exact Hstop.
    + injection H as <-. destruct Hp as (Hs & Hc1 & Ha1 & Hr1).
      repeat split; try lia. intros ->. discriminate.
Qed.

Lemma input_loop_enough_fuel {D : Type} (ser_timeout : Z) (slave : Z) (stop : bool)
    (fuel : nat)
  (st : DumpInput.state D) :
  1 <= DumpInput.st_chunk st -> 0 <= DumpInput.st_remaining st ->
  (Z.to_nat (DumpInput.st_remaining st + DumpInput.st_chunk st) <= fuel)%nat ->
  DumpInput.main_loop ser_timeout fuel slave stop st <> Ret None.
Proof.
  revert st. induction fuel as [| fuel IH]; intros st Hc Hr Hf; cbn
      [DumpInput.main_loop].
  - destruct (Z.ltb_spec 0 (DumpInput.st_remaining st)) as [Hlt | Hge]; [lia |
      discriminate].
  - destruct (Z.ltb_spec 0 (DumpInput.st_remaining st)) as [Hlt | Hge]; [|
      discriminate].
    destruct (DumpInput.main_body ser_timeout slave stop st) as [c | e] eqn:Hbody;
      cbn [bind]; [| discriminate].
    pose proof (input_body_progress ser_timeout slave stop st c Hc Hlt Hbody) as Hp.
    destruct c as [st1 | st1]; [| discriminate].
    destruct Hp as (Hc1 & _ & _ & Hr1 & Hm).
    apply IH; lia.
Qed.

Lemma input_loop_more_fuel {D : Type} (ser_timeout : Z) (slave : Z) (stop : bool)
    (fuel : nat)
  (st : DumpInput.state D) :
  DumpInput.main_loop ser_timeout fuel slave stop st <> Ret None ->
  DumpInput.main_loop ser_timeout (S fuel) slave stop st = DumpInput.main_loop
      ser_timeout fuel slave stop st.
Proof.
  revert st. induction fuel as [| fuel IH]; intros st H.
  - cbn [DumpInput.main_loop] in *.
    destruct (0 <? DumpInput.st_remaining st); [contradiction | reflexivity].
  - change (DumpInput.main_loop ser_timeout (S (S fuel)) slave stop st)
      with (if 0 <? DumpInput.st_remaining st
            then let* c := DumpInput.main_body ser_timeout slave stop st in
                 match c with
                 | Continue st' => DumpInput.main_loop ser_timeout (S fuel) slave
                     stop st'
                 | Leave st' => Ret (Some st')
                 end
            else Ret (Some st)).
    change (DumpInput.main_loop ser_timeout (S fuel) slave stop st)
      with (if 0 <? DumpInput.st_remaining st
            then let* c := DumpInput.main_body ser_timeout slave stop st in
                 match c with
                 | Continue st' => DumpInput.main_loop ser_timeout fuel slave stop st'
                 | Leave st' => Ret (Some st')
                 end
            else Ret (Some st)) in H |- *.
    destruct (0 <? DumpInput.st_remaining st); [| reflexivity].
    destruct (DumpInput.main_body ser_timeout slave stop st) as [[st1 | st1] | e];
      cbn [bind] in *; try reflexivity.
    apply IH. exact H.
Qed.

(** The loop of [main] always ends.  For a chunk of at least 1 it makes at
    most [count + chunk] passes, whatever the line does: with that much
    fuel the run is either a final state or an exception, and more fuel
    does not change it. *)
Theorem input_loop_terminates {D : Type} (ser_timeout : Z) (ser : serial D)
  (slave start count chunk : Z) (stop : bool) (extra : nat) :
  1 <= chunk -> 0 <= count ->
  DumpInput.main ser_timeout (Z.to_nat (count + chunk)) ser slave start count chunk stop
  <> Ret None /\
  DumpInput.main ser_timeout (Z.to_nat (count + chunk) + extra) ser slave start count
      chunk stop
  = DumpInput.main ser_timeout (Z.to_nat (count + chunk)) ser slave start count chunk
      stop.
Proof.
  intros Hc Hn. unfold DumpInput.main.
  assert (Hbase : DumpInput.main_loop ser_timeout (Z.to_nat (count + chunk)) slave stop
                    (DumpInput.mkState ser start count chunk []) <> Ret None).
  { apply input_loop_enough_fuel;
      cbn [DumpInput.st_chunk DumpInput.st_remaining]; lia. }
  split; [exact Hbase |].
  induction extra as [| extra IH].
  - rewrite Nat.add_0_r. reflexivity.
  - rewrite Nat.add_succ_r, input_loop_more_fuel; [exact IH |].
    rewrite IH. exact Hbase.
Qed.

Lemma input_loop_terminates_witness :
  DumpInput.main 1000 (Z.to_nat (8 + 8)) (open_port tt silent) 1 101 8 8 false
  <> Ret None /\
  DumpInput.main 1000 (Z.to_nat (8 + 8) + 5) (open_port tt silent) 1 101 8 8 false
  = DumpInput.main 1000 (Z.to_nat (8 + 8)) (open_port tt silent) 1 101 8 8 false.
Proof.
  apply (input_loop_terminates 1000 (open_port tt silent) 1 101 8 8 false 5); lia.
Defined.

(** Whatever the line does, a finished run of the loop of [main] has kept
    the cursor inside the range ([addr + remaining] is constant), and its
    chunk size is at least 1 and at most the chunk size it started with:
    [args.chunk] is only ever assigned a halved quantity, so it never grows
    back.  Without [--stop-on-illegal] the run ends with the whole range
    visited. *)
Theorem input_loop_chunk_never_grows {D : Type} (ser_timeout : Z) (fuel : nat) (ser :
    serial D)
  (slave start count chunk : Z) (stop : bool) (st : DumpInput.state D) :
  1 <= chunk -> 0 <= count ->
  DumpInput.main ser_timeout fuel ser slave start count chunk stop = Ret (Some st) ->
  1 <= DumpInput.st_chunk st <= chunk /\
  start <= DumpInput.st_addr st <= start + count /\
  DumpInput.st_addr st + DumpInput.st_remaining st = start + count /\
  (stop = false -> DumpInput.st_addr st = start + count).
Proof.
  intros Hc Hn H. unfold DumpInput.main in H.
  apply input_loop_invariant in H;
    cbn [DumpInput.st_chunk DumpInput.st_remaining DumpInput.st_addr] in *; try lia.
  destruct H as (H1 & H2 & H3 & H4 & H5).
  repeat split; try lia. intros Hs. specialize (H5 Hs). lia.
Qed.

Lemma input_loop_chunk_never_grows_witness :
  1 <= DumpInput.st_chunk
         (DumpInput.mkState
            (mkSerial []
               [with_crc [x01; x04; x00; x00; x00; x02];
                with_crc [x01; x04; x00; x00; x00; x01];
                with_crc [x01; x04; x00; x01; x00; x01]] tt silent)
            2 0 1
            [DumpInput.ErrLine 0 2 DumpInput.TIMEOUT_OR_SHORT
               (Some (DumpInput.NeedGot 3 0));
             DumpInput.RetryLine 1;
             DumpInput.ErrLine 0 1 DumpInput.TIMEOUT_OR_SHORT
               (Some (DumpInput.NeedGot 3 0));
             DumpInput.ErrLine 1 1 DumpInput.TIMEOUT_OR_SHORT
               (Some (DumpInput.NeedGot 3 0))]) <= 2 /\
  0 <= 2 <= 0 + 2 /\
  2 + 0 = 0 + 2 /\
  (false = false -> 2 = 0 + 2).
Proof.
  apply (input_loop_chunk_never_grows 1000 4 (open_port tt silent) 1 0 2 2 false).
  - lia.
  - lia.
  - vm_compute. reflexivity.
Defined.

(** One failed pass with more than one register: the bisection step. *)
Theorem input_bisect_step {D : Type} (ser_timeout : Z) (slave : Z) (stop : bool)
  (st : DumpInput.state D) (status : DumpInput.status)
  (m : option DumpInput.msg) (regs : option (list Z)) (ser : serial D) :
  let addr := DumpInput.st_addr st in
  let remaining := DumpInput.st_remaining st in
  let qty := Z.min (DumpInput.st_chunk st) remaining in
  1 < qty ->
  DumpInput.read_block ser_timeout (DumpInput.st_ser st) slave addr qty
  = Ret ((status, m, regs), ser) ->
  DumpInput.is_OK status = false ->
  exists st',
    DumpInput.main_body ser_timeout slave stop st = Ret (Continue st') /\
    DumpInput.st_ser st' = ser /\
    DumpInput.st_addr st' = addr /\
    DumpInput.st_remaining st' = remaining /\
    DumpInput.st_chunk st' = qty / 2 /\
    Z.min (DumpInput.st_chunk st') (DumpInput.st_remaining st') = qty / 2 /\
    1 <= qty / 2 < qty /\
    DumpInput.printed (DumpInput.st_out st') = DumpInput.printed (DumpInput.st_out st).
Proof.
  intros addr remaining qty Hq Hread Hok. subst addr remaining qty.
  assert (Hhalf : 1 <= Z.min (DumpInput.st_chunk st) (DumpInput.st_remaining st) / 2)
    by (apply Z.div_le_lower_bound; lia).
  assert (Hlt : Z.min (DumpInput.st_chunk st) (DumpInput.st_remaining st) / 2
                < Z.min (DumpInput.st_chunk st) (DumpInput.st_remaining st))
    by (apply Z.div_lt; lia).
  unfold DumpInput.main_body. rewrite Hread. cbn [bind]. rewrite Hok.
  destruct (Z.ltb_spec 1 (Z.min (DumpInput.st_chunk st) (DumpInput.st_remaining st)))
    as [_ | ?]; [| lia].
  eexists. split; [reflexivity |].
  cbn [DumpInput.st_ser DumpInput.st_addr DumpInput.st_remaining
         DumpInput.st_chunk DumpInput.st_out].
  rewrite Z.max_r by lia.
  repeat apply conj; try reflexivity; try lia.
  rewrite !input_printed_app. cbn [DumpInput.printed]. rewrite !app_nil_r. reflexivity.
Qed.

Lemma input_bisect_step_witness :
  exists st',
    DumpInput.main_body 1000 1 false
      (DumpInput.mkState (open_port tt silent) 101 8 8 [])
    = Ret (Continue st') /\
    DumpInput.st_ser st'
    = mkSerial [] [with_crc [x01; x04; x00; x65; x00; x08]] tt silent /\
    DumpInput.st_addr st' = 101 /\
    DumpInput.st_remaining st' = 8 /\
    DumpInput.st_chunk st' = Z.min 8 8 / 2 /\
    Z.min (DumpInput.st_chunk st') (DumpInput.st_remaining st') = Z.min 8 8 / 2 /\
    1 <= Z.min 8 8 / 2 < Z.min 8 8 /\
    DumpInput.printed (DumpInput.st_out st') = DumpInput.printed [].
Proof.
  apply (input_bisect_step 1000 1 false
           (DumpInput.mkState (open_port tt silent) 101 8 8 [])
           DumpInput.TIMEOUT_OR_SHORT (Some (DumpInput.NeedGot 3 0)) None
           (mkSerial [] [with_crc [x01; x04; x00; x65; x00; x08]] tt silent)).
  - vm_compute. reflexivity.
  - vm_compute. reflexivity.
  - reflexivity.
Defined.

(** The run of the loop against a responder that serves [value a] for every
    address outside [bad] and fails every read that touches [bad]. *)
Lemma input_run {D : Type} (ser_timeout : Z) (r : D -> list byte -> list (option
    byte) * D)
  (slave start count chunk : Z) (bad : Z -> bool) (value : Z -> Z) (stop : bool) :
  (forall s a q,
      respond s = r -> start <= a -> 1 <= q -> q <= chunk ->
      a + q <= start + count ->
      exists res s',
        DumpInput.read_block ser_timeout s slave a q = Ret (res, s') /\
        if covers bad a q then DumpInput.is_OK (fst (fst res)) = false
        else res = (DumpInput.OK, None, Some (map value (seqZ a q)))) ->
  forall (fuel : nat) (st : DumpInput.state D),
    respond (DumpInput.st_ser st) = r ->
    1 <= DumpInput.st_chunk st <= chunk ->
    0 <= DumpInput.st_remaining st ->
    DumpInput.st_addr st + DumpInput.st_remaining st = start + count ->
    start <= DumpInput.st_addr st ->
    DumpInput.printed (DumpInput.st_out st)
    = served bad value start (DumpInput.st_addr st) ->
    (stop = true -> covers bad start (DumpInput.st_addr st - start) = false) ->
    (Z.to_nat (DumpInput.st_remaining st + DumpInput.st_chunk st) <= fuel)%nat ->
    exists st',
      DumpInput.main_loop ser_timeout fuel slave stop st = Ret (Some st') /\
      DumpInput.printed (DumpInput.st_out st')
      = served bad value start (DumpInput.st_addr st') /\
      DumpInput.st_addr st' + DumpInput.st_remaining st' = start + count /\
      (stop = true -> covers bad start (DumpInput.st_addr st' - start) = false) /\
      (DumpInput.st_remaining st' = 0 \/
       (stop = true /\ 0 < DumpInput.st_remaining st' /\
        bad (DumpInput.st_addr st') = true /\
        last (DumpInput.st_out st') = Some (DumpInput.Stopping (DumpInput.st_addr
            st')))).
Proof.
  intros Hdev fuel.
  induction fuel as [| fuel IH]; intros st Hr Hc Hrem Hsum Hlo Hout Hclean Hfuel;
    cbn [DumpInput.main_loop].
  - destruct (Z.ltb_spec 0 (DumpInput.st_remaining st)) as [? | Hz]; [lia |].
    exists st. repeat apply conj; try assumption; try reflexivity. left. lia.
  - destruct (Z.ltb_spec 0 (DumpInput.st_remaining st)) as [Hpos | Hz].
    2:{ exists st. repeat apply conj; try assumption; try reflexivity. left. lia. }
    destruct st as [ser addr remaining chk out].
    cbn [DumpInput.st_ser DumpInput.st_addr DumpInput.st_remaining
           DumpInput.st_chunk DumpInput.st_out] in *.
    set (qty := Z.min chk remaining).
    assert (Hq : 1 <= qty <= chk /\ qty <= remaining) by (subst qty; lia).
    destruct (Hdev ser addr qty Hr Hlo ltac:(lia) ltac:(lia) ltac:(lia))
      as (res & s' & Hread & Hres).
    destruct (read_block_port _ _ _ _ _ _ _ Hread) as (_ & _ & _ & Hr').
    rewrite Hr in Hr'.
    unfold DumpInput.main_body.
    cbn [DumpInput.st_ser DumpInput.st_addr DumpInput.st_remaining
           DumpInput.st_chunk DumpInput.st_out].
    fold qty. rewrite Hread. cbn [bind].
    destruct (covers bad addr qty) eqn:Hcov.
    + destruct res as [[status m] regs]. cbn [fst] in Hres. rewrite Hres.
      destruct (Z.ltb_spec 1 qty) as [Hbig | Hone].
      * assert (1 <= qty / 2) by (apply Z.div_le_lower_bound; lia).
        assert (qty / 2 < qty) by (apply Z.div_lt; lia).
        apply IH;
          cbn [DumpInput.st_ser DumpInput.st_addr DumpInput.st_remaining
                 DumpInput.st_chunk DumpInput.st_out];
          try assumption; try lia.
        rewrite !input_printed_app. cbn [DumpInput.printed].
        rewrite !app_nil_r. exact Hout.
      * assert (qty = 1) by lia.
        assert (Hbad : bad addr = true)
          by (rewrite <- covers_one; congruence).
        destruct stop.
        -- eexists. split; [reflexivity |].
           cbn [DumpInput.st_ser DumpInput.st_addr DumpInput.st_remaining
                  DumpInput.st_chunk DumpInput.st_out].
           repeat apply conj.
           ++ rewrite !input_printed_app. cbn [DumpInput.printed].
              rewrite !app_nil_r. exact Hout.
           ++ exact Hsum.
           ++ exact Hclean.
           ++ right. repeat apply conj; try reflexivity; try lia; try assumption.
              apply last_snoc.
        -- apply IH;
             cbn [DumpInput.st_ser DumpInput.st_addr DumpInput.st_remaining
                    DumpInput.st_chunk DumpInput.st_out];
             try assumption; try lia.
           rewrite input_printed_app. cbn [DumpInput.printed].
           rewrite app_nil_r, served_extend_bad by assumption. exact Hout.
    + subst res. cbn [DumpInput.is_OK].
      apply IH;
        cbn [DumpInput.st_ser DumpInput.st_addr DumpInput.st_remaining
               DumpInput.st_chunk DumpInput.st_out];
        try assumption; try lia.
      * rewrite input_printed_app, input_printed_reg_lines, enumerate_from_seqZ.
        rewrite served_extend_good by (try assumption; lia).
        rewrite Hout. reflexivity.
      * intros Hs. replace (addr + qty - start) with ((addr - start) + qty) by lia.
        apply covers_join; try lia.
        -- apply Hclean. exact Hs.
        -- replace (start + (addr - start)) with addr by lia. exact Hcov.
Qed.

(** Without [--stop-on-illegal]: against a responder that fails every read
    touching an address of [bad] and serves all others, the loop ends
    having printed exactly the addresses of the range that are not in
    [bad], each once, in ascending order, with their values. *)
Theorem input_skips_exactly_the_bad_addresses {D : Type} (ser_timeout : Z)
  (r : D -> list byte -> list (option byte) * D) (ser : serial D)
  (slave start count chunk : Z) (bad : Z -> bool) (value : Z -> Z) :
  1 <= chunk -> 0 <= count -> respond ser = r ->
  (forall s a q,
      respond s = r -> start <= a -> 1 <= q -> q <= chunk ->
      a + q <= start + count ->
      exists res s',
        DumpInput.read_block ser_timeout s slave a q = Ret (res, s') /\
        if covers bad a q then DumpInput.is_OK (fst (fst res)) = false
        else res = (DumpInput.OK, None, Some (map value (seqZ a q)))) ->
  exists st,
    DumpInput.main ser_timeout (Z.to_nat (count + chunk)) ser slave start count chunk
        false
    = Ret (Some st) /\
    DumpInput.printed (DumpInput.st_out st)
    = served bad value start (start + count) /\
    DumpInput.st_addr st = start + count /\
    DumpInput.st_remaining st = 0.
Proof.
  intros Hc Hn Hr Hdev. unfold DumpInput.main.
  destruct (input_run ser_timeout r slave start count chunk bad value false Hdev
              (Z.to_nat (count + chunk))
              (DumpInput.mkState ser start count chunk []))
    as (st & Hrun & Hout & Hsum & _ & Hend);
    cbn [DumpInput.st_ser DumpInput.st_addr DumpInput.st_remaining
           DumpInput.st_chunk DumpInput.st_out];
    try assumption; try lia.
  - rewrite served_empty. reflexivity.
  - exists st. destruct Hend as [Hz | (Hs & _)]; [| discriminate].
    assert (Ha : DumpInput.st_addr st = start + count) by lia.
    rewrite Ha in Hout. repeat apply conj; assumption.
Qed.

(** With [--stop-on-illegal]: the loop stops at the first address of [bad]
    in the range.  Everything before it has been printed, nothing at or
    after it, and the last line says where it stopped.  If the range has no
    address of [bad] the whole range is printed. *)
Theorem input_stops_at_first_bad_address {D : Type} (ser_timeout : Z)
  (r : D -> list byte -> list (option byte) * D) (ser : serial D)
  (slave start count chunk : Z) (bad : Z -> bool) (value : Z -> Z) :
  1 <= chunk -> 0 <= count -> respond ser = r ->
  (forall s a q,
      respond s = r -> start <= a -> 1 <= q -> q <= chunk ->
      a + q <= start + count ->
      exists res s',
        DumpInput.read_block ser_timeout s slave a q = Ret (res, s') /\
        if covers bad a q then DumpInput.is_OK (fst (fst res)) = false
        else res = (DumpInput.OK, None, Some (map value (seqZ a q)))) ->
  exists st,
    DumpInput.main ser_timeout (Z.to_nat (count + chunk)) ser slave start count chunk
        true
    = Ret (Some st) /\
    DumpInput.printed (DumpInput.st_out st)
    = map (fun a => (a, value a)) (seqZ start (DumpInput.st_addr st - start)) /\
    (forall a, start <= a < DumpInput.st_addr st -> bad a = false) /\
    (DumpInput.st_addr st = start + count \/
     (DumpInput.st_addr st < start + count /\
      bad (DumpInput.st_addr st) = true /\
      last (DumpInput.st_out st)
      = Some (DumpInput.Stopping (DumpInput.st_addr st)))).
Proof.
  intros Hc Hn Hr Hdev. unfold DumpInput.main.
  destruct (input_run ser_timeout r slave start count chunk bad value true Hdev
              (Z.to_nat (count + chunk))
              (DumpInput.mkState ser start count chunk []))
    as (st & Hrun & Hout & Hsum & Hclean & Hend);
    cbn [DumpInput.st_ser DumpInput.st_addr DumpInput.st_remaining
           DumpInput.st_chunk DumpInput.st_out];
    try assumption; try lia.
  - rewrite served_empty. reflexivity.
  - intros _. rewrite Z.sub_diag. reflexivity.
  - exists st. specialize (Hclean eq_refl).
    repeat apply conj.
    + exact Hrun.
    + rewrite Hout. apply served_all_good. exact Hclean.
    + intros a Ha. rewrite covers_false in Hclean. apply Hclean. lia.
    + destruct Hend as [Hz | (_ & Hpos & Hbad & Hlast)].
      * left. lia.
      * right. repeat apply conj; try assumption. lia.
Qed.

(** ** A small responder with one illegal address *)

Lemma read_block_exception_frame {D : Type} (ser_timeout : Z) (ser : serial D)
  (slave start qty : Z) (req : list byte) (a f code lo hi : byte)
  (tail : list (option byte)) (d' : D) :
  0 <= ser_timeout ->
  DumpInput.build_req slave start qty = Ret req ->
  Z.land (byte_val f) 0x80 <> 0 ->
  respond ser (dev ser) req = (map Some ([a; f; code] ++ [lo; hi]) ++ tail, d') ->
  exists m,
    DumpInput.read_block ser_timeout ser slave start qty
    = Ret ((DumpInput.EXCEPTION, Some m, None),
           mkSerial tail (sent ser ++ [req]) d' (respond ser)).
Proof.
  intros Ht Hreq Hf Hresp.
  destruct (input_collect_header_payload ser_timeout ser req a f code [lo; hi] tail
              d' 2 Ht Hresp eq_refl) as (s1 & Hhead & Hrest).
  destruct (input_readers_exception_aux ser_timeout ser slave start qty 0 req a f
              code [lo; hi] s1
              (mkSerial tail (sent ser ++ [req]) d' (respond ser)) Hreq Hf)
    as (_ & Hinput).
  destruct (Hinput Hhead Hrest) as (m & Hm & _).
  exists m. exact Hm.
Qed.

Lemma read_holding_chunk_exception_frame {D : Type} (ser : serial D)
  (slave start qty : Z) (req : list byte) (a f code lo hi : byte)
  (tail : list (option byte)) (d' : D) :
  DumpHolding.build_read_holding_req slave start qty = Ret req ->
  byte_val a = Z.land slave 0xFF ->
  Z.land (byte_val f) 0x80 <> 0 ->
  respond ser (dev ser) req = (map Some ([a; f] ++ [code; lo; hi]) ++ tail, d') ->
  exists err,
    DumpHolding.read_holding_chunk ser slave start qty
    = Ret ((None, Some err), mkSerial tail (sent ser ++ [req]) d' (respond ser)).
Proof.
  intros Hreq Ha Hf Hresp.
  assert (Hhead : read_exact (ser_write (reset_input_buffer ser) req) 2
                  = ([a; f],
                     mkSerial (map Some [code; lo; hi] ++ tail) (sent ser ++ [req]) d'
                       (respond ser))).
  { rewrite (ser_write_fresh ser req _ d' Hresp).
    rewrite (read_exact_available _ 2 [a; f] (map Some [code; lo; hi] ++ tail));
      reflexivity. }
  assert (Hrest : read_exact
                    (mkSerial (map Some [code; lo; hi] ++ tail) (sent ser ++ [req]) d'
                       (respond ser)) 3
                  = ([code; lo; hi],
                     mkSerial tail (sent ser ++ [req]) d' (respond ser))).
  { rewrite (read_exact_available _ 3 [code; lo; hi] tail); reflexivity. }
  destruct (read_holding_chunk_exception_aux ser slave start qty req a f
              [code; lo; hi] _ _ Hreq Hhead Ha Hf Hrest) as (err & Herr & _).
  exists err. exact Herr.
Qed.

(** The responder [inverter] with address 1 illegal and every register
    holding its own address, seen through [read_block] on the range 0..1. *)
Lemma inverter_read_block_small (s : serial unit) (a q : Z) :
  respond s = inverter (Z.eqb 1) id ->
  0 <= a -> 1 <= q -> q <= 2 -> a + q <= 0 + 2 ->
  exists res s',
    DumpInput.read_block 1000 s 1 a q = Ret (res, s') /\
    if covers (Z.eqb 1) a q then DumpInput.is_OK (fst (fst res)) = false
    else res = (DumpInput.OK, None, Some (map id (seqZ a q))).
Proof.
  intros Hr Ha Hq1 Hq2 Hend.
  assert (Hcase : (a = 0 /\ q = 1) \/ (a = 0 /\ q = 2) \/ (a = 1 /\ q = 1)) by lia.
  destruct Hcase as [[-> ->] | [[-> ->] | [-> ->]]].
  - eexists. eexists. split.
    + apply (read_block_well_formed 1000 s 1 0 1
               (with_crc [x01; x04; x00; x00; x00; x01]) [x00; x00] x01 x04 [] tt).
      * lia.
      * vm_compute. reflexivity.
      * reflexivity.
      * lia.
      * reflexivity.
      * rewrite Hr. vm_compute. reflexivity.
    + vm_compute. reflexivity.
  - destruct (read_block_exception_frame 1000 s 1 0 2
                (with_crc [x01; x04; x00; x00; x00; x02]) x01 x84 x02 xc2 xc1 [] tt)
      as (m & Hm).
    + lia.
    + vm_compute. reflexivity.
    + vm_compute. discriminate.
    + rewrite Hr. vm_compute. reflexivity.
    + eexists. eexists. split; [exact Hm |]. reflexivity.
  - destruct (read_block_exception_frame 1000 s 1 1 1
                (with_crc [x01; x04; x00; x01; x00; x01]) x01 x84 x02 xc2 xc1 [] tt)
      as (m & Hm).
    + lia.
    + vm_compute. reflexivity.
    + vm_compute. discriminate.
    + rewrite Hr. vm_compute. reflexivity.
    + eexists. eexists. split; [exact Hm |]. reflexivity.
Qed.

Lemma input_skips_exactly_the_bad_addresses_witness :
  exists st,
    DumpInput.main 1000 (Z.to_nat (2 + 2)) (open_port tt (inverter (Z.eqb 1) id)) 1 0
        2 2 false
    = Ret (Some st) /\
    DumpInput.printed (DumpInput.st_out st) = served (Z.eqb 1) id 0 (0 + 2) /\
    DumpInput.st_addr st = 0 + 2 /\
    DumpInput.st_remaining st = 0.
Proof.
  apply (input_skips_exactly_the_bad_addresses 1000 (inverter (Z.eqb 1) id)
           (open_port tt (inverter (Z.eqb 1) id)) 1 0 2 2 (Z.eqb 1) id).
  - lia.
  - lia.
  - reflexivity.
  - apply inverter_read_block_small.
Defined.

Lemma input_stops_at_first_bad_address_witness :
  exists st,
    DumpInput.main 1000 (Z.to_nat (2 + 2)) (open_port tt (inverter (Z.eqb 1) id)) 1 0
        2 2 true
    = Ret (Some st) /\
    DumpInput.printed (DumpInput.st_out st)
    = map (fun a => (a, id a)) (seqZ 0 (DumpInput.st_addr st - 0)) /\
    (forall a, 0 <= a < DumpInput.st_addr st -> (1 =? a) = false) /\
    (DumpInput.st_addr st = 0 + 2 \/
     (DumpInput.st_addr st < 0 + 2 /\
      (1 =? DumpInput.st_addr st) = true /\
      last (DumpInput.st_out st)
      = Some (DumpInput.Stopping (DumpInput.st_addr st)))).
Proof.
  apply (input_stops_at_first_bad_address 1000 (inverter (Z.eqb 1) id)
           (open_port tt (inverter (Z.eqb 1) id)) 1 0 2 2 (Z.eqb 1) id).
  - lia.
  - lia.
  - reflexivity.
  - apply inverter_read_block_small.
Defined.

(** ** The loop of [modbus_dump_holding.py] *)

Lemma holding_printed_app (out1 out2 : list DumpHolding.event) :
  DumpHolding.printed (out1 ++ out2)
  = DumpHolding.printed out1 ++ DumpHolding.printed out2.
Proof.
  induction out1 as [| e out1 IH]; [reflexivity |].
  destruct e; cbn [app DumpHolding.printed]; rewrite IH; reflexivity.
Qed.

Lemma holding_printed_reg_lines (addr : Z) (regs : list Z) :
  DumpHolding.printed (DumpHolding.reg_lines addr regs) = enumerate_from addr regs.
Proof.
  unfold DumpHolding.reg_lines.
  induction (enumerate_from addr regs) as [| [a v] l IH]; [reflexivity |].
  cbn [map DumpHolding.printed fst snd]. rewrite IH. reflexivity.
Qed.

Lemma holding_printed_note_retry (quiet : bool) (out : list DumpHolding.event)
  (addr qty : Z) (err : DumpHolding.error) (new_qty : Z) :
  DumpHolding.printed
    (DumpHolding.note quiet out (DumpHolding.ErrRetry addr qty err new_qty))
  = DumpHolding.printed out.
Proof.
  unfold DumpHolding.note. destruct quiet; [reflexivity |].
  rewrite holding_printed_app. cbn [DumpHolding.printed]. apply app_nil_r.
Qed.

Lemma holding_printed_note_one (quiet : bool) (out : list DumpHolding.event)
  (addr : Z) (err : DumpHolding.error) :
  DumpHolding.printed (DumpHolding.note quiet out (DumpHolding.ErrOne addr err))
  = DumpHolding.printed out.
Proof.
  unfold DumpHolding.note. destruct quiet; [reflexivity |].
  rewrite holding_printed_app. cbn [DumpHolding.printed]. apply app_nil_r.
Qed.

(** The ways one pass of [while addr < end] can go. *)
Lemma holding_body_shape {D : Type} (slave end_ : Z) (stop quiet : bool)
  (st : DumpHolding.state D) (c : ctl (DumpHolding.state D)) :
  DumpHolding.dump_range_body slave end_ stop quiet st = Ret c ->
  let addr := DumpHolding.st_addr st in
  let chunk := DumpHolding.st_chunk st in
  let out := DumpHolding.st_out st in
  let qty := Z.min chunk (end_ - addr) in
  let new_qty := Z.max 1 (qty / 2) in
  exists regs err ser1,
    DumpHolding.read_holding_chunk (DumpHolding.st_ser st) slave addr qty
    = Ret ((regs, err), ser1) /\
    ((exists rs,
         regs = Some rs /\ err = None /\
         c = Continue (DumpHolding.mkState ser1 (addr + qty) chunk
                         (out ++ DumpHolding.reg_lines addr rs))) \/
     (exists e regs2 err2 ser2,
         err = Some e /\ 1 < qty /\
         DumpHolding.read_holding_chunk ser1 slave addr new_qty
         = Ret ((regs2, err2), ser2) /\
         ((exists rs2,
              regs2 = Some rs2 /\ err2 = None /\
              c = Continue
                    (DumpHolding.mkState ser2 (addr + new_qty)
                       (Z.max 1 (Z.min chunk qty))
                       (DumpHolding.note quiet out
                          (DumpHolding.ErrRetry addr qty e new_qty)
                          ++ DumpHolding.reg_lines addr rs2))) \/
          (exists e2,
              err2 = Some e2 /\
              c = Continue
                    (DumpHolding.mkState ser2 addr (Z.max 1 new_qty)
                       (DumpHolding.note quiet out
                          (DumpHolding.ErrRetry addr qty e new_qty)))))) \/
     (exists e,
         err = Some e /\ qty <= 1 /\ stop = true /\
         c = Leave (DumpHolding.mkState ser1 addr chunk
                      (DumpHolding.note quiet out (DumpHolding.ErrOne addr e)
                         ++ [DumpHolding.Stopping addr]))) \/
     (exists e,
         err = Some e /\ qty <= 1 /\ stop = false /\
         c = Continue (DumpHolding.mkState ser1 (addr + 1) chunk
                         (DumpHolding.note quiet out (DumpHolding.ErrOne addr e))))).
Proof.
  unfold DumpHolding.dump_range_body. intros H. cbv zeta.
  destruct (DumpHolding.read_holding_chunk (DumpHolding.st_ser st) slave
              (DumpHolding.st_addr st)
              (Z.min (DumpHolding.st_chunk st) (end_ - DumpHolding.st_addr st)))
    as [[[regs err] ser1] | ex] eqn:Hread; cbn [bind] in H; [| discriminate].
  exists regs, err, ser1. split; [reflexivity |].
  destruct err as [e |].
  - right.
    destruct (Z.ltb_spec 1 (Z.min (DumpHolding.st_chunk st)
                              (end_ - DumpHolding.st_addr st))) as [Hq | Hq].
    + left.
      destruct (DumpHolding.read_holding_chunk ser1 slave (DumpHolding.st_addr st)
                  (Z.max 1 (Z.min (DumpHolding.st_chunk st)
                              (end_ - DumpHolding.st_addr st) / 2)))
        as [[[regs2 err2] ser2] | ex] eqn:Hread2; cbn [bind] in H; [| discriminate].
      exists e, regs2, err2, ser2. repeat split; try assumption.
      destruct err2 as [e2 |].
      * right. exists e2. injection H as <-. split; reflexivity.
      * destruct regs2 as [rs2 |]; [| discriminate].
        left. exists rs2. injection H as <-. repeat split.
    + right. destruct stop.
      * left. exists e. injection H as <-. repeat split. exact Hq.
      * right. exists e. injection H as <-. repeat split. exact Hq.
  - destruct regs as [rs |]; [| discriminate].
    left. exists rs. injection H as <-. repeat split.
Qed.

(** What every pass keeps, whatever the line does. *)
Lemma holding_body_progress {D : Type} (slave end_ : Z) (stop quiet : bool)
  (st : DumpHolding.state D) (c : ctl (DumpHolding.state D)) :
  1 <= DumpHolding.st_chunk st -> DumpHolding.st_addr st < end_ ->
  DumpHolding.dump_range_body slave end_ stop quiet st = Ret c ->
  match c with
  | Continue st' =>
      1 <= DumpHolding.st_chunk st' <= DumpHolding.st_chunk st /\
      DumpHolding.st_addr st <= DumpHolding.st_addr st' <= end_ /\
      (end_ - DumpHolding.st_addr st') + DumpHolding.st_chunk st'
      < (end_ - DumpHolding.st_addr st) + DumpHolding.st_chunk st
  | Leave st' =>
      stop = true /\
      DumpHolding.st_chunk st' = DumpHolding.st_chunk st /\
      DumpHolding.st_addr st' = DumpHolding.st_addr st
  end.
Proof.
  intros Hc Ha H.
  destruct (holding_body_shape slave end_ stop quiet st c H)
    as (regs & err & ser1 & _ & Hshape).
  set (qty := Z.min (DumpHolding.st_chunk st) (end_ - DumpHolding.st_addr st)) in *.
  assert (Hq : 1 <= qty <= DumpHolding.st_chunk st /\ qty <= end_ -
      DumpHolding.st_addr st)
    by (subst qty; lia).
  destruct Hshape
    as [(rs & _ & _ & ->)
       | [(e & regs2 & err2 & ser2 & _ & Hbig & _ &
           [(rs2 & _ & _ & ->) | (e2 & _ & ->)])
         | [(e & _ & Hone & Hs & ->) | (e & _ & Hone & Hs & ->)]]];
    cbn [DumpHolding.st_chunk DumpHolding.st_addr].
  - lia.
  - assert (1 <= qty / 2) by (apply Z.div_le_lower_bound; lia).
    assert (qty / 2 < qty) by (apply Z.div_lt; lia).
    lia.
  - assert (1 <= qty / 2) by (apply Z.div_le_lower_bound; lia).
    assert (qty / 2 < qty) by (apply Z.div_lt; lia).
    lia.
  - repeat split. exact Hs.
  - lia.
Qed.

Lemma holding_loop_invariant {D : Type} (slave end_ : Z) (stop quiet : bool)
  (fuel : nat) (st st' : DumpHolding.state D) :
  1 <= DumpHolding.st_chunk st -> DumpHolding.st_addr st <= end_ ->
  DumpHolding.dump_range_loop fuel slave end_ stop quiet st = Ret (Some st') ->
  1 <= DumpHolding.st_chunk st' <= DumpHolding.st_chunk st /\
  DumpHolding.st_addr st <= DumpHolding.st_addr st' <= end_ /\
  (stop = false -> DumpHolding.st_addr st' = end_).
Proof.
  revert st. induction fuel as [| fuel IH]; intros st Hc Ha H;
    cbn [DumpHolding.dump_range_loop] in H.
  - destruct (Z.ltb_spec (DumpHolding.st_addr st) end_) as [Hlt | Hge]; [discriminate
      |].
    injection H as <-. repeat split; lia.
  - destruct (Z.ltb_spec (DumpHolding.st_addr st) end_) as [Hlt | Hge].
    2:{ injection H as <-. repeat split; lia. }
    destruct (DumpHolding.dump_range_body slave end_ stop quiet st) as [c | e]
        eqn:Hbody;
      cbn [bind] in H; [| discriminate].
    pose proof (holding_body_progress slave end_ stop quiet st c Hc Hlt Hbody) as Hp.
    destruct c as [st1 | st1].
    + destruct Hp as (Hc1 & Ha1 & _).
      destruct (IH st1 ltac:(lia) ltac:(lia) H) as (Hc2 & Ha2 & Hstop).
      repeat split; try lia. exact Hstop.
    + injection H as <-. destruct Hp as (Hs & Hc1 & Ha1).
      repeat split; try lia. intros ->. discriminate.
Qed.

Lemma holding_loop_enough_fuel {D : Type} (slave end_ : Z) (stop quiet : bool)
  (fuel : nat) (st : DumpHolding.state D) :
  1 <= DumpHolding.st_chunk st ->
  (Z.to_nat ((end_ - DumpHolding.st_addr st) + DumpHolding.st_chunk st) <= fuel)%nat ->
  DumpHolding.dump_range_loop fuel slave end_ stop quiet st <> Ret None.
Proof.
  revert st. induction fuel as [| fuel IH]; intros st Hc Hf;
    cbn [DumpHolding.dump_range_loop].
  - destruct (Z.ltb_spec (DumpHolding.st_addr st) end_) as [Hlt | Hge];
      [lia | discriminate].
  - destruct (Z.ltb_spec (DumpHolding.st_addr st) end_) as [Hlt | Hge]; [|
      discriminate].
    destruct (DumpHolding.dump_range_body slave end_ stop quiet st) as [c | e]
        eqn:Hbody;
      cbn [bind]; [| discriminate].
    pose proof (holding_body_progress slave end_ stop quiet st c Hc Hlt Hbody) as Hp.
    destruct c as [st1 | st1]; [| discriminate].
    destruct Hp as (Hc1 & _ & Hm).
    apply IH; lia.
Qed.

Lemma holding_loop_more_fuel {D : Type} (slave end_ : Z) (stop quiet : bool)
  (fuel : nat) (st : DumpHolding.state D) :
  DumpHolding.dump_range_loop fuel slave end_ stop quiet st <> Ret None ->
  DumpHolding.dump_range_loop (S fuel) slave end_ stop quiet st
  = DumpHolding.dump_range_loop fuel slave end_ stop quiet st.
Proof.
  revert st. induction fuel as [| fuel IH]; intros st H.
  - cbn [DumpHolding.dump_range_loop] in *.
    destruct (DumpHolding.st_addr st <? end_); [contradiction | reflexivity].
  - change (DumpHolding.dump_range_loop (S (S fuel)) slave end_ stop quiet st)
      with (if DumpHolding.st_addr st <? end_
            then let* c := DumpHolding.dump_range_body slave end_ stop quiet st in
                 match c with
                 | Continue st' =>
                     DumpHolding.dump_range_loop (S fuel) slave end_ stop quiet st'
                 | Leave st' => Ret (Some st')
                 end
            else Ret (Some st)).
    change (DumpHolding.dump_range_loop (S fuel) slave end_ stop quiet st)
      with (if DumpHolding.st_addr st <? end_
            then let* c := DumpHolding.dump_range_body slave end_ stop quiet st in
                 match c with
                 | Continue st' =>
                     DumpHolding.dump_range_loop fuel slave end_ stop quiet st'
                 | Leave st' => Ret (Some st')
                 end
            else Ret (Some st)) in H |- *.
    destruct (DumpHolding.st_addr st <? end_); [| reflexivity].
    destruct (DumpHolding.dump_range_body slave end_ stop quiet st) as [[st1 | st1] |
        e];
      cbn [bind] in *; try reflexivity.
    apply IH. exact H.
Qed.

(** Whatever the line does, a finished [dump_range] has kept the cursor
    inside the range and its chunk size is at least 1 and at most the one
    it was called with: the chunk forced down in a failing zone is never
    raised again.  Without [stop_on_illegal] it ends with the whole range
    visited. *)
Theorem holding_loop_chunk_never_grows {D : Type} (fuel : nat) (ser : serial D)
  (slave start count chunk : Z) (stop quiet : bool) (st : DumpHolding.state D) :
  1 <= chunk -> 0 <= count ->
  DumpHolding.dump_range fuel ser slave start count chunk stop quiet = Ret (Some st) ->
  1 <= DumpHolding.st_chunk st <= chunk /\
  start <= DumpHolding.st_addr st <= start + count /\
  (stop = false -> DumpHolding.st_addr st = start + count).
Proof.
  intros Hc Hn H. unfold DumpHolding.dump_range in H. cbv zeta in H.
  apply holding_loop_invariant in H;
    cbn [DumpHolding.st_chunk DumpHolding.st_addr] in *; try lia.
  exact H.
Qed.

Lemma holding_loop_chunk_never_grows_witness :
  1 <= DumpHolding.st_chunk
         (DumpHolding.mkState
            (mkSerial []
               [with_crc [x01; x03; x00; x00; x00; x02];
                with_crc [x01; x03; x00; x00; x00; x01];
                with_crc [x01; x03; x00; x00; x00; x01];
                with_crc [x01; x03; x00; x01; x00; x01]] tt silent)
            2 1 []) <= 2 /\
  0 <= 2 <= 0 + 2 /\
  (false = false -> 2 = 0 + 2).
Proof.
  apply (holding_loop_chunk_never_grows 4 (open_port tt silent) 1 0 2 2 false true).
  - lia.
  - lia.
  - vm_compute. reflexivity.
Defined.

(** [read_holding_chunk] never raises, and what it returns is either the
    registers with no error or an error with no registers. *)
Lemma read_holding_chunk_returns {D : Type} (ser : serial D) (slave start qty : Z) :
  exists regs err ser',
    DumpHolding.read_holding_chunk ser slave start qty = Ret ((regs, err), ser') /\
    ((exists rs, regs = Some rs /\ err = None /\ len rs = qty) \/
     (exists e, regs = None /\ err = Some e)).
Proof.
  unfold DumpHolding.read_holding_chunk, DumpHolding.fail.
  rewrite build_read_holding_req_frame. cbn [bind].
  set (req := with_crc _).
  destruct (read_exact (ser_write (reset_input_buffer ser) req) 2)
    as [head s1] eqn:Hhead.
  destruct (Z.ltb_spec (len head) 2) as [Hlt | Hge].
  { do 3 eexists. split; [reflexivity |]. right. eexists. split; reflexivity. }
  pose proof (read_exact_full_or_short _ 2 _ _ ltac:(lia) Hhead) as Hle.
  destruct (len2_inv head ltac:(lia)) as (a & f & ->).
  change (py_index [a; f] 0) with (Ret a).
  change (py_index [a; f] 1) with (Ret f). cbn [bind].
  destruct (Z.eqb_spec (byte_val a) (Z.land slave 255)) as [Ha | Ha]; cbn [negb].
  2:{ destruct (ser_read s1 64) as [more s2].
      do 3 eexists. split; [reflexivity |]. right. eexists. split; reflexivity. }
  destruct (Z.eqb_spec (Z.land (byte_val f) 128) 0) as [Hf | Hf]; cbn [negb].
  2:{ destruct (read_exact s1 3) as [rest3 s2] eqn:Hrest3.
      destruct (Z.ltb_spec (len rest3) 3) as [Hlt3 | Hge3].
      { do 3 eexists. split; [reflexivity |]. right. eexists. split; reflexivity. }
      pose proof (read_exact_full_or_short _ 3 _ _ ltac:(lia) Hrest3) as Hle3.
      destruct (len3_inv rest3 ltac:(lia)) as (code & lo & hi & ->).
      change (py_index [code; lo; hi] 0) with (Ret code).
      change (py_index [code; lo; hi] 1) with (Ret lo).
      change (py_index [code; lo; hi] 2) with (Ret hi). cbn [bind].
      match goal with |- context [if ?c then _ else _] => destruct c end.
      all: do 3 eexists; split; [reflexivity |]; right; eexists; split; reflexivity. }
  destruct (read_exact s1 1) as [bcnt_b s2] eqn:Hbc.
  destruct (Z.ltb_spec (len bcnt_b) 1) as [Hlt1 | Hge1].
  { do 3 eexists. split; [reflexivity |]. right. eexists. split; reflexivity. }
  pose proof (read_exact_full_or_short _ 1 _ _ ltac:(lia) Hbc) as Hle1.
  destruct (len1_inv bcnt_b ltac:(lia)) as (bc & ->).
  change (py_index [bc] 0) with (Ret bc). cbn [bind].
  destruct (read_exact s2 (byte_val bc + 2)) as [rest s3] eqn:Hrest.
  destruct (Z.ltb_spec (len rest) (byte_val bc + 2)) as [Hlt2 | Hge2].
  { do 3 eexists. split; [reflexivity |]. right. eexists. split; reflexivity. }
  pose proof (byte_val_range bc) as Hbcr.
  pose proof (read_exact_full_or_short s2 (byte_val bc + 2) rest s3 ltac:(lia) Hrest)
    as Hle2.
  destruct (trailing_crc_defined rest ltac:(lia)) as (crc_rx & Hcrc).
  rewrite Hcrc. cbn [bind].
  destruct (negb (crc_rx =? crc16_modbus (py_slice ([a; f] ++ [bc] ++ rest) 0 (-2)))).
  { do 3 eexists. split; [reflexivity |]. right. eexists. split; reflexivity. }
  destruct (Z.eqb_spec (byte_val bc) (qty * 2)) as [Hcnt | Hcnt]; cbn [negb].
  2:{ do 3 eexists. split; [reflexivity |]. right. eexists. split; reflexivity. }
  destruct (last2_inv rest ltac:(lia)) as (body & x & y & ->).
  rewrite py_slice_drop_last2.
  assert (Hbody : len body = 2 * qty).
  { rewrite len_app in Hle2, Hge2. change (len [x; y]) with 2 in Hle2, Hge2. lia. }
  rewrite (decode_regs_even body qty Hbody). cbn [bind].
  do 3 eexists. split; [reflexivity |]. left. eexists.
  repeat split. unfold len. rewrite length_map, length_seq.
  pose proof (len_nonneg body). lia.
Qed.

(** [read_holding_chunk] never raises.  It returns either the registers
    with no error, and then exactly [qty] of them, or an error with no
    registers. *)
Theorem read_holding_chunk_values_or_error {D : Type} (ser : serial D)
  (slave start qty : Z) :
  exists regs err ser',
    DumpHolding.read_holding_chunk ser slave start qty = Ret ((regs, err), ser') /\
    ((exists rs, regs = Some rs /\ err = None /\ len rs = qty) \/
     (exists e, regs = None /\ err = Some e)).
Proof. apply read_holding_chunk_returns. Qed.

Lemma holding_body_returns {D : Type} (slave end_ : Z) (stop quiet : bool)
  (st : DumpHolding.state D) :
  exists c, DumpHolding.dump_range_body slave end_ stop quiet st = Ret c.
Proof.
  unfold DumpHolding.dump_range_body. cbv zeta.
  destruct (read_holding_chunk_returns (DumpHolding.st_ser st) slave
              (DumpHolding.st_addr st)
              (Z.min (DumpHolding.st_chunk st) (end_ - DumpHolding.st_addr st)))
    as (regs & err & ser1 & -> & [(rs & -> & -> & _) | (e & -> & ->)]); cbn [bind].
  - eexists. reflexivity.
  - destruct (1 <? _).
    + destruct (read_holding_chunk_returns ser1 slave (DumpHolding.st_addr st)
                  (Z.max 1 (Z.min (DumpHolding.st_chunk st)
                              (end_ - DumpHolding.st_addr st) / 2)))
        as (regs2 & err2 & ser2 & -> & [(rs2 & -> & -> & _) | (e2 & -> & ->)]);
        cbn [bind]; eexists; reflexivity.
    + destruct stop; eexists; reflexivity.
Qed.

Lemma holding_loop_returns {D : Type} (slave end_ : Z) (stop quiet : bool)
  (fuel : nat) (st : DumpHolding.state D) :
  1 <= DumpHolding.st_chunk st ->
  (Z.to_nat ((end_ - DumpHolding.st_addr st) + DumpHolding.st_chunk st) <= fuel)%nat ->
  exists st', DumpHolding.dump_range_loop fuel slave end_ stop quiet st = Ret (Some
      st').
Proof.
  revert st. induction fuel as [| fuel IH]; intros st Hc Hf;
    cbn [DumpHolding.dump_range_loop].
  - destruct (Z.ltb_spec (DumpHolding.st_addr st) end_) as [Hlt | Hge]; [lia |].
    exists st. reflexivity.
  - destruct (Z.ltb_spec (DumpHolding.st_addr st) end_) as [Hlt | Hge].
    2:{ exists st. reflexivity. }
    destruct (holding_body_returns slave end_ stop quiet st) as (c & Hbody).
    rewrite Hbody. cbn [bind].
    pose proof (holding_body_progress slave end_ stop quiet st c Hc Hlt Hbody) as Hp.
    destruct c as [st1 | st1]; [| exists st1; reflexivity].
    destruct Hp as (Hc1 & _ & Hm).
    apply IH; lia.
Qed.

(** [dump_range] always returns: for a chunk of at least 1 it makes at most
    [count + chunk] passes and raises nothing, whatever the line does. *)
Theorem holding_dump_range_returns {D : Type} (ser : serial D)
  (slave start count chunk : Z) (stop quiet : bool) :
  1 <= chunk -> 0 <= count ->
  exists st,
    forall extra : nat,
      DumpHolding.dump_range (Z.to_nat (count + chunk) + extra) ser slave start
        count chunk stop quiet = Ret (Some st).
Proof.
  intros Hc Hn. unfold DumpHolding.dump_range. cbv zeta.
  destruct (holding_loop_returns slave (start + count) stop quiet
              (Z.to_nat (count + chunk)) (DumpHolding.mkState ser start chunk []))
    as (st & Hst); cbn [DumpHolding.st_chunk DumpHolding.st_addr]; [lia | |].
  { replace (start + count - start + chunk) with (count + chunk) by lia. lia. }
  exists st. induction extra as [| extra IH].
  - rewrite Nat.add_0_r. exact Hst.
  - rewrite Nat.add_succ_r, holding_loop_more_fuel; [exact IH |].
    rewrite IH. discriminate.
Qed.

Lemma holding_dump_range_returns_witness :
  exists st,
    forall extra : nat,
      DumpHolding.dump_range (Z.to_nat (8 + 8) + extra) (open_port tt silent) 1 101
        8 8 false false = Ret (Some st).
Proof.
  apply (holding_dump_range_returns (open_port tt silent) 1 101 8 8 false false); lia.
Defined.

(** The bisection step of [dump_range].  A failed read of more than one
    register is followed at once, on the same pass, by one read of half as
    many at the same address.  If that one succeeds the cursor moves past
    its registers and the chunk size becomes the size that failed; if it
    fails too the cursor stays and the chunk size becomes the halved one,
    so that the next pass asks for that same halved size again. *)
Theorem holding_bisect_step {D : Type} (slave end_ : Z) (stop quiet : bool)
  (st : DumpHolding.state D) (regs regs2 : option (list Z))
  (e : DumpHolding.error) (err2 : option DumpHolding.error) (ser1 ser2 : serial D) :
  let addr := DumpHolding.st_addr st in
  let qty := Z.min (DumpHolding.st_chunk st) (end_ - addr) in
  1 < qty ->
  DumpHolding.read_holding_chunk (DumpHolding.st_ser st) slave addr qty
  = Ret ((regs, Some e), ser1) ->
  DumpHolding.read_holding_chunk ser1 slave addr (qty / 2)
  = Ret ((regs2, err2), ser2) ->
  1 <= qty / 2 < qty /\
  exists st',
    DumpHolding.dump_range_body slave end_ stop quiet st = Ret (Continue st') /\
    DumpHolding.st_ser st' = ser2 /\
    match err2 with
    | None =>
        exists rs2,
          regs2 = Some rs2 /\
          DumpHolding.st_addr st' = addr + qty / 2 /\
          DumpHolding.st_chunk st' = qty /\
          DumpHolding.printed (DumpHolding.st_out st')
          = DumpHolding.printed (DumpHolding.st_out st) ++ enumerate_from addr rs2
    | Some _ =>
        DumpHolding.st_addr st' = addr /\
        DumpHolding.st_chunk st' = qty / 2 /\
        Z.min (DumpHolding.st_chunk st') (end_ - DumpHolding.st_addr st') = qty / 2 /\
        DumpHolding.printed (DumpHolding.st_out st')
        = DumpHolding.printed (DumpHolding.st_out st)
    end.
Proof.
  intros addr qty Hq Hread Hread2. subst addr qty.
  set (qty := Z.min (DumpHolding.st_chunk st) (end_ - DumpHolding.st_addr st)) in *.
  assert (Hhalf : 1 <= qty / 2) by (apply Z.div_le_lower_bound; lia).
  assert (Hlt : qty / 2 < qty) by (apply Z.div_lt; lia).
  split; [lia |].
  unfold DumpHolding.dump_range_body. cbv zeta. fold qty.
  rewrite Hread. cbn [bind].
  destruct (Z.ltb_spec 1 qty) as [_ | ?]; [| lia].
  rewrite (Z.max_r 1 (qty / 2)) by lia.
  rewrite Hread2. cbn [bind].
  destruct err2 as [e2 |].
  - eexists. split; [reflexivity |].
    cbn [DumpHolding.st_ser DumpHolding.st_addr DumpHolding.st_chunk
           DumpHolding.st_out].
    repeat apply conj; try reflexivity; try lia.
    apply holding_printed_note_retry.
  - destruct (read_holding_chunk_returns ser1 slave (DumpHolding.st_addr st) (qty / 2))
      as (r & e2 & s & Hret & Hcase).
    rewrite Hread2 in Hret. injection Hret as <- <- <-.
    destruct Hcase as [(rs2 & -> & _ & _) | (e2 & _ & He2)]; [| discriminate].
    eexists. split; [reflexivity |].
    cbn [DumpHolding.st_ser DumpHolding.st_addr DumpHolding.st_chunk
           DumpHolding.st_out].
    split; [reflexivity |]. exists rs2.
    repeat apply conj; try reflexivity; try lia.
    rewrite holding_printed_app, holding_printed_note_retry,
      holding_printed_reg_lines. reflexivity.
Qed.

Lemma holding_bisect_step_witness :
  1 <= Z.min 8 (109 - 101) / 2 < Z.min 8 (109 - 101) /\
  exists st',
    DumpHolding.dump_range_body 1 109 false false
      (DumpHolding.mkState (open_port tt silent) 101 8 [])
    = Ret (Continue st') /\
    DumpHolding.st_ser st'
    = mkSerial [] [with_crc [x01; x03; x00; x65; x00; x08];
                   with_crc [x01; x03; x00; x65; x00; x04]] tt silent /\
    DumpHolding.st_addr st' = 101 /\
    DumpHolding.st_chunk st' = Z.min 8 (109 - 101) / 2 /\
    Z.min (DumpHolding.st_chunk st') (109 - DumpHolding.st_addr st')
    = Z.min 8 (109 - 101) / 2 /\
    DumpHolding.printed (DumpHolding.st_out st') = DumpHolding.printed [].
Proof.
  apply (holding_bisect_step 1 109 false false
           (DumpHolding.mkState (open_port tt silent) 101 8 [])
           None None
           (DumpHolding.mkError DumpHolding.TIMEOUT_OR_SHORT [2; 0] [])
           (Some (DumpHolding.mkError DumpHolding.TIMEOUT_OR_SHORT [2; 0] []))
           (mkSerial [] [with_crc [x01; x03; x00; x65; x00; x08]] tt silent)
           (mkSerial [] [with_crc [x01; x03; x00; x65; x00; x08];
                         with_crc [x01; x03; x00; x65; x00; x04]] tt silent)).
  - vm_compute. reflexivity.
  - vm_compute. reflexivity.
  - vm_compute. reflexivity.
Defined.

(** The run of [dump_range] against a responder that serves [value a] for
    every address outside [bad] and fails every read that touches [bad]. *)
Lemma holding_run {D : Type} (r : D -> list byte -> list (option byte) * D)
  (slave start count chunk : Z) (bad : Z -> bool) (value : Z -> Z)
  (stop quiet : bool) :
  (forall s a q,
      respond s = r -> start <= a -> 1 <= q -> q <= chunk ->
      a + q <= start + count ->
      exists res s',
        DumpHolding.read_holding_chunk s slave a q = Ret (res, s') /\
        if covers bad a q then exists e, snd res = Some e
        else res = (Some (map value (seqZ a q)), None)) ->
  forall (fuel : nat) (st : DumpHolding.state D),
    respond (DumpHolding.st_ser st) = r ->
    1 <= DumpHolding.st_chunk st <= chunk ->
    start <= DumpHolding.st_addr st <= start + count ->
    DumpHolding.printed (DumpHolding.st_out st)
    = served bad value start (DumpHolding.st_addr st) ->
    (stop = true -> covers bad start (DumpHolding.st_addr st - start) = false) ->
    (Z.to_nat ((start + count - DumpHolding.st_addr st) + DumpHolding.st_chunk st)
     <= fuel)%nat ->
    exists st',
      DumpHolding.dump_range_loop fuel slave (start + count) stop quiet st
      = Ret (Some st') /\
      DumpHolding.printed (DumpHolding.st_out st')
      = served bad value start (DumpHolding.st_addr st') /\
      start <= DumpHolding.st_addr st' <= start + count /\
      (stop = true -> covers bad start (DumpHolding.st_addr st' - start) = false) /\
      (DumpHolding.st_addr st' = start + count \/
       (stop = true /\ DumpHolding.st_addr st' < start + count /\
        bad (DumpHolding.st_addr st') = true /\
        last (DumpHolding.st_out st')
        = Some (DumpHolding.Stopping (DumpHolding.st_addr st')))).
Proof.
  intros Hdev fuel.
  induction fuel as [| fuel IH]; intros st Hr Hc Hlo Hout Hclean Hfuel;
    cbn [DumpHolding.dump_range_loop].
  - destruct (Z.ltb_spec (DumpHolding.st_addr st) (start + count)) as [? | Hz]; [lia |].
    exists st. repeat apply conj; try assumption; try reflexivity; try lia.
  - destruct (Z.ltb_spec (DumpHolding.st_addr st) (start + count)) as [Hpos | Hz].
    2:{ exists st. repeat apply conj; try assumption; try reflexivity; try lia. }
    destruct st as [ser addr chk out].
    cbn [DumpHolding.st_ser DumpHolding.st_addr DumpHolding.st_chunk
           DumpHolding.st_out] in *.
    unfold DumpHolding.dump_range_body.
    cbn [DumpHolding.st_ser DumpHolding.st_addr DumpHolding.st_chunk
           DumpHolding.st_out].
    set (qty := Z.min chk (start + count - addr)).
    assert (Hq : 1 <= qty <= chk /\ qty <= start + count - addr) by (subst qty; lia).
    destruct (Hdev ser addr qty Hr ltac:(lia) ltac:(lia) ltac:(lia) ltac:(lia))
      as (res & s1 & Hread & Hres).
    destruct (read_holding_chunk_port _ _ _ _ _ _ Hread) as (_ & _ & _ & Hr1).
    rewrite Hr in Hr1.
    rewrite Hread. cbn [bind].
    destruct (covers bad addr qty) eqn:Hcov.
    + destruct res as [regs err]. destruct Hres as (e & He). cbn [snd] in He. subst err.
      destruct (Z.ltb_spec 1 qty) as [Hbig | Hone].
      * assert (Hhalf : 1 <= qty / 2) by (apply Z.div_le_lower_bound; lia).
        assert (Hlt : qty / 2 < qty) by (apply Z.div_lt; lia).
        rewrite (Z.max_r 1 (qty / 2)) by lia.
        set (new_qty := qty / 2) in *.
        destruct (Hdev s1 addr new_qty Hr1 ltac:(lia) ltac:(lia) ltac:(lia)
                    ltac:(lia)) as (res2 & s2 & Hread2 & Hres2).
        destruct (read_holding_chunk_port _ _ _ _ _ _ Hread2) as (_ & _ & _ & Hr2).
        rewrite Hr1 in Hr2.
        rewrite Hread2. cbn [bind].
        destruct (covers bad addr new_qty) eqn:Hcov2.
        -- destruct res2 as [regs2 err2]. destruct Hres2 as (e2 & He2).
           cbn [snd] in He2. subst err2.
           apply IH;
             cbn [DumpHolding.st_ser DumpHolding.st_addr DumpHolding.st_chunk
                    DumpHolding.st_out];
             try assumption; try lia.
           rewrite holding_printed_note_retry. exact Hout.
        -- subst res2.
           apply IH;
             cbn [DumpHolding.st_ser DumpHolding.st_addr DumpHolding.st_chunk
                    DumpHolding.st_out];
             try assumption; try lia.
           ++ rewrite holding_printed_app, holding_printed_note_retry,
                holding_printed_reg_lines, enumerate_from_seqZ.
              rewrite served_extend_good by (try assumption; lia).
              rewrite Hout. reflexivity.
           ++ intros Hs.
              replace (addr + new_qty - start) with ((addr - start) + new_qty) by lia.
              apply covers_join; try lia.
              ** apply Hclean. exact Hs.
              ** replace (start + (addr - start)) with addr by lia. exact Hcov2.
      * assert (Hq1 : qty = 1) by lia.
        assert (Hbad : bad addr = true)
          by (rewrite <- covers_one; congruence).
        destruct stop.
        -- eexists. split; [reflexivity |].
           cbn [DumpHolding.st_ser DumpHolding.st_addr DumpHolding.st_chunk
                  DumpHolding.st_out].
           repeat apply conj; try lia.
           ++ rewrite holding_printed_app, holding_printed_note_one.
              cbn [DumpHolding.printed]. rewrite app_nil_r. exact Hout.
           ++ exact Hclean.
           ++ right. repeat apply conj; try reflexivity; try lia; try assumption.
              apply last_snoc.
        -- apply IH;
             cbn [DumpHolding.st_ser DumpHolding.st_addr DumpHolding.st_chunk
                    DumpHolding.st_out];
             try assumption; try lia.
           rewrite holding_printed_note_one, served_extend_bad by (assumption || lia).
           exact Hout.
    + subst res.
      apply IH;
        cbn [DumpHolding.st_ser DumpHolding.st_addr DumpHolding.st_chunk
               DumpHolding.st_out];
        try assumption; try lia.
      * rewrite holding_printed_app, holding_printed_reg_lines, enumerate_from_seqZ.
        rewrite served_extend_good by (try assumption; lia).
        rewrite Hout. reflexivity.
      * intros Hs. replace (addr + qty - start) with ((addr - start) + qty) by lia.
        apply covers_join; try lia.
        -- apply Hclean. exact Hs.
        -- replace (start + (addr - start)) with addr by lia. exact Hcov.
Qed.

(** Without [stop_on_illegal]: against a responder that fails every read
    touching an address of [bad] and serves all others, [dump_range] ends
    having printed exactly the addresses of the range that are not in
    [bad], each once, in ascending order, with their values; the error
    lines, silenced or not, change nothing of it. *)
Theorem holding_skips_exactly_the_bad_addresses {D : Type}
  (r : D -> list byte -> list (option byte) * D) (ser : serial D)
  (slave start count chunk : Z) (bad : Z -> bool) (value : Z -> Z) (quiet : bool) :
  1 <= chunk -> 0 <= count -> respond ser = r ->
  (forall s a q,
      respond s = r -> start <= a -> 1 <= q -> q <= chunk ->
      a + q <= start + count ->
      exists res s',
        DumpHolding.read_holding_chunk s slave a q = Ret (res, s') /\
        if covers bad a q then exists e, snd res = Some e
        else res = (Some (map value (seqZ a q)), None)) ->
  exists st,
    DumpHolding.dump_range (Z.to_nat (count + chunk)) ser slave start count chunk
      false quiet = Ret (Some st) /\
    DumpHolding.printed (DumpHolding.st_out st)
    = served bad value start (start + count) /\
    DumpHolding.st_addr st = start + count.
Proof.
  intros Hc Hn Hr Hdev. unfold DumpHolding.dump_range. cbv zeta.
  destruct (holding_run r slave start count chunk bad value false quiet Hdev
              (Z.to_nat (count + chunk))
              (DumpHolding.mkState ser start chunk []))
    as (st & Hrun & Hout & Hin & _ & Hend);
    cbn [DumpHolding.st_ser DumpHolding.st_addr DumpHolding.st_chunk
           DumpHolding.st_out];
    try assumption; try lia.
  - rewrite served_empty. reflexivity.
  - exists st. destruct Hend as [Ha | (Hs & _)]; [| discriminate].
    rewrite Ha in Hout. repeat apply conj; assumption.
Qed.

(** With [stop_on_illegal]: [dump_range] stops at the first address of
    [bad] in the range.  Everything before it has been printed, nothing at
    or after it, and the last line says where it stopped.  If the range has
    no address of [bad] the whole range is printed. *)
Theorem holding_stops_at_first_bad_address {D : Type}
  (r : D -> list byte -> list (option byte) * D) (ser : serial D)
  (slave start count chunk : Z) (bad : Z -> bool) (value : Z -> Z) (quiet : bool) :
  1 <= chunk -> 0 <= count -> respond ser = r ->
  (forall s a q,
      respond s = r -> start <= a -> 1 <= q -> q <= chunk ->
      a + q <= start + count ->
      exists res s',
        DumpHolding.read_holding_chunk s slave a q = Ret (res, s') /\
        if covers bad a q then exists e, snd res = Some e
        else res = (Some (map value (seqZ a q)), None)) ->
  exists st,
    DumpHolding.dump_range (Z.to_nat (count + chunk)) ser slave start count chunk
      true quiet = Ret (Some st) /\
    DumpHolding.printed (DumpHolding.st_out st)
    = map (fun a => (a, value a)) (seqZ start (DumpHolding.st_addr st - start)) /\
    (forall a, start <= a < DumpHolding.st_addr st -> bad a = false) /\
    (DumpHolding.st_addr st = start + count \/
     (DumpHolding.st_addr st < start + count /\
      bad (DumpHolding.st_addr st) = true /\
      last (DumpHolding.st_out st)
      = Some (DumpHolding.Stopping (DumpHolding.st_addr st)))).
Proof.
  intros Hc Hn Hr Hdev. unfold DumpHolding.dump_range. cbv zeta.
  destruct (holding_run r slave start count chunk bad value true quiet Hdev
              (Z.to_nat (count + chunk))
              (DumpHolding.mkState ser start chunk []))
    as (st & Hrun & Hout & Hin & Hclean & Hend);
    cbn [DumpHolding.st_ser DumpHolding.st_addr DumpHolding.st_chunk
           DumpHolding.st_out];
    try assumption; try lia.
  - rewrite served_empty. reflexivity.
  - intros _. rewrite Z.sub_diag. reflexivity.
  - exists st. specialize (Hclean eq_refl).
    repeat apply conj.
    + exact Hrun.
    + rewrite Hout. apply served_all_good. exact Hclean.
    + intros a Ha. rewrite covers_false in Hclean. apply Hclean. lia.
    + destruct Hend as [Hz | (_ & Hpos & Hbad & Hlast)].
      * left. exact Hz.
      * right. repeat apply conj; assumption.
Qed.

(** The responder [inverter] with address 1 illegal and every register
    holding its own address, seen through [read_holding_chunk] on the
    range 0..1. *)
Lemma inverter_read_holding_chunk_small (s : serial unit) (a q : Z) :
  respond s = inverter (Z.eqb 1) id ->
  0 <= a -> 1 <= q -> q <= 2 -> a + q <= 0 + 2 ->
  exists res s',
    DumpHolding.read_holding_chunk s 1 a q = Ret (res, s') /\
    if covers (Z.eqb 1) a q then exists e, snd res = Some e
    else res = (Some (map id (seqZ a q)), None).
Proof.
  intros Hr Ha Hq1 Hq2 Hend.
  assert (Hcase : (a = 0 /\ q = 1) \/ (a = 0 /\ q = 2) \/ (a = 1 /\ q = 1)) by lia.
  destruct Hcase as [[-> ->] | [[-> ->] | [-> ->]]].
  - eexists. eexists. split.
    + apply (read_holding_chunk_well_formed s 1 0 1
               (with_crc [x01; x03; x00; x00; x00; x01]) [x00; x00] x01 x03 [] tt).
      * vm_compute. reflexivity.
      * reflexivity.
      * lia.
      * reflexivity.
      * reflexivity.
      * rewrite Hr. vm_compute. reflexivity.
    + vm_compute. reflexivity.
  - destruct (read_holding_chunk_exception_frame s 1 0 2
                (with_crc [x01; x03; x00; x00; x00; x02]) x01 x83 x02 xc0 xf1 [] tt)
      as (err & Herr).
    + vm_compute. reflexivity.
    + reflexivity.
    + vm_compute. discriminate.
    + rewrite Hr. vm_compute. reflexivity.
    + eexists. eexists. split; [exact Herr |]. exists err. reflexivity.
  - destruct (read_holding_chunk_exception_frame s 1 1 1
                (with_crc [x01; x03; x00; x01; x00; x01]) x01 x83 x02 xc0 xf1 [] tt)
      as (err & Herr).
    + vm_compute. reflexivity.
    + reflexivity.
    + vm_compute. discriminate.
    + rewrite Hr. vm_compute. reflexivity.
    + eexists. eexists. split; [exact Herr |]. exists err. reflexivity.
Qed.

Lemma holding_skips_exactly_the_bad_addresses_witness :
  exists st,
    DumpHolding.dump_range (Z.to_nat (2 + 2)) (open_port tt (inverter (Z.eqb 1) id))
      1 0 2 2 false false = Ret (Some st) /\
    DumpHolding.printed (DumpHolding.st_out st) = served (Z.eqb 1) id 0 (0 + 2) /\
    DumpHolding.st_addr st = 0 + 2.
Proof.
  apply (holding_skips_exactly_the_bad_addresses (inverter (Z.eqb 1) id)
           (open_port tt (inverter (Z.eqb 1) id)) 1 0 2 2 (Z.eqb 1) id false).
  - lia.
  - lia.
  - reflexivity.
  - apply inverter_read_holding_chunk_small.
Defined.

Lemma holding_stops_at_first_bad_address_witness :
  exists st,
    DumpHolding.dump_range (Z.to_nat (2 + 2)) (open_port tt (inverter (Z.eqb 1) id))
      1 0 2 2 true false = Ret (Some st) /\
    DumpHolding.printed (DumpHolding.st_out st)
    = map (fun a => (a, id a)) (seqZ 0 (DumpHolding.st_addr st - 0)) /\
    (forall a, 0 <= a < DumpHolding.st_addr st -> (1 =? a) = false) /\
    (DumpHolding.st_addr st = 0 + 2 \/
     (DumpHolding.st_addr st < 0 + 2 /\
      (1 =? DumpHolding.st_addr st) = true /\
      last (DumpHolding.st_out st)
      = Some (DumpHolding.Stopping (DumpHolding.st_addr st)))).
Proof.
  apply (holding_stops_at_first_bad_address (inverter (Z.eqb 1) id)
           (open_port tt (inverter (Z.eqb 1) id)) 1 0 2 2 (Z.eqb 1) id false).
  - lia.
  - lia.
  - reflexivity.
  - apply inverter_read_holding_chunk_small.
Defined.

(** ** The retry loop of [modbus_read_one.py] *)

Lemma attempts_eq {D : Type} (left : nat) (req : list byte) (start count : Z)
  (ser : serial D) :
  ReadOne.attempts left req start count ser
  = let ser := reset_input_buffer ser in
    let ser := ser_write ser req in
    let '(head, ser) := read_exact ser 3 in
    if len head <? 3 then
      match left with
      | S left' => ReadOne.attempts left' req start count ser
      | O => Ret (ReadOne.NO_RESPONSE_header, ser)
      end
    else
      let* slave := py_index head 0 in
      let* func := py_index head 1 in
      let* b2 := py_index head 2 in
      if negb (Z.land (byte_val func) 0x80 =? 0) then
        let '(tail, ser) := read_exact ser 2 in
        if len tail <? 2 then Ret (ReadOne.SHORT_EXCEPTION (head ++ tail), ser)
        else
          let resp := head ++ tail in
          let body := py_slice resp 0 (-2) in
          let* crc_rx := trailing_crc resp in
          let crc_ok := crc16_modbus body =? crc_rx in
          Ret (ReadOne.EXCEPTION_line (byte_val slave) (byte_val func) (byte_val b2)
                 crc_ok, ser)
      else
        let bytecount := byte_val b2 in
        let '(tail, ser) := read_exact ser (bytecount + 2) in
        if len tail <? bytecount + 2 then
          match left with
          | S left' => ReadOne.attempts left' req start count ser
          | O => Ret (ReadOne.SHORT_RESPONSE (head ++ tail), ser)
          end
        else
          let resp := head ++ tail in
          let body := py_slice resp 0 (-2) in
          let* crc_rx := trailing_crc resp in
          let crc_ok := crc16_modbus body =? crc_rx in
          let data := py_slice resp 3 (3 + bytecount) in
          let* regs := decode_regs data in
          Ret (ReadOne.OK_line crc_ok (byte_val slave) (byte_val func) start count
                 (enumerate_from start regs), ser).
Proof. destruct left; reflexivity. Qed.

(** Closes a leaf of [attempts] that returns after one more request. *)
Ltac attempts_leaf :=
  exists 1%nat; cbn [replicate];
  repeat apply conj;
  first [ lia
        | congruence
        | discriminate
        | intros _; reflexivity
        | intros [? | (? & ?)]; discriminate ].

(** What the loop writes, whatever the line does: the same request, at
    least once and at most once per pass, and every pass is used before it
    gives up. *)
Lemma attempts_requests {D : Type} (req : list byte) (start count : Z)
  (left : nat) (ser : serial D) (rep : ReadOne.report) (ser' : serial D) :
  ReadOne.attempts left req start count ser = Ret (rep, ser') ->
  exists k : nat,
    (1 <= k <= S left)%nat /\
    sent ser' = sent ser ++ replicate k req /\
    respond ser' = respond ser /\
    rep <> ReadOne.NO_RESPONSE_after_retries /\
    (rep = ReadOne.NO_RESPONSE_header \/ (exists fr, rep = ReadOne.SHORT_RESPONSE fr) ->
     k = S left).
Proof.
  revert ser. induction left as [| left IH]; intros ser H;
    rewrite attempts_eq in H; cbv zeta in H.
  all: destruct (read_exact (ser_write (reset_input_buffer ser) req) 3)
    as [head s1] eqn:Hhead.
  all: destruct (read_exact_port _ _ _ _ Hhead) as (Hs1 & _ & Hr1).
  all: destruct (write_then_reads ser s1 req Hs1 Hr1) as [Hsent1 Hresp1].
  all: destruct (len head <? 3).
  - injection H as <- <-. attempts_leaf.
  - destruct (py_index head 0) as [a |]; cbn [bind] in H; [| discriminate].
    destruct (py_index head 1) as [f |]; cbn [bind] in H; [| discriminate].
    destruct (py_index head 2) as [b2 |]; cbn [bind] in H; [| discriminate].
    destruct (negb (Z.land (byte_val f) 128 =? 0)).
    + destruct (read_exact s1 2) as [tail s2] eqn:Htail.
      destruct (read_exact_port _ _ _ _ Htail) as (Hs2 & _ & Hr2).
      destruct (len tail <? 2).
      * injection H as <- <-. attempts_leaf.
      * destruct (trailing_crc (head ++ tail)); cbn [bind] in H; [| discriminate].
        injection H as <- <-. attempts_leaf.
    + destruct (read_exact s1 (byte_val b2 + 2)) as [tail s2] eqn:Htail.
      destruct (read_exact_port _ _ _ _ Htail) as (Hs2 & _ & Hr2).
      destruct (len tail <? byte_val b2 + 2).
      * injection H as <- <-. attempts_leaf.
      * destruct (trailing_crc (head ++ tail)); cbn [bind] in H; [| discriminate].
        destruct (decode_regs _); cbn [bind] in H; [| discriminate].
        injection H as <- <-. attempts_leaf.
  - destruct (IH s1 H) as (k & Hk & Hsent & Hresp & Hne & Hall).
    exists (S k). repeat apply conj; try lia; try congruence.
    + rewrite Hsent, Hsent1, <- app_assoc. reflexivity.
    + intros Hgave. rewrite (Hall Hgave). reflexivity.
  - destruct (py_index head 0) as [a |]; cbn [bind] in H; [| discriminate].
    destruct (py_index head 1) as [f |]; cbn [bind] in H; [| discriminate].
    destruct (py_index head 2) as [b2 |]; cbn [bind] in H; [| discriminate].
    destruct (negb (Z.land (byte_val f) 128 =? 0)).
    + destruct (read_exact s1 2) as [tail s2] eqn:Htail.
      destruct (read_exact_port _ _ _ _ Htail) as (Hs2 & _ & Hr2).
      destruct (len tail <? 2).
      * injection H as <- <-. attempts_leaf.
      * destruct (trailing_crc (head ++ tail)); cbn [bind] in H; [| discriminate].
        injection H as <- <-. attempts_leaf.
    + destruct (read_exact s1 (byte_val b2 + 2)) as [tail s2] eqn:Htail.
      destruct (read_exact_port _ _ _ _ Htail) as (Hs2 & _ & Hr2).
      destruct (len tail <? byte_val b2 + 2).
      * destruct (IH s2 H) as (k & Hk & Hsent & Hresp & Hne & Hall).
        exists (S k). repeat apply conj; try lia; try congruence.
        -- rewrite Hsent, Hs2, Hsent1, <- app_assoc. reflexivity.
        -- intros Hgave. rewrite (Hall Hgave). reflexivity.
      * destruct (trailing_crc (head ++ tail)); cbn [bind] in H; [| discriminate].
        destruct (decode_regs _); cbn [bind] in H; [| discriminate].
        injection H as <- <-. attempts_leaf.
Qed.

(** Whatever the line does, a run of [main] with [retries >= 0] that comes
    to a report has written the same request frame at least once and at
    most [retries + 1] times, nothing else, and it reports no response or
    a short response only after all [retries + 1] passes. *)
Theorem read_one_requests {D : Type} (ser : serial D)
  (slave func start count retries : Z) (rep : ReadOne.report) (ser' : serial D) :
  0 <= retries ->
  ReadOne.main ser slave func start count retries = Ret (rep, ser') ->
  exists k : nat,
    1 <= Z.of_nat k <= retries + 1 /\
    sent ser'
    = sent ser
      ++ replicate k (with_crc [to_byte slave; to_byte func; to_byte (start / 256);
                                to_byte start; to_byte (count / 256); to_byte count]) /\
    (rep = ReadOne.NO_RESPONSE_header \/ (exists fr, rep = ReadOne.SHORT_RESPONSE fr) ->
     Z.of_nat k = retries + 1).
Proof.
  intros Hr H. unfold ReadOne.main in H.
  rewrite read_one_build_req_frame in H. cbn [bind] in H.
  destruct (Z.leb_spec (retries + 1) 0) as [? | _]; [lia |].
  destruct (attempts_requests _ _ _ _ _ _ _ H) as (k & Hk & Hsent & _ & _ & Hall).
  exists k. repeat apply conj; try lia; try assumption.
  intros Hgave. rewrite (Hall Hgave). lia.
Qed.

Lemma read_one_requests_witness :
  exists k : nat,
    1 <= Z.of_nat k <= 2 + 1 /\
    sent (mkSerial []
            [with_crc [x01; x04; x00; x65; x00; x01];
             with_crc [x01; x04; x00; x65; x00; x01];
             with_crc [x01; x04; x00; x65; x00; x01]] tt silent)
    = sent (open_port tt silent)
      ++ replicate k (with_crc [to_byte 1; to_byte 4; to_byte (101 / 256);
                                to_byte 101; to_byte (1 / 256); to_byte 1]) /\
    (ReadOne.NO_RESPONSE_header = ReadOne.NO_RESPONSE_header \/
     (exists fr, ReadOne.NO_RESPONSE_header = ReadOne.SHORT_RESPONSE fr) ->
     Z.of_nat k = 2 + 1).
Proof.
  apply (read_one_requests (open_port tt silent) 1 4 101 1 2
           ReadOne.NO_RESPONSE_header).
  - lia.
  - vm_compute. reflexivity.
Defined.

(** The line after the loop, [NO RESPONSE (after retries)], is printed
    exactly when [retries + 1 <= 0], when the loop has no pass at all; and
    then nothing has been written to the port. *)
Theorem read_one_after_retries_line {D : Type} (ser : serial D)
  (slave func start count retries : Z) (rep : ReadOne.report) (ser' : serial D) :
  ReadOne.main ser slave func start count retries = Ret (rep, ser') ->
  (rep = ReadOne.NO_RESPONSE_after_retries <-> retries + 1 <= 0) /\
  (retries + 1 <= 0 -> ser' = ser).
Proof.
  intros H. unfold ReadOne.main in H.
  rewrite read_one_build_req_frame in H. cbn [bind] in H.
  destruct (Z.leb_spec (retries + 1) 0) as [Hle | Hgt].
  - injection H as <- <-.
    split; [split |]; intros _; [exact Hle | reflexivity | reflexivity].
  - destruct (attempts_requests _ _ _ _ _ _ _ H) as (k & _ & _ & _ & Hne & _).
    split; [split |]; intros Hx; [contradiction | lia | lia].
Qed.

Lemma read_one_after_retries_line_witness :
  (ReadOne.NO_RESPONSE_after_retries = ReadOne.NO_RESPONSE_after_retries
   <-> -1 + 1 <= 0) /\
  (-1 + 1 <= 0 -> open_port tt silent = open_port tt silent).
Proof.
  apply (read_one_after_retries_line (open_port tt silent) 1 4 101 1 (-1)
           ReadOne.NO_RESPONSE_after_retries (open_port tt silent)).
  vm_compute. reflexivity.
Defined.

Lemma attempts_silent {D : Type} (r : D -> list byte -> list (option byte) * D)
  (req : list byte) (start count : Z) (left : nat) (ser : serial D) :
  (forall d q, fst (r d q) = []) ->
  respond ser = r ->
  exists d',
    ReadOne.attempts left req start count ser
    = Ret (ReadOne.NO_RESPONSE_header,
           mkSerial [] (sent ser ++ replicate (S left) req) d' r).
Proof.
  intros Hsilent. revert ser. induction left as [| left IH]; intros ser Hr;
    rewrite attempts_eq; cbv zeta.
  all: destruct (respond ser (dev ser) req) as [events d1] eqn:Hresp.
  all: assert (Hev : events = [])
    by (pose proof (Hsilent (dev ser) req) as Hq; rewrite <- Hr, Hresp in Hq; exact Hq).
  all: subst events.
  all: rewrite (ser_write_fresh ser req [] d1 Hresp).
  all: change (read_exact (mkSerial [] (sent ser ++ [req]) d1 (respond ser)) 3)
    with (@nil byte, mkSerial [] (sent ser ++ [req]) d1 (respond ser)).
  all: change (len (@nil byte) <? 3) with true; cbv iota.
  - exists d1. rewrite Hr. reflexivity.
  - destruct (IH (mkSerial [] (sent ser ++ [req]) d1 (respond ser)) Hr) as (d' & Hd').
    exists d'. rewrite Hd'. cbn [sent]. rewrite <- app_assoc. reflexivity.
Qed.

(** On a line where nothing ever answers, [main] with [retries >= 0]
    writes the request [retries + 1] times and then reports
    [NO RESPONSE (header)]. *)
Theorem read_one_silent_line {D : Type}
  (r : D -> list byte -> list (option byte) * D) (ser : serial D)
  (slave func start count retries : Z) :
  0 <= retries -> respond ser = r -> (forall d q, fst (r d q) = []) ->
  exists d',
    ReadOne.main ser slave func start count retries
    = Ret (ReadOne.NO_RESPONSE_header,
           mkSerial []
             (sent ser
              ++ replicate (Z.to_nat (retries + 1))
                   (with_crc [to_byte slave; to_byte func; to_byte (start / 256);
                              to_byte start; to_byte (count / 256); to_byte count]))
             d' r).
Proof.
  intros Hn Hr Hsilent. unfold ReadOne.main.
  rewrite read_one_build_req_frame. cbn [bind].
  destruct (Z.leb_spec (retries + 1) 0) as [? | _]; [lia |].
  replace (Z.to_nat (retries + 1)) with (S (Z.to_nat retries)) by lia.
  apply attempts_silent; assumption.
Qed.

Lemma read_one_silent_line_witness :
  exists d',
    ReadOne.main (open_port tt silent) 1 4 101 1 2
    = Ret (ReadOne.NO_RESPONSE_header,
           mkSerial []
             (sent (open_port tt silent)
              ++ replicate (Z.to_nat (2 + 1))
                   (with_crc [to_byte 1; to_byte 4; to_byte (101 / 256);
                              to_byte 101; to_byte (1 / 256); to_byte 1]))
             d' silent).
Proof.
  apply (read_one_silent_line silent (open_port tt silent) 1 4 101 1 2).
  - lia.
  - reflexivity.
  - intros d q. reflexivity.
Defined.

(** An exception answer ends [main] on the pass that receives it,
    whatever [retries] is and whether or not its checksum matches: it is
    reported with the received address, function and code and with the
    outcome of the checksum comparison, and no further request is sent. *)
Theorem read_one_exception_not_retried {D : Type} (ser : serial D)
  (slave func start count retries : Z) (a f code lo hi : byte)
  (tail : list (option byte)) (d' : D) :
  let req := with_crc [to_byte slave; to_byte func; to_byte (start / 256);
                       to_byte start; to_byte (count / 256); to_byte count] in
  0 <= retries ->
  Z.land (byte_val f) 0x80 <> 0 ->
  respond ser (dev ser) req = (map Some ([a; f; code] ++ [lo; hi]) ++ tail, d') ->
  ReadOne.main ser slave func start count retries
  = Ret (ReadOne.EXCEPTION_line (byte_val a) (byte_val f) (byte_val code)
           (crc16_modbus [a; f; code]
            =? Z.lor (byte_val lo) (Z.shiftl (byte_val hi) 8)),
         mkSerial tail (sent ser ++ [req]) d' (respond ser)).
Proof.
  intros req Hn Hf Hresp. unfold ReadOne.main.
  rewrite read_one_build_req_frame. cbn [bind]. fold req.
  destruct (Z.leb_spec (retries + 1) 0) as [? | _]; [lia |].
  rewrite attempts_eq. cbv zeta.
  destruct (collect_header_payload ser req a f code [lo; hi] tail d' 2 Hresp eq_refl)
    as (s1 & Hhead & Hrest).
  rewrite Hhead.
  change (len [a; f; code] <? 3) with false. cbv iota.
  change (py_index [a; f; code] 0) with (Ret a).
  change (py_index [a; f; code] 1) with (Ret f).
  change (py_index [a; f; code] 2) with (Ret code). cbn [bind].
  destruct (Z.eqb_spec (Z.land (byte_val f) 128) 0) as [? | _]; [contradiction |].
  cbn [negb]. rewrite Hrest.
  change (len [lo; hi] <? 2) with false. cbv iota.
  change (trailing_crc ([a; f; code] ++ [lo; hi]))
    with (Ret (Z.lor (byte_val lo) (Z.shiftl (byte_val hi) 8))).
  cbn [bind].
  change (py_slice ([a; f; code] ++ [lo; hi]) 0 (-2)) with [a; f; code].
  reflexivity.
Qed.

Lemma read_one_exception_not_retried_witness :
  ReadOne.main (open_port tt (canned [x01; x84; x02; xc2; xc1])) 1 4 101 1 5
  = Ret (ReadOne.EXCEPTION_line (byte_val x01) (byte_val x84) (byte_val x02)
           (crc16_modbus [x01; x84; x02]
            =? Z.lor (byte_val xc2) (Z.shiftl (byte_val xc1) 8)),
         mkSerial []
           (sent (open_port tt (canned [x01; x84; x02; xc2; xc1]))
            ++ [with_crc [to_byte 1; to_byte 4; to_byte (101 / 256);
                          to_byte 101; to_byte (1 / 256); to_byte 1]])
           tt
           (respond (open_port tt (canned [x01; x84; x02; xc2; xc1])))).
Proof.
  apply (read_one_exception_not_retried
           (open_port tt (canned [x01; x84; x02; xc2; xc1])) 1 4 101 1 5
           x01 x84 x02 xc2 xc1 [] tt).
  - lia.
  - vm_compute. discriminate.
  - reflexivity.
Defined.

(** ** What the readers do with the checksum *)

Lemma py_slice_data {A : Type} (a f bc : A) (data t : list A) :
  py_slice ([a; f; bc] ++ data ++ t) 3 (3 + len data) = data.
Proof.
  unfold py_slice, py_bound. rewrite !len_app.
  pose proof (len_nonneg data). pose proof (len_nonneg t).
  change (len [a; f; bc]) with 3.
  change (3 <? 0) with false. cbv iota.
  destruct (Z.ltb_spec (3 + len data) 0) as [? | _]; [lia |].
  rewrite !Z.min_l by lia.
  replace (Z.to_nat (3 + len data)) with (3 + length data)%nat by (unfold len; lia).
  change (Z.to_nat 3) with 3%nat.
  change ([a; f; bc] ++ data ++ t) with (a :: f :: bc :: (data ++ t)).
  simpl take. simpl drop. apply take_app_length.
Qed.

(** [read_block] says [CRC] only of a complete normal frame whose checksum
    does not match. *)
Lemma read_block_CRC_inv {D : Type} (ser_timeout : Z) (ser : serial D)
  (slave start qty : Z) (m : option DumpInput.msg) (regs : option (list Z))
  (ser' : serial D) :
  DumpInput.read_block ser_timeout ser slave start qty
  = Ret ((DumpInput.CRC, m, regs), ser') ->
  exists req a f bc rest s1,
    DumpInput.build_req slave start qty = Ret req /\
    DumpInput.read_exact ser_timeout (ser_write (reset_input_buffer ser) req) 3
    = ([a; f; bc], s1) /\
    Z.land (byte_val f) 0x80 = 0 /\
    DumpInput.read_exact ser_timeout s1 (byte_val bc + 2) = (rest, ser') /\
    len rest = byte_val bc + 2 /\
    ~ checksum_ok ([a; f; bc] ++ rest) /\
    m = Some DumpInput.CrcMismatch /\ regs = None.
Proof.
  unfold DumpInput.read_block. intros H.
  destruct (DumpInput.build_req slave start qty) as [req | e] eqn:Hreq;
    cbn [bind] in H; [| discriminate].
  destruct (DumpInput.read_exact ser_timeout (ser_write (reset_input_buffer ser) req) 3)
    as [head s1] eqn:Hhead.
  destruct (Z.ltb_spec (len head) 3) as [Hlt | Hge]; [discriminate |].
  pose proof (input_read_exact_full_or_short _ _ 3 _ _ ltac:(lia) Hhead) as Hle.
  destruct (len3_inv head ltac:(lia)) as (a & f & bc & ->).
  destruct (Z.eqb_spec (Z.land (byte_val f) 128) 0) as [Hf | Hf]; cbn [negb] in H.
  2:{ destruct (DumpInput.read_exact ser_timeout s1 2) as [rest2 s2].
      destruct (negb (len rest2 =? 2)); [discriminate |].
      destruct (py_index rest2 0); cbn [bind] in H; [| discriminate].
      destruct (py_index rest2 1); cbn [bind] in H; discriminate. }
  destruct (DumpInput.read_exact ser_timeout s1 (byte_val bc + 2)) as [rest s2]
    eqn:Hrest.
  destruct (Z.eqb_spec (len rest) (byte_val bc + 2)) as [Hlen | Hlen];
    cbn [negb] in H; [| discriminate].
  destruct (trailing_crc ([a; f; bc] ++ rest)) as [crc_rx | e] eqn:Hcrc;
    cbn [bind] in H; [| discriminate].
  destruct (Z.eqb_spec (crc16_modbus (py_slice ([a; f; bc] ++ rest) 0 (-2))) crc_rx)
    as [Heq | Hne]; cbn [negb] in H.
  - destruct (decode_regs (py_slice ([a; f; bc] ++ rest) 3 (-2)));
      cbn [bind] in H; discriminate.
  - apply Ret_pair_inv in H. destruct H as [H <-].
    injection H as <- <-.
    exists req, a, f, bc, rest, s1.
    repeat apply conj; try reflexivity; try assumption.
    unfold checksum_ok. rewrite Hcrc. intros Hok. injection Hok as Hok.
    apply Hne. symmetry. exact Hok.
Qed.

(** Closes a branch of [read_holding_chunk] whose error tag is not the one
    assumed. *)
Ltac other_tag H Htag :=
  apply Ret_pair_inv in H; destruct H as [H _];
  injection H as _ H; subst;
  cbn [DumpHolding.etag] in Htag; discriminate Htag.

(** [read_holding_chunk] says [BADCRC] only of a complete normal frame
    from the right address whose checksum does not match. *)
Lemma read_holding_chunk_BADCRC_inv {D : Type} (ser : serial D)
  (slave start qty : Z) (regs : option (list Z)) (err : DumpHolding.error)
  (ser' : serial D) :
  DumpHolding.read_holding_chunk ser slave start qty
  = Ret ((regs, Some err), ser') ->
  DumpHolding.etag err = DumpHolding.BADCRC ->
  exists req a f bc rest s1 s2,
    DumpHolding.build_read_holding_req slave start qty = Ret req /\
    read_exact (ser_write (reset_input_buffer ser) req) 2 = ([a; f], s1) /\
    byte_val a = Z.land slave 0xFF /\
    Z.land (byte_val f) 0x80 = 0 /\
    read_exact s1 1 = ([bc], s2) /\
    read_exact s2 (byte_val bc + 2) = (rest, ser') /\
    len rest = byte_val bc + 2 /\
    ~ checksum_ok ([a; f] ++ [bc] ++ rest) /\
    regs = None.
Proof.
  unfold DumpHolding.read_holding_chunk, DumpHolding.fail. intros H Htag.
  destruct (DumpHolding.build_read_holding_req slave start qty) as [req | e] eqn:Hreq;
    cbn [bind] in H; [| discriminate].
  destruct (read_exact (ser_write (reset_input_buffer ser) req) 2)
    as [head s1] eqn:Hhead.
  destruct (Z.ltb_spec (len head) 2) as [Hlt | Hge]; [other_tag H Htag |].
  pose proof (read_exact_full_or_short _ 2 _ _ ltac:(lia) Hhead) as Hle.
  destruct (len2_inv head ltac:(lia)) as (a & f & ->).
  change (py_index [a; f] 0) with (Ret a) in H.
  change (py_index [a; f] 1) with (Ret f) in H. cbn [bind] in H.
  destruct (Z.eqb_spec (byte_val a) (Z.land slave 255)) as [Ha | Ha]; cbn [negb] in H.
  2:{ destruct (ser_read s1 64). other_tag H Htag. }
  destruct (Z.eqb_spec (Z.land (byte_val f) 128) 0) as [Hf | Hf]; cbn [negb] in H.
  2:{ destruct (read_exact s1 3) as [rest3 s2].
      destruct (len rest3 <? 3); [other_tag H Htag |].
      destruct (py_index rest3 0); cbn [bind] in H; [| discriminate].
      destruct (py_index rest3 1); cbn [bind] in H; [| discriminate].
      destruct (py_index rest3 2); cbn [bind] in H; [| discriminate].
      match type of H with (if ?c then _ else _) = _ => destruct c end;
        other_tag H Htag. }
  destruct (read_exact s1 1) as [bcnt_b s2] eqn:Hbc.
  destruct (Z.ltb_spec (len bcnt_b) 1) as [Hlt1 | Hge1]; [other_tag H Htag |].
  pose proof (read_exact_full_or_short _ 1 _ _ ltac:(lia) Hbc) as Hle1.
  destruct (len1_inv bcnt_b ltac:(lia)) as (bc & ->).
  change (py_index [bc] 0) with (Ret bc) in H. cbn [bind] in H.
  destruct (read_exact s2 (byte_val bc + 2)) as [rest s3] eqn:Hrest.
  destruct (Z.ltb_spec (len rest) (byte_val bc + 2)) as [Hlt2 | Hge2];
    [other_tag H Htag |].
  pose proof (byte_val_range bc) as Hbcr.
  pose proof (read_exact_full_or_short s2 (byte_val bc + 2) rest s3 ltac:(lia) Hrest)
    as Hle2.
  destruct (trailing_crc rest) as [crc_rx | e] eqn:Hcrc;
    cbn [bind] in H; [| discriminate].
  destruct (Z.eqb_spec crc_rx
              (crc16_modbus (py_slice ([a; f] ++ [bc] ++ rest) 0 (-2))))
    as [Heq | Hne]; cbn [negb] in H.
  - destruct (Z.eqb_spec (byte_val bc) (qty * 2)) as [Hcnt | Hcnt];
      cbn [negb] in H; [| other_tag H Htag].
    destruct (decode_regs (py_slice rest 0 (-2))); cbn [bind] in H; discriminate.
  - apply Ret_pair_inv in H. destruct H as [H <-].
    injection H as <- _.
    exists req, a, f, bc, rest, s1, s2.
    repeat apply conj; try reflexivity; try assumption; try lia.
    intros Hok. unfold checksum_ok in Hok.
    rewrite (app_assoc [a; f] [bc] rest), trailing_crc_app in Hok by lia.
    rewrite <- app_assoc in Hok. rewrite Hcrc in Hok. injection Hok as Hok.
    contradiction.
Qed.

(** Every way [read_registers] can fail once the request is written ends
    in the same [None]. *)
Lemma read_registers_failures {D : Type} (ser_timeout : Z) (ser : serial D)
  (slave start qty timeout : Z) (req head : list byte) (s1 : serial D) :
  DumpOngoing.build_req slave start qty = Ret req ->
  DumpOngoing.read_exact ser_timeout (ser_write (reset_input_buffer ser) req) 3
    timeout = (head, s1) ->
  (len head < 3 ->
   DumpOngoing.read_registers ser_timeout ser slave start qty timeout
   = Ret (None, s1)) /\
  (forall a f bc,
      head = [a; f; bc] -> Z.land (byte_val f) 0x80 <> 0 ->
      DumpOngoing.read_registers ser_timeout ser slave start qty timeout
      = Ret (None, snd (DumpOngoing.read_exact ser_timeout s1 2 timeout))) /\
  (forall a f bc rest s2,
      head = [a; f; bc] -> Z.land (byte_val f) 0x80 = 0 ->
      DumpOngoing.read_exact ser_timeout s1 (byte_val bc + 2) timeout = (rest, s2) ->
      len rest <> byte_val bc + 2 \/ ~ checksum_ok ([a; f; bc] ++ rest) ->
      DumpOngoing.read_registers ser_timeout ser slave start qty timeout
      = Ret (None, s2)).
Proof.
  intros Hreq Hhead. repeat apply conj.
  - intros Hlt. unfold DumpOngoing.read_registers.
    rewrite Hreq. cbn [bind]. rewrite Hhead.
    destruct (Z.ltb_spec (len head) 3) as [_ | ?]; [reflexivity | lia].
  - intros a f bc -> Hf. unfold DumpOngoing.read_registers.
    rewrite Hreq. cbn [bind]. rewrite Hhead.
    change (len [a; f; bc] <? 3) with false. cbv iota.
    destruct (Z.eqb_spec (Z.land (byte_val f) 128) 0) as [? | _]; [contradiction |].
    cbn [negb]. cbv iota.
    destruct (DumpOngoing.read_exact ser_timeout s1 2 timeout). reflexivity.
  - intros a f bc rest s2 -> Hf Hrest Hbad.
    destruct (Z.eq_dec (len rest) (byte_val bc + 2)) as [Hlen | Hlen].
    + destruct Hbad as [? | Hbad]; [contradiction |].
      rewrite (read_registers_normal _ _ _ _ _ _ _ _ _ _ _ _ _ Hreq Hhead Hf Hrest
          Hlen).
      cbv zeta. unfold checksum_ok in Hbad. pose proof (byte_val_range bc).
      destruct (trailing_crc_defined ([a; f; bc] ++ rest)) as [v Hv].
      { rewrite len_app. change (len [a; f; bc]) with 3. lia. }
      rewrite Hv in *. cbn [bind].
      destruct (Z.eqb_spec (crc16_modbus (py_slice ([a; f; bc] ++ rest) 0 (-2))) v)
        as [Heq | Hne]; [| reflexivity].
      exfalso. apply Hbad. rewrite Heq. reflexivity.
    + unfold DumpOngoing.read_registers.
      rewrite Hreq. cbn [bind]. rewrite Hhead.
      change (len [a; f; bc] <? 3) with false. cbv iota.
      rewrite Hf. change (negb (0 =? 0)) with false. cbv iota.
      rewrite Hrest.
      destruct (Z.eqb_spec (len rest) (byte_val bc + 2)) as [? | _]; [contradiction |].
      reflexivity.
Qed.

(** [modbus_read_one.py] on a complete normal answer: the values are
    decoded and printed whatever the checksum comparison gives. *)
Lemma read_one_normal_answer {D : Type} (ser : serial D)
  (slave func start count retries : Z) (a f bc : byte) (data : list byte)
  (x y : byte) (tail : list (option byte)) (d' : D) (k : Z) :
  let req := with_crc [to_byte slave; to_byte func; to_byte (start / 256);
                       to_byte start; to_byte (count / 256); to_byte count] in
  0 <= retries ->
  Z.land (byte_val f) 0x80 = 0 ->
  len data = byte_val bc -> byte_val bc = 2 * k ->
  respond ser (dev ser) req
  = (map Some ([a; f; bc] ++ data ++ [x; y]) ++ tail, d') ->
  ReadOne.main ser slave func start count retries
  = Ret (ReadOne.OK_line
           (crc16_modbus ([a; f; bc] ++ data)
            =? Z.lor (byte_val x) (Z.shiftl (byte_val y) 8))
           (byte_val a) (byte_val f) start count
           (enumerate_from start (map (be16 data) (seq 0 (Z.to_nat k)))),
         mkSerial tail (sent ser ++ [req]) d' (respond ser)).
Proof.
  intros req Hn Hf Hlen Hk Hresp. unfold ReadOne.main.
  rewrite read_one_build_req_frame. cbn [bind]. fold req.
  destruct (Z.leb_spec (retries + 1) 0) as [? | _]; [lia |].
  rewrite attempts_eq. cbv zeta.
  assert (Hpay : len (data ++ [x; y]) = byte_val bc + 2)
    by (rewrite len_app; change (len [x; y]) with 2; lia).
  destruct (collect_header_payload ser req a f bc (data ++ [x; y]) tail d'
              (byte_val bc + 2) Hresp Hpay) as (s1 & Hhead & Hrest).
  rewrite Hhead.
  change (len [a; f; bc] <? 3) with false. cbv iota.
  change (py_index [a; f; bc] 0) with (Ret a).
  change (py_index [a; f; bc] 1) with (Ret f).
  change (py_index [a; f; bc] 2) with (Ret bc). cbn [bind].
  rewrite Hf. change (negb (0 =? 0)) with false. cbv iota.
  rewrite Hrest.
  destruct (Z.ltb_spec (len (data ++ [x; y])) (byte_val bc + 2)) as [? | _]; [lia |].
  unfold trailing_crc.
  destruct (py_index_last2 ([a; f; bc] ++ data) x y) as [H2 H1].
  rewrite <- app_assoc in H2, H1. rewrite H2. cbn [bind]. rewrite H1. cbn [bind].
  rewrite <- Hlen, py_slice_data.
  rewrite (decode_regs_even data k) by lia. cbn [bind].
  rewrite (app_assoc [a; f; bc] data [x; y]), py_slice_drop_last2.
  reflexivity.
Qed.

(** C3 (as the code has it).

    - In [read_registers], [read_block] and [read_holding_chunk] register
      values are returned only when the two trailing bytes of the
      collected frame, low byte first, equal the checksum recomputed over
      the bytes before them.
    - [read_block] returns the status [CRC], and [read_holding_chunk] an
      error tagged [BADCRC], when a complete normal frame was collected and
      its checksum does not match, and in no other case; neither comes with
      values.
    - [read_registers] returns [None] on such a mismatch, and the same
      [None] when the header is short, when the answer is an exception and
      when the payload is short.
    - [modbus_read_one.py] rejects nothing: for every complete normal
      answer it prints the decoded values under an [OK] line that carries
      the outcome of the comparison as [crc_ok]. *)
Theorem values_only_with_matching_checksum {D : Type} (ser_timeout : Z)
  (ser : serial D) (slave start qty timeout : Z) :
  (forall m ser',
      DumpOngoing.read_registers ser_timeout ser slave start qty timeout
      = Ret (Some m, ser') ->
      exists req a f bc rest s1,
        DumpOngoing.build_req slave start qty = Ret req /\
        DumpOngoing.read_exact ser_timeout (ser_write (reset_input_buffer ser) req) 3
          timeout = ([a; f; bc], s1) /\
        DumpOngoing.read_exact ser_timeout s1 (byte_val bc + 2) timeout
        = (rest, ser') /\
        checksum_ok ([a; f; bc] ++ rest)) /\
  (forall st msg regs ser',
      DumpInput.read_block ser_timeout ser slave start qty
      = Ret ((st, msg, Some regs), ser') ->
      exists req a f bc rest s1,
        DumpInput.build_req slave start qty = Ret req /\
        DumpInput.read_exact ser_timeout (ser_write (reset_input_buffer ser) req) 3
        = ([a; f; bc], s1) /\
        DumpInput.read_exact ser_timeout s1 (byte_val bc + 2) = (rest, ser') /\
        checksum_ok ([a; f; bc] ++ rest)) /\
  (forall regs err ser',
      DumpHolding.read_holding_chunk ser slave start qty
      = Ret ((Some regs, err), ser') ->
      exists req a f bc rest s1 s2,
        DumpHolding.build_read_holding_req slave start qty = Ret req /\
        read_exact (ser_write (reset_input_buffer ser) req) 2 = ([a; f], s1) /\
        read_exact s1 1 = ([bc], s2) /\
        read_exact s2 (byte_val bc + 2) = (rest, ser') /\
        checksum_ok ([a; f] ++ [bc] ++ rest)) /\
  (forall req a f bc rest s1 s2,
      DumpInput.build_req slave start qty = Ret req ->
      DumpInput.read_exact ser_timeout (ser_write (reset_input_buffer ser) req) 3
      = ([a; f; bc], s1) ->
      Z.land (byte_val f) 0x80 = 0 ->
      DumpInput.read_exact ser_timeout s1 (byte_val bc + 2) = (rest, s2) ->
      len rest = byte_val bc + 2 ->
      ~ checksum_ok ([a; f; bc] ++ rest) ->
      DumpInput.read_block ser_timeout ser slave start qty
      = Ret ((DumpInput.CRC, Some DumpInput.CrcMismatch, None), s2)) /\
  (forall msg regs ser',
      DumpInput.read_block ser_timeout ser slave start qty
      = Ret ((DumpInput.CRC, msg, regs), ser') ->
      exists req a f bc rest s1,
        DumpInput.build_req slave start qty = Ret req /\
        DumpInput.read_exact ser_timeout (ser_write (reset_input_buffer ser) req) 3
        = ([a; f; bc], s1) /\
        Z.land (byte_val f) 0x80 = 0 /\
        DumpInput.read_exact ser_timeout s1 (byte_val bc + 2) = (rest, ser') /\
        len rest = byte_val bc + 2 /\
        ~ checksum_ok ([a; f; bc] ++ rest) /\
        msg = Some DumpInput.CrcMismatch /\ regs = None) /\
  (forall req a f bc rest s1 s2 s3,
      DumpHolding.build_read_holding_req slave start qty = Ret req ->
      read_exact (ser_write (reset_input_buffer ser) req) 2 = ([a; f], s1) ->
      byte_val a = Z.land slave 0xFF ->
      Z.land (byte_val f) 0x80 = 0 ->
      read_exact s1 1 = ([bc], s2) ->
      read_exact s2 (byte_val bc + 2) = (rest, s3) ->
      len rest = byte_val bc + 2 ->
      ~ checksum_ok ([a; f] ++ [bc] ++ rest) ->
      exists err,
        DumpHolding.read_holding_chunk ser slave start qty
        = Ret ((None, Some err), s3) /\
        DumpHolding.etag err = DumpHolding.BADCRC) /\
  (forall regs err ser',
      DumpHolding.read_holding_chunk ser slave start qty
      = Ret ((regs, Some err), ser') ->
      DumpHolding.etag err = DumpHolding.BADCRC ->
      exists req a f bc rest s1 s2,
        DumpHolding.build_read_holding_req slave start qty = Ret req /\
        read_exact (ser_write (reset_input_buffer ser) req) 2 = ([a; f], s1) /\
        byte_val a = Z.land slave 0xFF /\
        Z.land (byte_val f) 0x80 = 0 /\
        read_exact s1 1 = ([bc], s2) /\
        read_exact s2 (byte_val bc + 2) = (rest, ser') /\
        len rest = byte_val bc + 2 /\
        ~ checksum_ok ([a; f] ++ [bc] ++ rest) /\
        regs = None) /\
  (forall req head s1,
      DumpOngoing.build_req slave start qty = Ret req ->
      DumpOngoing.read_exact ser_timeout (ser_write (reset_input_buffer ser) req) 3
        timeout = (head, s1) ->
      (len head < 3 ->
       DumpOngoing.read_registers ser_timeout ser slave start qty timeout
       = Ret (None, s1)) /\
      (forall a f bc,
          head = [a; f; bc] -> Z.land (byte_val f) 0x80 <> 0 ->
          DumpOngoing.read_registers ser_timeout ser slave start qty timeout
          = Ret (None, snd (DumpOngoing.read_exact ser_timeout s1 2 timeout))) /\
      (forall a f bc rest s2,
          head = [a; f; bc] -> Z.land (byte_val f) 0x80 = 0 ->
          DumpOngoing.read_exact ser_timeout s1 (byte_val bc + 2) timeout
          = (rest, s2) ->
          len rest <> byte_val bc + 2 \/ ~ checksum_ok ([a; f; bc] ++ rest) ->
          DumpOngoing.read_registers ser_timeout ser slave start qty timeout
          = Ret (None, s2))) /\
  (forall func retries (a f bc : byte) (data : list byte) (x y : byte)
          (tail : list (option byte)) (d' : D) (k : Z),
      0 <= retries ->
      Z.land (byte_val f) 0x80 = 0 ->
      len data = byte_val bc -> byte_val bc = 2 * k ->
      respond ser (dev ser)
        (with_crc [to_byte slave; to_byte func; to_byte (start / 256);
                   to_byte start; to_byte (qty / 256); to_byte qty])
      = (map Some ([a; f; bc] ++ data ++ [x; y]) ++ tail, d') ->
      exists crc_ok,
        ReadOne.main ser slave func start qty retries
        = Ret (ReadOne.OK_line crc_ok (byte_val a) (byte_val f) start qty
                 (enumerate_from start (map (be16 data) (seq 0 (Z.to_nat k)))),
               mkSerial tail
                 (sent ser
                  ++ [with_crc [to_byte slave; to_byte func; to_byte (start / 256);
                                to_byte start; to_byte (qty / 256); to_byte qty]])
                 d' (respond ser)) /\
        (crc_ok = true <-> checksum_ok ([a; f; bc] ++ data ++ [x; y]))).
Proof.
  repeat apply conj.
  - intros m ser' H.
    destruct (read_registers_Some_inv _ _ _ _ _ _ _ _ H)
      as (req & a & f & bc & rest & s1 & Hreq & Hhead & _ & Hrest & _ & Hcrc & _).
    exists req, a, f, bc, rest, s1. repeat apply conj; assumption.
  - intros st msg regs ser' H.
    destruct (read_block_regs_inv _ _ _ _ _ _ _ _ _ H)
      as (req & a & f & bc & rest & s1 & _ & Hreq & Hhead & _ & Hrest & _ & Hcrc & _).
    exists req, a, f, bc, rest, s1. repeat apply conj; assumption.
  - intros regs err ser' H.
    destruct (read_holding_chunk_regs_inv _ _ _ _ _ _ _ H)
      as (req & a & f & bc & rest & s1 & s2 & _ & Hreq & Hhead & _ & _ & Hbc
          & Hrest & Hlen & Hcrc & _).
    exists req, a, f, bc, rest, s1, s2. repeat apply conj; try assumption.
    unfold checksum_ok. pose proof (byte_val_range bc).
    rewrite (app_assoc [a; f] [bc] rest), trailing_crc_app by lia.
    rewrite <- app_assoc. exact Hcrc.
  - intros req a f bc rest s1 s2 Hreq Hhead Hf Hrest Hlen Hbad.
    rewrite (read_block_normal _ _ _ _ _ _ _ _ _ _ _ _ Hreq Hhead Hf Hrest Hlen).
    cbv zeta. unfold checksum_ok in Hbad. pose proof (byte_val_range bc).
    destruct (trailing_crc_defined ([a; f; bc] ++ rest)) as [v Hv].
    { rewrite len_app. change (len [a; f; bc]) with 3. lia. }
    rewrite Hv in *. cbn [bind].
    destruct (Z.eqb_spec (crc16_modbus (py_slice ([a; f; bc] ++ rest) 0 (-2))) v)
      as [Heq | Hne]; [| reflexivity].
    exfalso. apply Hbad. rewrite Heq. reflexivity.
  - intros msg regs ser'. apply read_block_CRC_inv.
  - intros req a f bc rest s1 s2 s3 Hreq Hhead Ha Hf Hbc Hrest Hlen Hbad.
    rewrite (read_holding_chunk_normal _ _ _ _ _ _ _ _ _ _ _ _
               Hreq Hhead Ha Hf Hbc Hrest ltac:(lia)).
    cbv zeta. unfold checksum_ok in Hbad. pose proof (byte_val_range bc).
    rewrite (app_assoc [a; f] [bc] rest), trailing_crc_app in Hbad by lia.
    rewrite <- app_assoc in Hbad.
    destruct (trailing_crc_defined rest ltac:(lia)) as [v Hv].
    rewrite Hv in *. cbn [bind].
    destruct (Z.eqb_spec v (crc16_modbus (py_slice ([a; f] ++ [bc] ++ rest) 0 (-2))))
      as [Heq | Hne].
    + exfalso. apply Hbad. rewrite Heq. reflexivity.
    + cbn [negb]. cbv iota. unfold DumpHolding.fail. eexists. split; reflexivity.
  - intros regs err ser'. apply read_holding_chunk_BADCRC_inv.
  - intros req head s1. apply read_registers_failures.
  - intros func retries a f bc data x y tail d' k Hn Hf Hlen Hk Hresp.
    eexists. split.
    + apply (read_one_normal_answer ser slave func start qty retries a f bc data
               x y tail d' k Hn Hf Hlen Hk Hresp).
    + unfold checksum_ok, trailing_crc.
      rewrite (app_assoc [a; f; bc] data [x; y]), py_slice_drop_last2.
      destruct (py_index_last2 ([a; f; bc] ++ data) x y) as [-> ->]. cbn [bind].
      rewrite Z.eqb_eq. split; intros H; [rewrite H; reflexivity |].
      injection H as H. symmetry. exact H.
Qed.

Lemma values_only_with_matching_checksum_witness :
  DumpInput.read_block 1000
    (open_port tt (canned [x01; x04; x02; x12; x34; x00; x00])) 1 0 1
  = Ret ((DumpInput.CRC, Some DumpInput.CrcMismatch, None),
         mkSerial [] [with_crc [x01; x04; x00; x00; x00; x01]] tt
           (canned [x01; x04; x02; x12; x34; x00; x00])).
Proof.
  destruct (values_only_with_matching_checksum 1000
              (open_port tt (canned [x01; x04; x02; x12; x34; x00; x00])) 1 0 1 1000)
    as (_ & _ & _ & Hcrc & _).
  apply (Hcrc (with_crc [x01; x04; x00; x00; x00; x01]) x01 x04 x02
           [x12; x34; x00; x00]
           (mkSerial (map Some [x12; x34; x00; x00])
              [with_crc [x01; x04; x00; x00; x00; x01]] tt
              (canned [x01; x04; x02; x12; x34; x00; x00]))).
  - vm_compute. reflexivity.
  - vm_compute. reflexivity.
  - reflexivity.
  - vm_compute. reflexivity.
  - reflexivity.
  - vm_compute. discriminate.
Defined.

(** C3, counterexample.  [modbus_read_one.py] prints the decoded values of a
    frame whose trailing checksum (0) differs from the recomputed one
    (18356), with [crc_ok=False]; and [read_registers] answers a checksum
    mismatch with the same [None] it returns when nothing arrives.  The
    ports are opened with the scripts' default timeout of one second. *)
Lemma read_one_prints_values_despite_checksum :
  trailing_crc [x01; x04; x02; x12; x34; x00; x00] = Ret 0 /\
  crc16_modbus [x01; x04; x02; x12; x34] = 18356 /\
  outcome (ReadOne.main
             (open_port tt (canned [x01; x04; x02; x12; x34; x00; x00])) 1 4 0 1 1)
  = Ret (ReadOne.OK_line false 1 4 0 1 [(0, 0x1234)]) /\
  outcome (DumpOngoing.read_registers 1000
             (open_port tt (canned [x01; x04; x02; x12; x34; x00; x00])) 1 0 1 1000)
  = Ret None /\
  outcome (DumpOngoing.read_registers 1000 (open_port tt silent) 1 0 1 1000)
  = Ret None.
Proof.
  repeat apply conj; vm_compute; reflexivity.
Qed.

(** ** The round trip of a request and its well-formed answer *)





(** ** Bisection after a failed read *)






(** ** A read of one register that fails: stop or skip *)




(** ** The chunk size after a success or a skip *)

(** C8 does not hold of the code: neither loop ever raises the chunk size
    again.  Against a responder on which only address 1 is illegal, the
    range 0..7 is read with a chunk size of 4.  In [modbus_dump_input.py]
    the failed reads of 4 and 2 registers at 0 bring [args.chunk] to 1; the
    read of register 0 then succeeds, register 1 is skipped, and every
    later read still asks for one register although none of them fails.
    In [modbus_dump_holding.py] the successful retry of one register at 0
    leaves [chunk] at 2, the failure at 1 brings it to 1, and after the
    skip every read asks for one register.  Both loops end with a chunk
    size of 1, having printed every register but 1. *)
Theorem chunk_size_stays_reduced :
  input_trace
    (DumpInput.main 1000 12 (open_port tt (inverter (Z.eqb 1) id)) 1 0 8 4 false)
  = Some ([(0, 4); (0, 2); (0, 1); (1, 1); (2, 1); (3, 1); (4, 1); (5, 1);
           (6, 1); (7, 1)],
          1,
          [(0, 0); (2, 2); (3, 3); (4, 4); (5, 5); (6, 6); (7, 7)]) /\
  holding_trace
    (DumpHolding.dump_range 12 (open_port tt (inverter (Z.eqb 1) id)) 1 0 8 4
       false true)
  = Some ([(0, 4); (0, 2); (0, 2); (0, 1); (1, 2); (1, 1); (1, 1); (2, 1);
           (3, 1); (4, 1); (5, 1); (6, 1); (7, 1)],
          1,
          [(0, 0); (2, 2); (3, 3); (4, 4); (5, 5); (6, 6); (7, 7)]).
Proof.
  split; vm_compute; reflexivity.
Qed.
